(** * Jhaveri FIE: technical signal engine and rule-based recommendation engine

    A shallow embedding of [agents/technical_signals.py],
    [agents/mock_engine.py], the instrument keys of [agents/maestro.py]
    and the constants of [config/settings.py], followed by the properties
    of the specification that concern them and by further properties of
    the same code.

    Numbers.  Python floats are modelled by [pyfloat]: the three special
    values of IEEE arithmetic (NaN and the two infinities) and the finite
    values, the latter carried as exact rationals.  Rounding error of the
    binary representation is therefore not part of the model; every
    comparison, every branch and every call of [round] is.  For the
    composite score the rational model is compared with binary64
    arithmetic ([composite_in_binary64]).  Python integers are [Z]; where
    the source mixes both in one variable (a score that is multiplied by
    0.5, an amount in rupees) the variable is a rational.

    Dictionaries.  A record read with [d.get(key, default)] becomes a Rocq
    record whose fields are options: [None] is the absent key, and each
    read spells out the default the source passes.  Dictionaries keyed by
    data (sector names, instrument codes) are [gmap string _]. *)

From Stdlib Require Import ZArith QArith Qround Qminmax Lia Lqa.
From Stdlib Require Import String Ascii DecimalString DecimalNat.
From Stdlib Require Import Sorted Permutation.
From Stdlib Require PrimFloat Uint63.
From stdpp Require Import base option list strings gmap.

Local Open Scope Z_scope.
Local Open Scope string_scope.

(* ===================================================================== *)
(** ** Python numbers                                                     *)
(* ===================================================================== *)

Inductive pyfloat : Type :=
| NaN
| PInf
| NInf
| Fin (q : Q).

Definition Qlt_bool (x y : Q) : bool := negb (Qle_bool y x).

(** [np.isnan(x)] *)
Definition isnan (x : pyfloat) : bool :=
  match x with NaN => true | _ => false end.

(** Truth value of a float in a condition ([if x and ...]): every float
    but zero is true, NaN and the infinities included. *)
Definition truthy (x : pyfloat) : bool :=
  match x with
  | Fin q => negb (Qeq_bool q 0)
  | _ => true
  end.

(** [x < y]; a comparison with NaN is false. *)
Definition flt (x y : pyfloat) : bool :=
  match x, y with
  | Fin a, Fin b => Qlt_bool a b
  | NInf, Fin _ | NInf, PInf | Fin _, PInf => true
  | _, _ => false
  end.

(** [x > y] *)
Definition fgt (x y : pyfloat) : bool := flt y x.

(** IEEE arithmetic on the extended values.  Zero carries no sign here:
    the only divisions by zero in the source have a divisor that is a mean
    of non-negative terms, hence a positive zero. *)
Definition fneg (x : pyfloat) : pyfloat :=
  match x with
  | NaN => NaN
  | PInf => NInf
  | NInf => PInf
  | Fin a => Fin (- a)
  end.

Definition fadd (x y : pyfloat) : pyfloat :=
  match x, y with
  | NaN, _ | _, NaN => NaN
  | PInf, NInf | NInf, PInf => NaN
  | PInf, _ | _, PInf => PInf
  | NInf, _ | _, NInf => NInf
  | Fin a, Fin b => Fin (a + b)
  end.

Definition fsub (x y : pyfloat) : pyfloat := fadd x (fneg y).

Definition fmul (x y : pyfloat) : pyfloat :=
  match x, y with
  | NaN, _ | _, NaN => NaN
  | Fin a, Fin b => Fin (a * b)
  | Fin a, PInf | PInf, Fin a =>
      if Qeq_bool a 0 then NaN else if Qlt_bool 0 a then PInf else NInf
  | Fin a, NInf | NInf, Fin a =>
      if Qeq_bool a 0 then NaN else if Qlt_bool 0 a then NInf else PInf
  | PInf, PInf | NInf, NInf => PInf
  | PInf, NInf | NInf, PInf => NInf
  end.

Definition fdiv (x y : pyfloat) : pyfloat :=
  match x, y with
  | NaN, _ | _, NaN => NaN
  | Fin a, Fin b =>
      if Qeq_bool b 0
      then (if Qeq_bool a 0 then NaN else if Qlt_bool 0 a then PInf else NInf)
      else Fin (a / b)
  | Fin _, (PInf | NInf) => Fin 0
  | PInf, Fin b => if Qlt_bool b 0 then NInf else PInf
  | NInf, Fin b => if Qlt_bool b 0 then PInf else NInf
  | (PInf | NInf), (PInf | NInf) => NaN
  end.

(** Nearest integer, ties to the even neighbour: the rounding of Python's
    [round]. *)
Definition round_half_even (q : Q) : Z :=
  let f := Qfloor q in
  match Qcompare (q - inject_Z f) (1 # 2) with
  | Lt => f
  | Gt => f + 1
  | Eq => if Z.even f then f else f + 1
  end.

(** [round(x)]: an int. *)
Definition py_round0 (q : Q) : Z := round_half_even q.

(** [round(x, ndigits)]: a float again. *)
Definition py_round (q : Q) (ndigits : nat) : Q :=
  let p := inject_Z (10 ^ Z.of_nat ndigits) in
  (inject_Z (round_half_even (q * p)) / p)%Q.

(** [round(x, ndigits)] on a float that may be special: NaN and the
    infinities are returned as they are. *)
Definition fround (x : pyfloat) (ndigits : nat) : pyfloat :=
  match x with
  | Fin q => Fin (py_round q ndigits)
  | _ => x
  end.

(* ===================================================================== *)
(** ** config/settings.py                                                 *)
(* ===================================================================== *)

Module TC.
Definition rsi_period : nat := 14.
Definition rsi_oversold : Q := 30.
Definition rsi_overbought : Q := 70.
Definition stoch_rsi_period : nat := 14.
Definition stoch_rsi_oversold : Q := 20.
Definition stoch_rsi_overbought : Q := 80.
Definition weight_trend : Q := 30 # 100.
Definition weight_momentum : Q := 30 # 100.
Definition weight_volume : Q := 20 # 100.
Definition weight_volatility : Q := 10 # 100.
Definition weight_relative_strength : Q := 10 # 100.
End TC.

Module SIGNAL_THRESHOLDS.
Definition STRONG_BUY : Q := 60.
Definition BUY : Q := 20.
Definition HOLD_UPPER : Q := 20.
Definition HOLD_LOWER : Q := -20.
Definition SELL : Q := -60.
Definition STRONG_SELL : Q := -100.
End SIGNAL_THRESHOLDS.

(* ===================================================================== *)
(** ** agents/technical_signals.py: the data                              *)
(* ===================================================================== *)

(** One row of the frame [fetch_price_data] returns. *)
Record PriceBar : Type := {
  bar_date : string;
  bar_open : pyfloat;
  bar_high : pyfloat;
  bar_low : pyfloat;
  bar_close : pyfloat;
  bar_volume : pyfloat
}.

(** One row of the frame after [compute_all_indicators]: the bar and the
    indicator columns.  A column the frame does not have is [None]; a
    column whose cell is NaN is [Some NaN]. *)
Record Row : Type := {
  bar : PriceBar;
  rsi_14 : option pyfloat;
  macd_crossover : option string;
  price_vs_200dma : option string;
  dma_cross : option string;
  bb_position : option string;
  adx : option pyfloat;
  adx_trend : option string;
  obv_trend : option string;
  volume_signal : option string;
  volume_ratio : option pyfloat;
  stoch_rsi : option pyfloat;
  pct_from_52w_high : option pyfloat;
  pct_from_52w_low : option pyfloat
}.

(** [row.get(key) == s], where the absent key reads as [None]. *)
Definition get_is (cell : option string) (s : string) : bool :=
  match cell with
  | Some v => String.eqb v s
  | None => false
  end.

Record Scores : Type := {
  trend_score : Q;
  momentum_score : Q;
  volume_score : Q;
  volatility_score : Q;
  relative_strength_score : Q;
  composite_score : Q;
  signal : string
}.

(** [max(-100, min(100, x))] *)
Definition clamp (x : Q) : Q := Qmax (-100) (Qmin 100 x).

(* ===================================================================== *)
(** ** compute_composite_score                                            *)
(* ===================================================================== *)

Section CompositeScore.
Local Open Scope Q_scope.

(** Lines 314-342. *)
Definition score_trend (row : Row) : Q :=
  let trend := 0 in
  let trend :=
    if get_is (price_vs_200dma row) "ABOVE" then trend + 30 else trend - 30 in
  let trend :=
    if get_is (dma_cross row) "GOLDEN_CROSS" then trend + 40
    else if get_is (dma_cross row) "DEATH_CROSS" then trend - 40
    else trend in
  let adx := default (Fin 0) (adx row) in
  let trend :=
    if truthy adx && negb (isnan adx) then
      if fgt adx (Fin 30) then
        (if Qlt_bool 0 trend then trend + 20 else trend - 20)
      else if flt adx (Fin 15) then trend * (1 # 2)
      else trend
    else trend in
  clamp trend.

(** Contribution of the RSI, lines 348-357. *)
Definition momentum_rsi (row : Row) : Q :=
  let rsi := default (Fin 50) (rsi_14 row) in
  if truthy rsi && negb (isnan rsi) then
    if flt rsi (Fin TC.rsi_oversold) then 40
    else if fgt rsi (Fin TC.rsi_overbought) then -40
    else if flt rsi (Fin 45) then 15
    else if fgt rsi (Fin 55) then -15
    else 0
  else 0.

(** Contribution of the MACD crossover, lines 360-364. *)
Definition momentum_macd (row : Row) : Q :=
  let macd_cross := default "NEUTRAL" (macd_crossover row) in
  if String.eqb macd_cross "BULLISH" then 35
  else if String.eqb macd_cross "BEARISH" then -35
  else 0.

(** Contribution of the stochastic RSI, lines 367-372. *)
Definition momentum_stoch (row : Row) : Q :=
  let stoch := default (Fin 50) (stoch_rsi row) in
  if truthy stoch && negb (isnan stoch) then
    if flt stoch (Fin TC.stoch_rsi_oversold) then 25
    else if fgt stoch (Fin TC.stoch_rsi_overbought) then -25
    else 0
  else 0.

(** Lines 344-375: the three contributions are added to the running
    [momentum] in this order, then clamped. *)
Definition score_momentum (row : Row) : Q :=
  let momentum := 0 in
  let momentum := momentum + momentum_rsi row in
  let momentum := momentum + momentum_macd row in
  let momentum := momentum + momentum_stoch row in
  clamp momentum.

(** Lines 377-394. *)
Definition score_volume (row : Row) : Q :=
  let vol_score := 0 in
  let vol_signal := default "NORMAL" (volume_signal row) in
  let obv_trend := default "FLAT" (obv_trend row) in
  let surge_or_high :=
    String.eqb vol_signal "SURGE" || String.eqb vol_signal "HIGH" in
  let vol_score :=
    if surge_or_high && String.eqb obv_trend "RISING" then vol_score + 60
    else if surge_or_high && String.eqb obv_trend "FALLING" then vol_score - 40
    else if String.eqb obv_trend "RISING" then vol_score + 25
    else if String.eqb obv_trend "FALLING" then vol_score - 25
    else vol_score in
  clamp vol_score.

(** Lines 396-406. *)
Definition score_volatility (row : Row) : Q :=
  let vol_score_v := 0 in
  let bb_pos := default "MIDDLE" (bb_position row) in
  let vol_score_v :=
    if String.eqb bb_pos "LOWER" then vol_score_v + 40
    else if String.eqb bb_pos "UPPER" then vol_score_v - 40
    else vol_score_v in
  clamp vol_score_v.

(** Contribution of the distance from the 52-week high, lines 414-418. *)
Definition rs_high (row : Row) : Q :=
  let pct_52h := default (Fin 0) (pct_from_52w_high row) in
  if truthy pct_52h && negb (isnan pct_52h) then
    if fgt pct_52h (Fin (-5)) then 40
    else if flt pct_52h (Fin (-30)) then -30
    else 0
  else 0.

(** Contribution of the distance from the 52-week low, lines 420-422. *)
Definition rs_low (row : Row) : Q :=
  let pct_52l := default (Fin 0) (pct_from_52w_low row) in
  if truthy pct_52l && negb (isnan pct_52l) then
    if flt pct_52l (Fin 5) then -20 else 0
  else 0.

(** Lines 408-425. *)
Definition score_relative_strength (row : Row) : Q :=
  let rs_score := 0 in
  let rs_score := rs_score + rs_high row in
  let rs_score := rs_score + rs_low row in
  clamp rs_score.

(** Lines 438-448, on the composite before it is rounded. *)
Definition signal_of (composite : Q) : string :=
  if Qle_bool SIGNAL_THRESHOLDS.STRONG_BUY composite then "STRONG_BUY"
  else if Qle_bool SIGNAL_THRESHOLDS.BUY composite then "BUY"
  else if Qle_bool SIGNAL_THRESHOLDS.HOLD_LOWER composite then "HOLD"
  else if Qle_bool SIGNAL_THRESHOLDS.SELL composite then "SELL"
  else "STRONG_SELL".

(** The weighted sum of lines 428-434. *)
Definition weighted_sum (trend momentum volume volatility rs : Q) : Q :=
  trend * TC.weight_trend +
  momentum * TC.weight_momentum +
  volume * TC.weight_volume +
  volatility * TC.weight_volatility +
  rs * TC.weight_relative_strength.

Definition compute_composite_score (row : Row) : Scores :=
  let trend := score_trend row in
  let momentum := score_momentum row in
  let vol_score := score_volume row in
  let vol_score_v := score_volatility row in
  let rs_score := score_relative_strength row in
  let composite := weighted_sum trend momentum vol_score vol_score_v rs_score in
  {| trend_score := trend;
     momentum_score := momentum;
     volume_score := vol_score;
     volatility_score := vol_score_v;
     relative_strength_score := rs_score;
     composite_score := py_round composite 1;
     signal := signal_of composite |}.

End CompositeScore.

(* ===================================================================== *)
(** ** The composite in binary64 arithmetic                               *)
(* ===================================================================== *)

(** The sub-scores are small integers, which binary64 represents exactly;
    the weights are not.  The definitions below redo lines 428-448 with the
    kernel's binary64 numbers, so that the rational model above can be
    compared with what the interpreter computes. *)
Module Binary64.
Import PrimFloat.
#[local] Set Warnings "-inexact-float".

(** [float(z)] for an integer of at most 62 bits. *)
Definition float_of_Z (z : Z) : float :=
  match z with
  | Z0 => 0%float
  | Zpos _ => of_uint63 (Uint63.of_Z z)
  | Zneg p => (- of_uint63 (Uint63.of_Z (Zpos p)))%float
  end.

Definition weight_trend : float := 0.30%float.
Definition weight_momentum : float := 0.30%float.
Definition weight_volume : float := 0.20%float.
Definition weight_volatility : float := 0.10%float.
Definition weight_relative_strength : float := 0.10%float.

Definition weighted_sum (trend momentum volume volatility rs : float) : float :=
  (trend * weight_trend +
   momentum * weight_momentum +
   volume * weight_volume +
   volatility * weight_volatility +
   rs * weight_relative_strength)%float.

Definition signal_of (composite : float) : string :=
  if (60 <=? composite)%float then "STRONG_BUY"
  else if (20 <=? composite)%float then "BUY"
  else if (-20 <=? composite)%float then "HOLD"
  else if (-60 <=? composite)%float then "SELL"
  else "STRONG_SELL".

End Binary64.

(** The values each sub-score can take. *)
Definition trend_values : list Z :=
  [-90; -70; -50; -35; -30; -15; -10; -5; 5; 10; 15; 30; 35; 50; 70; 90].

Definition momentum_values : list Z :=
  [-100; -75; -65; -60; -50; -45; -40; -35; -30; -25; -20; -15; -10; -5; 0;
   5; 10; 15; 20; 25; 30; 35; 40; 45; 50; 60; 65; 75; 100].

Definition volume_values : list Z := [-40; -25; 0; 25; 60].

Definition volatility_values : list Z := [-40; 0; 40].

Definition relative_strength_values : list Z := [-50; -30; -20; 0; 20; 40].

(** For five integer sub-scores: the binary64 sum, doubled, is the integer
    twice the rational sum, and the two labels are the same. *)
Definition binary64_agrees (t m v w r : Z) : bool :=
  let b64 :=
    Binary64.weighted_sum (Binary64.float_of_Z t) (Binary64.float_of_Z m)
      (Binary64.float_of_Z v) (Binary64.float_of_Z w) (Binary64.float_of_Z r) in
  let exact :=
    weighted_sum (inject_Z t) (inject_Z m) (inject_Z v) (inject_Z w)
      (inject_Z r) in
  Qeq_bool (inject_Z (Qfloor (2 * exact))) (2 * exact)
  && PrimFloat.eqb (PrimFloat.mul b64 (Binary64.float_of_Z 2))
       (Binary64.float_of_Z (Qfloor (2 * exact)))
  && String.eqb (Binary64.signal_of b64) (signal_of exact).

(** The thresholds as the specification words them, on an enumeration
    ordered from the most bearish to the most bullish label. *)
Inductive Signal : Type := STRONG_SELL | SELL | HOLD | BUY | STRONG_BUY.

Definition signal_label (s : Signal) : string :=
  match s with
  | STRONG_SELL => "STRONG_SELL"
  | SELL => "SELL"
  | HOLD => "HOLD"
  | BUY => "BUY"
  | STRONG_BUY => "STRONG_BUY"
  end.

Definition signal_rank (s : Signal) : Z :=
  match s with
  | STRONG_SELL => 0
  | SELL => 1
  | HOLD => 2
  | BUY => 3
  | STRONG_BUY => 4
  end.

Definition spec_signal_step (composite : Q) : Signal :=
  if Qle_bool 60 composite then STRONG_BUY
  else if Qle_bool 20 composite then BUY
  else if Qle_bool (-20) composite then HOLD
  else if Qle_bool (-60) composite then SELL
  else STRONG_SELL.

(** The contributions to the momentum sub-score as the specification
    words them: one RSI zone per value, one stochastic-RSI zone per value. *)
Definition spec_momentum_rsi (rsi : pyfloat) : Q :=
  if flt rsi (Fin 30) then 40
  else if fgt rsi (Fin 70) then -40
  else if flt rsi (Fin 45) then 15
  else if fgt rsi (Fin 55) then -15
  else 0.

Definition spec_momentum_stoch (stoch : pyfloat) : Q :=
  if flt stoch (Fin 20) then 25
  else if fgt stoch (Fin 80) then -25
  else 0.

Definition spec_momentum (row : Row) : Q :=
  clamp (spec_momentum_rsi (default (Fin 50) (rsi_14 row))
         + momentum_macd row
         + spec_momentum_stoch (default (Fin 50) (stoch_rsi row)))%Q.

(** The contributions to the relative-strength sub-score as the
    specification words them: three independent conditions on the columns
    the row has. *)
Definition spec_rs_high (cell : option pyfloat) : Q :=
  match cell with
  | Some pct_52h =>
      ((if fgt pct_52h (Fin (-5)) then 40 else 0)
       + (if flt pct_52h (Fin (-30)) then -30 else 0))%Q
  | None => 0
  end.

Definition spec_rs_low (cell : option pyfloat) : Q :=
  match cell with
  | Some pct_52l => if flt pct_52l (Fin 5) then -20 else 0
  | None => 0
  end.

Definition spec_relative_strength (row : Row) : Q :=
  clamp (spec_rs_high (pct_from_52w_high row)
         + spec_rs_low (pct_from_52w_low row))%Q.

(** Rows for the examples: a bar and no indicator column, then single
    columns set. *)
Definition bar0 : PriceBar :=
  {| bar_date := "2024-01-01"; bar_open := Fin 100; bar_high := Fin 100;
     bar_low := Fin 100; bar_close := Fin 100; bar_volume := Fin 1000 |}.

Definition row_of_bar (b : PriceBar) : Row :=
  {| bar := b; rsi_14 := None; macd_crossover := None;
     price_vs_200dma := None; dma_cross := None; bb_position := None;
     adx := None; adx_trend := None; obv_trend := None;
     volume_signal := None; volume_ratio := None; stoch_rsi := None;
     pct_from_52w_high := None; pct_from_52w_low := None |}.

Definition set_rsi_14 (x : pyfloat) (r : Row) : Row :=
  {| bar := bar r; rsi_14 := Some x; macd_crossover := macd_crossover r;
     price_vs_200dma := price_vs_200dma r; dma_cross := dma_cross r;
     bb_position := bb_position r; adx := adx r; adx_trend := adx_trend r;
     obv_trend := obv_trend r; volume_signal := volume_signal r;
     volume_ratio := volume_ratio r; stoch_rsi := stoch_rsi r;
     pct_from_52w_high := pct_from_52w_high r;
     pct_from_52w_low := pct_from_52w_low r |}.

Definition set_stoch_rsi (x : pyfloat) (r : Row) : Row :=
  {| bar := bar r; rsi_14 := rsi_14 r; macd_crossover := macd_crossover r;
     price_vs_200dma := price_vs_200dma r; dma_cross := dma_cross r;
     bb_position := bb_position r; adx := adx r; adx_trend := adx_trend r;
     obv_trend := obv_trend r; volume_signal := volume_signal r;
     volume_ratio := volume_ratio r; stoch_rsi := Some x;
     pct_from_52w_high := pct_from_52w_high r;
     pct_from_52w_low := pct_from_52w_low r |}.

Definition set_pct_52w (high low : pyfloat) (r : Row) : Row :=
  {| bar := bar r; rsi_14 := rsi_14 r; macd_crossover := macd_crossover r;
     price_vs_200dma := price_vs_200dma r; dma_cross := dma_cross r;
     bb_position := bb_position r; adx := adx r; adx_trend := adx_trend r;
     obv_trend := obv_trend r; volume_signal := volume_signal r;
     volume_ratio := volume_ratio r; stoch_rsi := stoch_rsi r;
     pct_from_52w_high := Some high;
     pct_from_52w_low := Some low |}.

(** A row with every column the scorer reads. *)
Definition indicator_row (vs_200dma cross : string) (adx rsi : pyfloat)
    (macd : string) (stoch : pyfloat) (vol obv bb : string)
    (from_high from_low : pyfloat) : Row :=
  {| bar := bar0; rsi_14 := Some rsi; macd_crossover := Some macd;
     price_vs_200dma := Some vs_200dma; dma_cross := Some cross;
     bb_position := Some bb; adx := Some adx; adx_trend := Some "WEAK_TREND";
     obv_trend := Some obv; volume_signal := Some vol;
     volume_ratio := Some (Fin 1); stoch_rsi := Some stoch;
     pct_from_52w_high := Some from_high; pct_from_52w_low := Some from_low |}.

(** Four rows whose composite falls on a threshold: 60, 20, -20 and -60. *)
Definition row_at_60 : Row :=
  indicator_row "ABOVE" "GOLDEN_CROSS" (Fin 20) (Fin 25) "BULLISH" (Fin 10)
    "SURGE" "RISING" "MIDDLE" (Fin (-40)) (Fin 50).

Definition row_at_20 : Row :=
  indicator_row "BELOW" "DEATH_CROSS" (Fin 20) (Fin 25) "BULLISH" (Fin 10)
    "SURGE" "RISING" "LOWER" (Fin (-40)) (Fin 3).

Definition row_at_minus_20 : Row :=
  indicator_row "BELOW" "DEATH_CROSS" (Fin 20) (Fin 50) "NEUTRAL" (Fin 50)
    "NORMAL" "RISING" "UPPER" (Fin (-10)) (Fin 50).

Definition row_at_minus_60 : Row :=
  indicator_row "BELOW" "DEATH_CROSS" (Fin 20) (Fin 80) "BEARISH" (Fin 90)
    "SURGE" "FALLING" "LOWER" (Fin (-40)) (Fin 3).

(** A bar whose RSI is 0 (fourteen falling closes), one whose stochastic
    RSI is 0 (the RSI at its fourteen-bar low), one that closes at its
    52-week high and one that closes at its 52-week low. *)
Definition row_rsi_zero : Row := set_rsi_14 (Fin 0) (row_of_bar bar0).
Definition row_stoch_zero : Row := set_stoch_rsi (Fin 0) (row_of_bar bar0).
Definition row_at_52w_high : Row := set_pct_52w (Fin 0) (Fin 50) (row_of_bar bar0).
Definition row_at_52w_low : Row := set_pct_52w (Fin (-40)) (Fin 0) (row_of_bar bar0).

(* ===================================================================== *)
(** ** _compute_rsi                                                       *)
(* ===================================================================== *)

(** A [pd.Series] of floats is a list; the closes of a price series are
    finite.  The functions below are the pandas operations the source
    calls, for a window of at least one bar. *)

(** [series.diff()]: NaN in front, then the consecutive differences. *)
Definition diff (series : list Q) : list pyfloat :=
  match series with
  | [] => []
  | _ :: rest => NaN :: zip_with (fun prev cur => Fin (cur - prev)%Q) series rest
  end.

(** [delta.where(delta > 0, 0.0)] *)
Definition gains (delta : list pyfloat) : list pyfloat :=
  (fun d => if fgt d (Fin 0) then d else Fin 0) <$> delta.

(** [(-delta).where(delta < 0, 0.0)] *)
Definition losses (delta : list pyfloat) : list pyfloat :=
  (fun d => if flt d (Fin 0) then fneg d else Fin 0) <$> delta.

(** The window of [period] cells that ends at index [i]. *)
Definition window (period : nat) (xs : list pyfloat) (i : nat) : list pyfloat :=
  take period (drop (S i - period) xs).

(** [xs.rolling(window=period, min_periods=period).mean()]: NaN until the
    window is full and wherever it holds a NaN. *)
Definition rolling_mean (period : nat) (xs : list pyfloat) : list pyfloat :=
  (fun i =>
     if (S i <? period)%nat then NaN
     else
       let w := window period xs i in
       if existsb isnan w then NaN
       else fdiv (foldl fadd (Fin 0) w) (Fin (inject_Z (Z.of_nat period))))
  <$> seq 0 (length xs).

(** One turn of the loop of lines 201-203, on the two series at once. *)
Definition wilder_step (period : nat) (gain loss : list pyfloat)
    (avgs : list pyfloat * list pyfloat) (i : nat)
  : list pyfloat * list pyfloat :=
  let '(avg_gain, avg_loss) := avgs in
  let p := Fin (inject_Z (Z.of_nat period)) in
  let p1 := Fin (inject_Z (Z.of_nat period - 1)) in
  let smooth (avg x : list pyfloat) :=
    fdiv (fadd (fmul (default NaN (avg !! (i - 1)%nat)) p1)
               (default NaN (x !! i))) p in
  (<[i := smooth avg_gain gain]> avg_gain,
   <[i := smooth avg_loss loss]> avg_loss).

(** The smoothed average gain and average loss of lines 193-203. *)
Definition rsi_averages (series : list Q) (period : nat)
  : list pyfloat * list pyfloat :=
  let delta := diff series in
  let gain := gains delta in
  let loss := losses delta in
  let avg_gain := rolling_mean period gain in
  let avg_loss := rolling_mean period loss in
  foldl (wilder_step period gain loss) (avg_gain, avg_loss)
        (seq period (length series - period)).

(** Line 206, for one bar. *)
Definition rsi_of_rs (rs : pyfloat) : pyfloat :=
  fsub (Fin 100) (fdiv (Fin 100) (fadd (Fin 1) rs)).

Definition _compute_rsi (series : list Q) (period : nat) : list pyfloat :=
  let '(avg_gain, avg_loss) := rsi_averages series period in
  let rs := zip_with fdiv avg_gain avg_loss in
  rsi_of_rs <$> rs.

(** Sixteen closes that only rise, and sixteen that only fall. *)
Definition rising_closes : list Q :=
  (fun n => inject_Z (Z.of_nat n)) <$> seq 100 16.

Definition falling_closes : list Q :=
  (fun n => inject_Z (200 - Z.of_nat n)) <$> seq 100 16.

(* ===================================================================== *)
(** ** compute_all_indicators and analyze_instrument                      *)
(* ===================================================================== *)

(** What a call does: it returns a value or raises. *)
Inductive outcome (A : Type) : Type :=
| Returns (a : A)
| Raises (exn : string).
Arguments Returns {A} a.
Arguments Raises {A} exn.

(** The dictionary [analyze_instrument] builds at lines 479-497; the score
    entries merged in by [**scores] are kept together. *)
Record Snapshot : Type := {
  snap_symbol : string;
  snap_date : string;
  snap_close : pyfloat;
  snap_rsi_14 : option pyfloat;
  snap_macd_crossover : string;
  snap_price_vs_200dma : string;
  snap_dma_cross : string;
  snap_bb_position : string;
  snap_adx : option pyfloat;
  snap_adx_trend : string;
  snap_obv_trend : string;
  snap_volume_signal : string;
  snap_volume_ratio : option pyfloat;
  snap_stoch_rsi : option pyfloat;
  snap_pct_from_52w_high : option pyfloat;
  snap_pct_from_52w_low : option pyfloat;
  snap_scores : Scores
}.

(** The two dictionaries [analyze_instrument] can return: the one of line
    464, with the keys [symbol] and [error] only, and the snapshot. *)
Inductive Analysis : Type :=
| NoData (symbol error : string)
| Analysed (snap : Snapshot).

(** [round(x, n) if not np.isnan(x) else None] *)
Definition round_unless_nan (x : pyfloat) (ndigits : nat) : option pyfloat :=
  if negb (isnan x) then Some (fround x ndigits) else None.

Section Pipeline.

(** The price history service behind [fetch_price_data], which answers
    with a frame of bars, empty when it has nothing or fails. *)
Variable fetch_price_data : string -> list PriceBar.

(** Lines 112-187: the indicator columns of a frame of at least fifty
    bars.  The rolling standard deviation among them has no exact
    rational value, so these lines are a parameter of the model. *)
Variable indicator_columns : list PriceBar -> list Row.

(** Lines 106-110 return the frame as it came, that is, with no indicator
    column. *)
Definition compute_all_indicators (df : list PriceBar) : list Row :=
  if (length df =? 0)%nat || (length df <? 50)%nat
  then row_of_bar <$> df
  else indicator_columns df.

(** Lines 456-499.  Writing the bars to the price cache (line 467) leaves
    the frame as it is and is not modelled. *)
Definition analyze_instrument (symbol : string) : outcome Analysis :=
  let df := fetch_price_data symbol in
  if (length df =? 0)%nat then Returns (NoData symbol "No data available")
  else
    let df := compute_all_indicators df in
    match last df with
    | None => Raises "IndexError"
    | Some latest =>
        let scores := compute_composite_score latest in
        Returns (Analysed
          {| snap_symbol := symbol;
             snap_date := bar_date (bar latest);
             snap_close := fround (bar_close (bar latest)) 2;
             snap_rsi_14 :=
               round_unless_nan (default (Fin 0) (rsi_14 latest)) 1;
             snap_macd_crossover := default "NEUTRAL" (macd_crossover latest);
             snap_price_vs_200dma := default "" (price_vs_200dma latest);
             snap_dma_cross := default "NONE" (dma_cross latest);
             snap_bb_position := default "MIDDLE" (bb_position latest);
             snap_adx := round_unless_nan (default (Fin 0) (adx latest)) 1;
             snap_adx_trend := default "" (adx_trend latest);
             snap_obv_trend := default "FLAT" (obv_trend latest);
             snap_volume_signal := default "NORMAL" (volume_signal latest);
             snap_volume_ratio :=
               round_unless_nan (default (Fin 1) (volume_ratio latest)) 2;
             snap_stoch_rsi :=
               round_unless_nan (default (Fin 0) (stoch_rsi latest)) 1;
             snap_pct_from_52w_high :=
               round_unless_nan (default (Fin 0) (pct_from_52w_high latest)) 1;
             snap_pct_from_52w_low :=
               round_unless_nan (default (Fin 0) (pct_from_52w_low latest)) 1;
             snap_scores := scores |})
    end.

End Pipeline.

(** The snapshot of a bar that has no indicator column: every indicator
    entry is the default of its lookup. *)
Definition default_snapshot (symbol : string) (latest : PriceBar) : Snapshot :=
  {| snap_symbol := symbol;
     snap_date := bar_date latest;
     snap_close := fround (bar_close latest) 2;
     snap_rsi_14 := Some (fround (Fin 0) 1);
     snap_macd_crossover := "NEUTRAL";
     snap_price_vs_200dma := "";
     snap_dma_cross := "NONE";
     snap_bb_position := "MIDDLE";
     snap_adx := Some (fround (Fin 0) 1);
     snap_adx_trend := "";
     snap_obv_trend := "FLAT";
     snap_volume_signal := "NORMAL";
     snap_volume_ratio := Some (fround (Fin 1) 2);
     snap_stoch_rsi := Some (fround (Fin 0) 1);
     snap_pct_from_52w_high := Some (fround (Fin 0) 1);
     snap_pct_from_52w_low := Some (fround (Fin 0) 1);
     snap_scores := compute_composite_score (row_of_bar latest) |}.

(** A price service that knows one bar of every symbol. *)
Definition one_bar_history (symbol : string) : list PriceBar := [bar0].

(** An indicator pass for the examples; frames of fewer than fifty bars
    never reach it. *)
Definition no_indicator_columns (df : list PriceBar) : list Row :=
  row_of_bar <$> df.

(* ===================================================================== *)
(** ** Python strings                                                     *)
(* ===================================================================== *)

(** Strings are byte strings here; the functions below are the [str]
    methods the source calls, on ASCII text. *)

(** [s.upper()] *)
Definition upper_ascii (c : ascii) : ascii :=
  let n := nat_of_ascii c in
  if ((97 <=? n) && (n <=? 122))%nat then ascii_of_nat (n - 32) else c.

Fixpoint upper (s : string) : string :=
  match s with
  | EmptyString => EmptyString
  | String c rest => String (upper_ascii c) (upper rest)
  end.

(** [needle in hay] *)
Fixpoint contains (needle hay : string) : bool :=
  String.prefix needle hay
  || match hay with
     | EmptyString => false
     | String _ rest => contains needle rest
     end.

(** [s.replace(old, new)] for a non-empty [old]: occurrences are replaced
    from the left and do not overlap.  [skip] counts the characters of an
    occurrence still to be dropped. *)
Fixpoint replace_from (old new : string) (skip : nat) (s : string) : string :=
  match s with
  | EmptyString => EmptyString
  | String c rest =>
      match skip with
      | S k => replace_from old new k rest
      | O =>
          if String.prefix old s
          then new ++ replace_from old new (String.length old - 1) rest
          else String c (replace_from old new 0 rest)
      end
  end.

Definition str_replace (old new s : string) : string :=
  replace_from old new 0 s.

(** Truth value of a string in a condition: the empty string is false. *)
Definition str_truthy (s : string) : bool :=
  match s with EmptyString => false | _ => true end.

(** The white space [int] strips from both ends. *)
Definition is_space (c : ascii) : bool :=
  let n := nat_of_ascii c in
  (((9 <=? n) && (n <=? 13)) || ((28 <=? n) && (n <=? 32)))%nat.

Definition is_digit (c : ascii) : bool :=
  let n := nat_of_ascii c in ((48 <=? n) && (n <=? 57))%nat.

Definition digit_value (c : ascii) : Z := Z.of_nat (nat_of_ascii c) - 48.

Fixpoint drop_spaces (s : list ascii) : list ascii :=
  match s with
  | c :: rest => if is_space c then drop_spaces rest else s
  | [] => []
  end.

Definition strip (s : list ascii) : list ascii :=
  rev (drop_spaces (rev (drop_spaces s))).

(** The digits of a decimal literal; single underscores may separate
    digits.  [after_digit] tells whether the previous character was one. *)
Fixpoint digits_value (acc : Z) (after_digit : bool) (s : list ascii)
  : option Z :=
  match s with
  | [] => if after_digit then Some acc else None
  | c :: rest =>
      if is_digit c then digits_value (10 * acc + digit_value c) true rest
      else if Ascii.eqb c "_" && after_digit then digits_value acc false rest
      else None
  end.

(** [int(s)]: [None] is the [ValueError] of a string that is no decimal
    integer. *)
Definition py_int (s : string) : option Z :=
  match strip (list_ascii_of_string s) with
  | "+"%char :: rest => digits_value 0 false rest
  | "-"%char :: rest => Z.opp <$> digits_value 0 false rest
  | body => digits_value 0 false body
  end.

(** [f"{n:03d}"] *)
Definition format_03d (n : nat) : string :=
  let digits := NilEmpty.string_of_uint (Nat.to_uint n) in
  match String.length digits with
  | 1%nat => "00" ++ digits
  | 2%nat => "0" ++ digits
  | _ => digits
  end.

(** [f"{n}"] *)
Definition format_nat (n : nat) : string :=
  NilEmpty.string_of_uint (Nat.to_uint n).

(** [sorted(l, key=key)]: the keys are compared with [<] only and equal
    keys keep their order.  Insertion from the right end is the simplest
    sort with that property. *)
Fixpoint insert_by {A : Type} (key : A -> Z) (x : A) (l : list A) : list A :=
  match l with
  | [] => [x]
  | y :: rest =>
      if (key y <? key x)%Z then y :: insert_by key x rest else x :: l
  end.

Fixpoint py_sorted {A : Type} (key : A -> Z) (l : list A) : list A :=
  match l with
  | [] => []
  | x :: rest => insert_by key x (py_sorted key rest)
  end.

(* ===================================================================== *)
(** ** agents/mock_engine.py: the data                                    *)
(* ===================================================================== *)

Record Holding : Type := {
  h_instrument_code : option string;
  h_instrument_name : option string;
  h_sector_tag : option string;
  h_current_value : option Q;
  h_allocation_pct : option Q
}.

Record Client : Type := {
  c_client_id : option string;
  c_name : option string;
  c_risk_profile : option string;
  c_strategy_type : option string;
  c_total_aum : option Q
}.

(** A directive; [d_magnitude] is [None] both for the absent key and for
    the value [None] the parser stores when the text names no percentage. *)
Record Directive : Type := {
  d_id : option string;
  d_action : option string;
  d_target_type : option string;
  d_target : option string;
  d_magnitude : option string;
  d_applies_to : option string;
  d_rationale : option string
}.

(** An entry of [technical_signals], keyed by instrument code. *)
Record TechSignal : Type := {
  ts_composite_score : option Q;
  ts_signal : option string
}.

(** The empty dictionary that [technical_signals.get(code, {})] falls back to. *)
Definition no_tech : TechSignal :=
  {| ts_composite_score := None; ts_signal := None |}.

(** An entry of [sector_signals]. *)
Record SectorSignal : Type := {
  ss_sector : option string;
  ss_composite_score : option Q;
  ss_signal : option string
}.

Definition no_sector_tech : SectorSignal :=
  {| ss_sector := None; ss_composite_score := None; ss_signal := None |}.

(** A recommendation.  The two free-text entries ([reasoning] and
    [expected_impact]) are left out: they are formatted from the other
    entries and nothing reads them back. *)
Record Recommendation : Type := {
  rec_id : string;
  priority : string;
  action : string;
  instrument : string;
  instrument_code : string;
  sector : string;
  amount : Z;
  target_instrument : option string;
  fm_directive_ref : option string;
  technical_score : Q;
  technical_signal : string;
  confidence : Z;
  allocation_before_pct : Q;
  allocation_after_pct : Q
}.

Record ClientSummary : Type := {
  cs_client_id : option string;
  cs_name : option string;
  cs_risk_profile : option string;
  cs_total_aum : Q;
  cs_portfolio_health : string
}.

Record Output : Type := {
  client_summary : ClientSummary;
  recommendations : list Recommendation;
  sector_allocation_after : gmap string Q;
  risk_assessment : string;
  alerts : list string;
  generated_at : string;
  mode : string
}.

(* ===================================================================== *)
(** ** mock_generate_recommendations                                      *)
(* ===================================================================== *)

(** The two variables the loops update: the list built so far and the
    counter the identifiers come from. *)
Definition GenState : Type := list Recommendation * nat.

(** [rec_count += 1] followed by [recommendations.append(...)], the
    identifier being formatted from the new count. *)
Definition emit (mk : string -> Recommendation) (st : GenState) : GenState :=
  let rec_count := S (snd st) in
  (app (fst st) [mk ("REC-" ++ format_03d rec_count)], rec_count).

Section MockEngine.
Local Open Scope Q_scope.

Variable fm_directives : list Directive.
Variable technical_signals : gmap string TechSignal.
Variable sector_signals : list SectorSignal.
Variable client : Client.
Variable holdings : list Holding.

Definition aum : Q := default 0 (c_total_aum client).
Definition risk : string := default "MODERATE" (c_risk_profile client).

(** Lines 156-159. *)
Definition sector_alloc : gmap string Q :=
  foldl (fun (m : gmap string Q) h =>
           let sector := default "OTHER" (h_sector_tag h) in
           <[sector := default 0 (m !! sector)
                       + default 0 (h_allocation_pct h)]> m)
        ∅ holdings.

(** ["GOLD" in sector_alloc] *)
Definition has_sector (name : string) : bool :=
  match sector_alloc !! name with Some _ => true | None => false end.

(** Lines 170-179: the directive is passed over when one of the five
    tests holds. *)
Definition skipped (directive : Directive) : bool :=
  let applies_to := default "ALL_CLIENTS" (d_applies_to directive) in
  (String.eqb applies_to "MOMENTUM_STRATEGY"
     && negb (get_is (c_strategy_type client) "MOMENTUM"))
  || (String.eqb applies_to "CONSERVATIVE_CLIENTS"
        && negb (String.eqb risk "CONSERVATIVE"))
  || (String.eqb applies_to "AGGRESSIVE_CLIENTS"
        && negb (String.eqb risk "AGGRESSIVE"))
  || (String.eqb applies_to "CLIENTS_WITHOUT_GOLD" && has_sector "GOLD")
  || (String.eqb applies_to "CLIENTS_WITH_GOLD" && negb (has_sector "GOLD")).

(** Lines 183-189, for one holding. *)
Definition matches (directive : Directive) (h : Holding) : bool :=
  let target := default "" (d_target directive) in
  let target_type := default "" (d_target_type directive) in
  if String.eqb target_type "SECTOR"
     && String.eqb (upper (default "" (h_sector_tag h))) (upper target)
  then true
  else if String.eqb target_type "STOCK"
          && contains (upper target) (upper (default "" (h_instrument_code h)))
  then true
  else String.eqb target_type "ASSET_CLASS"
       && String.eqb (upper (default "" (h_sector_tag h))) (upper target).

Definition matching_holdings (directive : Directive) : list Holding :=
  List.filter (matches directive) holdings.

(** Lines 195-200: the percentage of a reduction. *)
Definition reduce_pct (magnitude : option string) : Z :=
  let pct := 50%Z in
  match magnitude with
  | Some m =>
      if str_truthy m
      then match py_int (str_replace "%" "" m) with
           | Some n => n
           | None => 50%Z
           end
      else pct
  | None => pct
  end.

(** Lines 273-278: the target percentage of a gold allocation. *)
Definition gold_target_pct (magnitude : option string) : Z :=
  let target_pct := 20%Z in
  match magnitude with
  | Some m =>
      if str_truthy m
      then match py_int (str_replace "TO_" "" (str_replace "%" "" m)) with
           | Some n => n
           | None => 20%Z
           end
      else target_pct
  | None => target_pct
  end.

(** [technical_signals.get(h.get("instrument_code", ""), {})] *)
Definition tech_of (h : Holding) : TechSignal :=
  default no_tech (technical_signals !! default "" (h_instrument_code h)).

(** Lines 194-237, for one matching holding. *)
Definition reduce_rec (directive : Directive) (h : Holding) (id : string)
  : Recommendation :=
  let pct := reduce_pct (d_magnitude directive) in
  let amount :=
    py_round0 (default 0 (h_current_value h) * inject_Z pct / 100) in
  let tech := tech_of h in
  let tech_score := default 0 (ts_composite_score tech) in
  let tech_signal := default "N/A" (ts_signal tech) in
  let confidence :=
    if Qlt_bool tech_score (-20) then 85%Z
    else if Qlt_bool tech_score 0 then 70%Z
    else 50%Z in
  let alloc_before := default 0 (h_allocation_pct h) in
  let alloc_after := py_round (alloc_before * (1 - inject_Z pct / 100)) 1 in
  {| rec_id := id;
     priority := if (70 <? confidence)%Z then "HIGH" else "MEDIUM";
     action := "REDEEM";
     instrument := default "" (h_instrument_name h);
     instrument_code := default "" (h_instrument_code h);
     sector := default "" (h_sector_tag h);
     amount := amount;
     target_instrument := None;
     fm_directive_ref := d_id directive;
     technical_score := tech_score;
     technical_signal := tech_signal;
     confidence := confidence;
     allocation_before_pct := alloc_before;
     allocation_after_pct := alloc_after |}.

(** Line 246: the first sector signal whose name is the target. *)
Definition sector_tech_of (target : string) : SectorSignal :=
  default no_sector_tech
    (List.find (fun s => String.eqb (upper (default "" (ss_sector s)))
                                    (upper target))
               sector_signals).

(** Lines 243-268. *)
Definition increase_exposure_rec (directive : Directive) (id : string)
  : Recommendation :=
  let target := default "" (d_target directive) in
  let current_exposure := default 0 (sector_alloc !! upper target) in
  let amount := py_round0 (aum * (5 # 100)) in
  let sector_tech := sector_tech_of target in
  let tech_score := default 0 (ss_composite_score sector_tech) in
  let confidence := if Qlt_bool 20 tech_score then 75%Z else 55%Z in
  {| rec_id := id;
     priority := if (70 <? confidence)%Z then "HIGH" else "MEDIUM";
     action := "INVEST";
     instrument := "Recommended " ++ target ++ " sector fund";
     instrument_code := "";
     sector := upper target;
     amount := amount;
     target_instrument := None;
     fm_directive_ref := d_id directive;
     technical_score := tech_score;
     technical_signal := default "N/A" (ss_signal sector_tech);
     confidence := confidence;
     allocation_before_pct := current_exposure;
     allocation_after_pct := py_round (current_exposure + 5) 1 |}.

(** Lines 272-301. *)
Definition gold_rec (directive : Directive) (id : string) : Recommendation :=
  let target_pct := gold_target_pct (d_magnitude directive) in
  let current_gold := default 0 (sector_alloc !! "GOLD") in
  let add_pct := inject_Z target_pct - current_gold in
  let amount := py_round0 (aum * add_pct / 100) in
  {| rec_id := id;
     priority := "HIGH";
     action := "INVEST";
     instrument := "Gold ETF / Gold Fund";
     instrument_code := "NSE:GOLDBEES";
     sector := "GOLD";
     amount := amount;
     target_instrument := Some "Nippon India Gold BeES / SBI Gold Fund";
     fm_directive_ref := d_id directive;
     technical_score := 0;
     technical_signal := "N/A";
     confidence := 70%Z;
     allocation_before_pct := current_gold;
     allocation_after_pct := inject_Z target_pct |}.

(** Lines 305-323, for one matching holding. *)
Definition hold_rec (directive : Directive) (h : Holding) (id : string)
  : Recommendation :=
  {| rec_id := id;
     priority := "LOW";
     action := "HOLD";
     instrument := default "" (h_instrument_name h);
     instrument_code := default "" (h_instrument_code h);
     sector := default "" (h_sector_tag h);
     amount := 0%Z;
     target_instrument := None;
     fm_directive_ref := d_id directive;
     technical_score := default 0 (ts_composite_score (tech_of h));
     technical_signal := default "N/A" (ts_signal (tech_of h));
     confidence := 60%Z;
     allocation_before_pct := default 0 (h_allocation_pct h);
     allocation_after_pct := default 0 (h_allocation_pct h) |}.

(** Lines 192-323: the chain of [if]/[elif] on the action. *)
Definition apply_action (directive : Directive) (st : GenState) : GenState :=
  let action := default "" (d_action directive) in
  let target := default "" (d_target directive) in
  let target_type := default "" (d_target_type directive) in
  let matching := matching_holdings directive in
  if String.eqb action "REDUCE_EXPOSURE"
     && match matching with [] => false | _ => true end
  then foldl (fun st h => emit (reduce_rec directive h) st) st matching
  else if String.eqb action "INCREASE_EXPOSURE"
          && String.eqb target_type "SECTOR"
  then
    if Qlt_bool (default 0 (sector_alloc !! upper target)) 15
    then emit (increase_exposure_rec directive) st
    else st
  else if String.eqb action "INCREASE_ALLOCATION" && String.eqb target "GOLD"
  then
    if negb (has_sector "GOLD")
       || Qlt_bool (default 0 (sector_alloc !! "GOLD")) 15
    then emit (gold_rec directive) st
    else st
  else if String.eqb action "HOLD"
  then foldl (fun st h => emit (hold_rec directive h) st) st matching
  else st.

(** Lines 162-323, one turn of the loop over the directives. *)
Definition process_directive (st : GenState) (directive : Directive)
  : GenState :=
  if skipped directive then st else apply_action directive st.

(** [tech.get("signal") in ["STRONG_SELL", "STRONG_BUY"]] *)
Definition extreme_signal (tech : TechSignal) : bool :=
  get_is (ts_signal tech) "STRONG_SELL" || get_is (ts_signal tech) "STRONG_BUY".

(** Lines 334-351. *)
Definition coverage_rec (h : Holding) (id : string) : Recommendation :=
  let code := default "" (h_instrument_code h) in
  let tech := default no_tech (technical_signals !! code) in
  {| rec_id := id;
     priority := "MEDIUM";
     action :=
       if get_is (ts_signal tech) "STRONG_SELL" then "REVIEW" else "ACCUMULATE";
     instrument := default "" (h_instrument_name h);
     instrument_code := code;
     sector := default "" (h_sector_tag h);
     amount := 0%Z;
     target_instrument := None;
     fm_directive_ref := None;
     technical_score := default 0 (ts_composite_score tech);
     (* [tech.get("signal")]: one of the two labels tested at line 329 *)
     technical_signal := default "" (ts_signal tech);
     confidence := 45%Z;
     allocation_before_pct := default 0 (h_allocation_pct h);
     allocation_after_pct := default 0 (h_allocation_pct h) |}.

(** [any(r.get("instrument_code") == code for r in recommendations)] *)
Definition covered (code : string) (recs : list Recommendation) : bool :=
  existsb (fun r => String.eqb (instrument_code r) code) recs.

(** Lines 326-351, one turn of the loop over the holdings. *)
Definition coverage_step (st : GenState) (h : Holding) : GenState :=
  let code := default "" (h_instrument_code h) in
  let tech := default no_tech (technical_signals !! code) in
  if extreme_signal tech then
    if negb (covered code (fst st)) then emit (coverage_rec h) st else st
  else st.

(** The list after the loop over the directives. *)
Definition directive_pass : GenState :=
  foldl process_directive ([], 0%nat) fm_directives.

(** The list as it stands at line 353, in the order of generation. *)
Definition generated : list Recommendation :=
  fst (foldl coverage_step directive_pass holdings).

(** Lines 353-369.  [now] is what [datetime.now().isoformat()] answers. *)
Definition mock_generate_recommendations (now : string) : Output :=
  {| client_summary :=
       {| cs_client_id := c_client_id client;
          cs_name := c_name client;
          cs_risk_profile := c_risk_profile client;
          cs_total_aum := default 0 (c_total_aum client);
          cs_portfolio_health :=
            match generated with
            | [] => "GOOD"
            | _ => "NEEDS_REBALANCING"
            end |};
     recommendations := py_sorted (fun x => (- confidence x)%Z) generated;
     sector_allocation_after := sector_alloc;
     risk_assessment :=
       format_nat (length generated) ++ " actions recommended for "
       ++ default "None" (c_name client);
     alerts := [];
     generated_at := now;
     mode := "MOCK" |}.

End MockEngine.

(* ===================================================================== *)
(** ** Portfolios for the examples                                        *)
(* ===================================================================== *)

Definition client_moderate : Client :=
  {| c_client_id := Some "JHV-001"; c_name := Some "A. Shah";
     c_risk_profile := Some "MODERATE"; c_strategy_type := Some "GROWTH";
     c_total_aum := Some 5000000%Q |}.

(** A client whose assets are forty rupees. *)
Definition client_small : Client :=
  {| c_client_id := Some "JHV-002"; c_name := Some "B. Mehta";
     c_risk_profile := Some "MODERATE"; c_strategy_type := Some "GROWTH";
     c_total_aum := Some 40%Q |}.

Definition holding_tcs : Holding :=
  {| h_instrument_code := Some "NSE:TCS"; h_instrument_name := Some "TCS";
     h_sector_tag := Some "IT"; h_current_value := Some 100001%Q;
     h_allocation_pct := Some (1025 # 100)%Q |}.

Definition holding_infy : Holding :=
  {| h_instrument_code := Some "NSE:INFY"; h_instrument_name := Some "Infosys";
     h_sector_tag := Some "IT"; h_current_value := Some 100000%Q;
     h_allocation_pct := Some 10%Q |}.

Definition holding_sunpharma : Holding :=
  {| h_instrument_code := Some "NSE:SUNPHARMA";
     h_instrument_name := Some "Sun Pharma";
     h_sector_tag := Some "PHARMA"; h_current_value := Some 250000%Q;
     h_allocation_pct := Some 5%Q |}.

Definition holding_gold : Holding :=
  {| h_instrument_code := Some "NSE:GOLDBEES";
     h_instrument_name := Some "Gold BeES";
     h_sector_tag := Some "GOLD"; h_current_value := Some 4%Q;
     h_allocation_pct := Some 10%Q |}.

Definition signals_example : gmap string TechSignal :=
  <["NSE:TCS" := {| ts_composite_score := Some (-25)%Q;
                    ts_signal := Some "SELL" |}]>
  (<["NSE:INFY" := {| ts_composite_score := Some (-25)%Q;
                      ts_signal := Some "SELL" |}]>
  (<["NSE:SUNPHARMA" := {| ts_composite_score := Some 65%Q;
                           ts_signal := Some "STRONG_BUY" |}]> ∅)).

Definition directive_reduce_it : Directive :=
  {| d_id := Some "DIR-001"; d_action := Some "REDUCE_EXPOSURE";
     d_target_type := Some "SECTOR"; d_target := Some "IT";
     d_magnitude := Some "50%"; d_applies_to := Some "ALL_CLIENTS";
     d_rationale := Some "IT is in a lull" |}.

Definition directive_gold (magnitude : string) : Directive :=
  {| d_id := Some "DIR-002"; d_action := Some "INCREASE_ALLOCATION";
     d_target_type := Some "ASSET_CLASS"; d_target := Some "GOLD";
     d_magnitude := Some magnitude; d_applies_to := Some "ALL_CLIENTS";
     d_rationale := Some "Gold is entering a long-term uptrend" |}.

(** The time of the example runs. *)
Definition example_now : string := "2024-06-03T09:15:00".

(* ===================================================================== *)
(** ** Predicates of the statements and proofs                            *)
(* ===================================================================== *)

(** A rational that is an integer. *)
Definition Qis_int (q : Q) : Prop := exists z : Z, (q == inject_Z z)%Q.

(** A cell is "not zero" when it is absent or holds anything but 0. *)
Definition nonzero_cell (cell : option pyfloat) : Prop :=
  forall q, cell = Some (Fin q) -> ~ (q == 0)%Q.

(** The order of the keys, and the elements of one key in the order they
    have in the list. *)
Definition key_le {A : Type} (key : A -> Z) (a b : A) : Prop :=
  (key a <= key b)%Z.

Definition with_key {A : Type} (key : A -> Z) (k : Z) (l : list A) : list A :=
  List.filter (fun x => (key x =? k)%Z) l.

(** A loop turn only appends. *)
Definition extends (st st' : GenState) : Prop :=
  exists extra, fst st' = app (fst st) extra.

(** The identifiers of a list are the counter values 1, 2, ... in order. *)
Definition numbered (st : GenState) : Prop :=
  snd st = length (fst st) /\
  List.map rec_id (fst st)
    = List.map (fun n => "REC-" ++ format_03d n) (seq 1 (snd st)).

(* ===================================================================== *)
(** ** The other indicators of agents/technical_signals.py                *)
(* ===================================================================== *)

(** [x <= y] and [x >= y]; a comparison with NaN is false. *)
Definition fle (x y : pyfloat) : bool :=
  match x, y with
  | Fin a, Fin b => Qle_bool a b
  | NaN, _ | _, NaN => false
  | NInf, _ | _, PInf => true
  | _, _ => false
  end.

Definition fge (x y : pyfloat) : bool := fle y x.

(** [s.shift(1)]: NaN in front, the last value dropped. *)
Definition shift1 (xs : list pyfloat) : list pyfloat :=
  match xs with
  | [] => []
  | _ => NaN :: take (length xs - 1) xs
  end.

(** [result[mask] = label] *)
Definition assign_where (mask : list bool) (label : string)
    (result : list string) : list string :=
  zip_with (fun (m : bool) r => if m then label else r) mask result.

(** Lines 220-228 and 232-240: [_macd_crossover] and [_dma_cross] have one
    body and differ by their three labels.  The two series have the index
    of the frame, hence one length. *)
Definition crossings (none up down : string) (fast slow : list pyfloat)
  : list string :=
  let result := replicate (length fast) none in
  let prev_diff := shift1 (zip_with fsub fast slow) in
  let curr_diff := zip_with fsub fast slow in
  let result :=
    assign_where
      (zip_with (fun p c => flt p (Fin 0) && fgt c (Fin 0)) prev_diff curr_diff)
      up result in
  let result :=
    assign_where
      (zip_with (fun p c => fgt p (Fin 0) && flt c (Fin 0)) prev_diff curr_diff)
      down result in
  result.

Definition _macd_crossover (macd_line signal_line : list pyfloat)
  : list string :=
  crossings "NEUTRAL" "BULLISH" "BEARISH" macd_line signal_line.

Definition _dma_cross (sma_short sma_long : list pyfloat) : list string :=
  crossings "NONE" "GOLDEN_CROSS" "DEATH_CROSS" sma_short sma_long.

(** Lines 242-247. *)
Definition _bb_position (close upper lower : list pyfloat) : list string :=
  let result := replicate (length close) "MIDDLE" in
  let result := assign_where (zip_with fge close upper) "UPPER" result in
  let result := assign_where (zip_with fle close lower) "LOWER" result in
  result.

(** [series.ewm(span=span, adjust=False).mean()] on a series without NaN:
    the first value as it is, then [y = (1 - alpha) * y_prev + alpha * x]
    with [alpha = 2 / (span + 1)]. *)
Fixpoint ewm_from (alpha prev : Q) (rest : list Q) : list Q :=
  match rest with
  | [] => []
  | x :: rest' =>
      let y := ((1 - alpha) * prev + alpha * x)%Q in
      y :: ewm_from alpha y rest'
  end.

Definition ewm_mean (span : nat) (series : list Q) : list Q :=
  let alpha := (2 / (inject_Z (Z.of_nat span) + 1))%Q in
  match series with
  | [] => []
  | x0 :: rest => x0 :: ewm_from alpha x0 rest
  end.

(** Lines 209-216. *)
Definition _compute_macd (series : list Q) (fast slow signal : nat)
  : list Q * list Q * list Q :=
  let ema_fast := ewm_mean fast series in
  let ema_slow := ewm_mean slow series in
  let macd_line := zip_with Qminus ema_fast ema_slow in
  let signal_line := ewm_mean signal macd_line in
  let histogram := zip_with Qminus macd_line signal_line in
  (macd_line, signal_line, histogram).

(** Lines 281-291.  The two series have the index of the frame. *)
Definition _compute_obv (close volume : list Q) : list Q :=
  let obv := replicate (length close) 0%Q in
  foldl
    (fun (obv : list Q) (i : nat) =>
       let c := default 0%Q (close !! i) in
       let p := default 0%Q (close !! (i - 1)%nat) in
       let before := default 0%Q (obv !! (i - 1)%nat) in
       let v := default 0%Q (volume !! i) in
       if Qlt_bool p c then <[i := (before + v)%Q]> obv
       else if Qlt_bool c p then <[i := (before - v)%Q]> obv
       else <[i := before]> obv)
    obv (seq 1 (length close - 1)).

(** The label [crossings] gives a bar whose difference is [c], the
    difference of the bar before being [p]. *)
Definition crossing_label (none up down : string) (p c : pyfloat) : string :=
  if fgt p (Fin 0) && flt c (Fin 0) then down
  else if flt p (Fin 0) && fgt c (Fin 0) then up
  else none.

(* ===================================================================== *)
(** ** agents/technical_signals.py: the sector ranking                    *)
(* ===================================================================== *)

(** config/settings.py, lines 36-53, in the order of the dictionary. *)
Definition SECTOR_INDICES : list (string * string) :=
  [ ("NIFTY_50", "^NSEI");
    ("NIFTY_BANK", "^NSEBANK");
    ("NIFTY_IT", "^CNXIT");
    ("NIFTY_PHARMA", "^CNXPHARMA");
    ("NIFTY_AUTO", "NIFTY_AUTO.NS");
    ("NIFTY_FMCG", "^CNXFMCG");
    ("NIFTY_METAL", "^CNXMETAL");
    ("NIFTY_REALTY", "^CNXREALTY");
    ("NIFTY_ENERGY", "^CNXENERGY");
    ("NIFTY_INFRA", "^CNXINFRA");
    ("NIFTY_PSE", "^CNXPSE");
    ("NIFTY_MIDCAP_150", "NIFTY_MID_SELECT.NS");
    ("NIFTY_SMALLCAP_250", "^CNXSC");
    ("NIFTY_FINANCIAL", "NIFTY_FIN_SERVICE.NS");
    ("NIFTY_MEDIA", "^CNXMEDIA");
    ("NIFTY_CONSUMPTION", "^CNXCONSUM") ].

(** Lines 559-565.  [iloc[-1]] and [iloc[-periods - 1]] are within the
    frame once the test of line 561 has passed. *)
Definition _period_return (df : list PriceBar) (periods : nat) : pyfloat :=
  if (length df <? periods + 1)%nat then Fin 0
  else
    let current := default NaN (bar_close <$> last df) in
    let past :=
      default NaN (bar_close <$> df !! (length df - periods - 1)%nat) in
    fmul (fdiv (fsub current past) past) (Fin 100).

(** The dictionary of lines 537-545; [sr_scores] holds the entries of
    [**scores]. *)
Record SectorResult : Type := {
  sr_sector : string;
  sr_symbol : string;
  rs_1w : pyfloat;
  rs_1m : pyfloat;
  rs_3m : pyfloat;
  sr_rsi : option pyfloat;
  sr_trend : string;
  sr_scores : Scores
}.

(** [l.sort(key=key, reverse=True)]: descending, and equal keys keep their
    order. *)
Fixpoint insert_desc {A : Type} (key : A -> Q) (x : A) (l : list A) : list A :=
  match l with
  | [] => [x]
  | y :: rest =>
      if Qlt_bool (key x) (key y) then y :: insert_desc key x rest else x :: l
  end.

Fixpoint sort_desc {A : Type} (key : A -> Q) (l : list A) : list A :=
  match l with
  | [] => []
  | x :: rest => insert_desc key x (sort_desc key rest)
  end.

Section SectorAnalysis.

Variable fetch_price_data : string -> list PriceBar.
Variable indicator_columns : list PriceBar -> list Row.

(** Lines 517-548, one turn of the loop: [None] when the turn appends
    nothing.  An [IndexError] of [df.iloc[-1]] is caught at line 547. *)
Definition analyze_sector (nifty_data : list PriceBar)
    (entry : string * string) : option SectorResult :=
  let '(sector, symbol) := entry in
  if String.eqb sector "NIFTY_50" then None
  else
    let df := fetch_price_data symbol in
    if (length df =? 0)%nat then None
    else
      let rs (periods : nat) :=
        fround (fsub (_period_return df periods)
                     (_period_return nifty_data periods)) 2 in
      match last (compute_all_indicators indicator_columns df) with
      | None => None
      | Some latest =>
          Some {| sr_sector := str_replace "NIFTY_" "" sector;
                  sr_symbol := symbol;
                  rs_1w := rs 5%nat;
                  rs_1m := rs 22%nat;
                  rs_3m := rs 66%nat;
                  sr_rsi :=
                    round_unless_nan (default (Fin 0) (rsi_14 latest)) 1;
                  sr_trend := default "" (price_vs_200dma latest);
                  sr_scores := compute_composite_score latest |}
      end.

(** Lines 501-557. *)
Definition analyze_sector_indices : list SectorResult :=
  let nifty_data := fetch_price_data "^NSEI" in
  if (length nifty_data =? 0)%nat then []
  else
    let results :=
      foldl (fun results entry =>
               match analyze_sector nifty_data entry with
               | Some r => app results [r]
               | None => results
               end)
            [] SECTOR_INDICES in
    sort_desc (fun x => composite_score (sr_scores x)) results.

End SectorAnalysis.

(** A sector result as [mock_generate_recommendations] reads it. *)
Definition as_sector_signal (r : SectorResult) : SectorSignal :=
  {| ss_sector := Some (sr_sector r);
     ss_composite_score := Some (composite_score (sr_scores r));
     ss_signal := Some (signal (sr_scores r)) |}.

(** The names [analyze_sector_indices] can file a sector under. *)
Definition sector_names : list string :=
  (fun entry => str_replace "NIFTY_" "" (fst entry)) <$> tail SECTOR_INDICES.

(* ===================================================================== *)
(** ** agents/maestro.py: instrument codes and market symbols             *)
(* ===================================================================== *)

(** Line 74: the market symbol of an instrument code. *)
Definition symbol_of_code (code : string) : string :=
  str_replace "NSE:" "" code ++ ".NS".

(** Line 153: the instrument code a signal is filed under. *)
Definition code_of_symbol (symbol : string) : string :=
  "NSE:" ++ str_replace ".NS" "" symbol.

(** Lines 67-76.  The result is built as a set; the order of the list made
    from it is not fixed by the language, so the set is the result. *)
Definition get_unique_instruments (holdings : list Holding) : gset string :=
  foldl (fun (instruments : gset string) h =>
           let code := default "" (h_instrument_code h) in
           if String.prefix "NSE:" code
           then instruments ∪ {[ symbol_of_code code ]}
           else instruments)
        ∅ holdings.

(** The most bullish and the most bearish readings of every column. *)
Definition row_most_bullish : Row :=
  indicator_row "ABOVE" "GOLDEN_CROSS" (Fin 40) (Fin 25) "BULLISH" (Fin 10)
    "SURGE" "RISING" "LOWER" (Fin (-1)) (Fin 50).

Definition row_most_bearish : Row :=
  indicator_row "BELOW" "DEATH_CROSS" (Fin 40) (Fin 80) "BEARISH" (Fin 90)
    "SURGE" "FALLING" "UPPER" (Fin (-40)) (Fin 3).

(* ===================================================================== *)
(** ** Further data for the examples                                      *)
(* ===================================================================== *)

Definition directive_increase_energy : Directive :=
  {| d_id := Some "DIR-003"; d_action := Some "INCREASE_EXPOSURE";
     d_target_type := Some "SECTOR"; d_target := Some "ENERGY";
     d_magnitude := None; d_applies_to := Some "ALL_CLIENTS";
     d_rationale := Some "Energy is in a structural uptrend" |}.

Definition directive_increase_it : Directive :=
  {| d_id := Some "DIR-004"; d_action := Some "INCREASE_EXPOSURE";
     d_target_type := Some "SECTOR"; d_target := Some "IT";
     d_magnitude := None; d_applies_to := Some "ALL_CLIENTS";
     d_rationale := Some "Add to IT" |}.

Definition directive_hold_pharma : Directive :=
  {| d_id := Some "DIR-005"; d_action := Some "HOLD";
     d_target_type := Some "SECTOR"; d_target := Some "PHARMA";
     d_magnitude := None; d_applies_to := Some "ALL_CLIENTS";
     d_rationale := Some "Hold pharma" |}.

Definition directive_switch : Directive :=
  {| d_id := Some "DIR-006"; d_action := Some "SWITCH";
     d_target_type := Some "SECTOR"; d_target := Some "IT";
     d_magnitude := None; d_applies_to := Some "ALL_CLIENTS";
     d_rationale := Some "Move from IT to energy" |}.

(** The directive the parser makes of "tighten stop-losses to 5%". *)
Definition directive_stop_loss : Directive :=
  {| d_id := Some "DIR-007"; d_action := Some "HOLD";
     d_target_type := Some "PORTFOLIO"; d_target := Some "5";
     d_magnitude := Some "5%"; d_applies_to := Some "ALL_CLIENTS";
     d_rationale := Some "Tighten stop-losses to 5%" |}.

Definition directive_book_profits : Directive :=
  {| d_id := Some "DIR-008"; d_action := Some "BOOK_PROFITS";
     d_target_type := Some "STOCK"; d_target := None;
     d_magnitude := None; d_applies_to := Some "ALL_CLIENTS";
     d_rationale := Some "Book profits" |}.

(** A bar that closes at [c]. *)
Definition bar_closing (c : Q) : PriceBar :=
  {| bar_date := "2024-01-02"; bar_open := Fin c; bar_high := Fin c;
     bar_low := Fin c; bar_close := Fin c; bar_volume := Fin 1000 |}.

(** Closes of 100, 104 and 110. *)
Definition three_bar_history : list PriceBar :=
  [bar_closing 100; bar_closing 104; bar_closing 110].

(* ===================================================================== *)
(** ** Where a recommendation comes from                                  *)
(* ===================================================================== *)

Section Origin.
Local Open Scope Q_scope.

Variable technical_signals : gmap string TechSignal.
Variable sector_signals : list SectorSignal.
Variable client : Client.
Variable holdings : list Holding.

(** The four rules of lines 192-323, each with the tests that let it emit. *)
Inductive fired_by (d : Directive) (r : Recommendation) : Prop :=
| fired_reduce (h : Holding) (id : string) :
    default "" (d_action d) = "REDUCE_EXPOSURE" ->
    In h (matching_holdings holdings d) ->
    r = reduce_rec technical_signals d h id ->
    fired_by d r
| fired_increase (id : string) :
    default "" (d_action d) = "INCREASE_EXPOSURE" ->
    default "" (d_target_type d) = "SECTOR" ->
    default 0 (sector_alloc holdings !! upper (default "" (d_target d))) < 15 ->
    r = increase_exposure_rec sector_signals client holdings d id ->
    fired_by d r
| fired_gold (id : string) :
    default "" (d_action d) = "INCREASE_ALLOCATION" ->
    default "" (d_target d) = "GOLD" ->
    default 0 (sector_alloc holdings !! "GOLD") < 15 ->
    r = gold_rec client holdings d id ->
    fired_by d r
| fired_hold (h : Holding) (id : string) :
    default "" (d_action d) = "HOLD" ->
    In h (matching_holdings holdings d) ->
    r = hold_rec technical_signals d h id ->
    fired_by d r.

(** A recommendation of the coverage pass. *)
Definition from_coverage (r : Recommendation) : Prop :=
  exists h id,
    In h holdings /\
    extreme_signal
      (default no_tech (technical_signals !! default "" (h_instrument_code h)))
      = true /\
    r = coverage_rec technical_signals h id.

Definition rec_origin (directives : list Directive) (r : Recommendation)
  : Prop :=
  (exists d, In d directives /\ skipped client holdings d = false
             /\ fired_by d r)
  \/ from_coverage r.

End Origin.

(** The number that a decimal string writes; leading zeros do not count. *)
Definition read_decimal (s : string) : nat :=
  match NilEmpty.uint_of_string s with
  | Some d => Nat.of_uint d
  | None => 0%nat
  end.

(** The total allocation of the holdings filed under a sector. *)
Fixpoint sector_total (sector : string) (holdings : list Holding) : Q :=
  match holdings with
  | [] => 0%Q
  | h :: rest =>
      ((if String.eqb (default "OTHER" (h_sector_tag h)) sector
        then default 0 (h_allocation_pct h) else 0)
       + sector_total sector rest)%Q
  end.

(** The list is the list [pre] of the directive loop followed by coverage
    recommendations whose codes differ from one another and from every
    code of [pre]. *)
Definition coverage_tail (pre : list Recommendation) (st : GenState) : Prop :=
  exists cov,
    fst st = app pre cov /\
    List.NoDup (List.map instrument_code cov) /\
    Forall (fun c => (action c = "REVIEW" \/ action c = "ACCUMULATE")
                     /\ Forall (fun p => instrument_code c <> instrument_code p)
                          pre) cov.

(** A float that is finite with a value in [P], and one that is so or NaN. *)
Definition finite_in (P : Q -> Prop) (x : pyfloat) : Prop :=
  exists q, x = Fin q /\ P q.

Definition nan_or_in (P : Q -> Prop) (x : pyfloat) : Prop :=
  x = NaN \/ finite_in P x.

(* ===================================================================== *)
(** ** Further predicates of the statements                               *)
(* ===================================================================== *)

(** A value between two bounds. *)
Definition within (lo hi : Q) (x : Q) : Prop := (lo <= x <= hi)%Q.

(** The value the loop of [_compute_obv] writes at [i] when it finds
    [before] at [i - 1]. *)
Definition obv_next (close volume : list Q) (before : Q) (i : nat) : Q :=
  let c := default 0%Q (close !! i) in
  let p := default 0%Q (close !! (i - 1)%nat) in
  let v := default 0%Q (volume !! i) in
  if Qlt_bool p c then (before + v)%Q
  else if Qlt_bool c p then (before - v)%Q
  else before.

(** Every close of the frame is a positive finite number. *)
Definition positive_closes (df : list PriceBar) : Prop :=
  Forall (fun b => exists c, bar_close b = Fin c /\ (0 < c)%Q) df.

(* ===================================================================== *)
(** * Properties                                                          *)
(* ===================================================================== *)

(** Case analysis on every test of a conditional in the goal. *)
Ltac split_ifs :=
  repeat match goal with
         | |- context [if ?b then _ else _] => destruct b
         end.

(* ===================================================================== *)
(** ** Facts about the numbers                                            *)
(* ===================================================================== *)

Section NumberFacts.
Local Open Scope Q_scope.

Lemma Qlt_bool_iff (x y : Q) : Qlt_bool x y = true <-> x < y.
Proof.
  unfold Qlt_bool. rewrite negb_true_iff.
  split; intros H.
  - apply Qnot_le_lt. intros Hle. apply Qle_bool_iff in Hle. congruence.
  - destruct (Qle_bool y x) eqn:E; [|reflexivity].
    apply Qle_bool_iff in E. exfalso. exact (Qlt_not_le _ _ H E).
Qed.

Lemma Qlt_bool_false_iff (x y : Q) : Qlt_bool x y = false <-> y <= x.
Proof.
  unfold Qlt_bool. rewrite negb_false_iff. apply Qle_bool_iff.
Qed.

Lemma Qle_bool_false_iff (x y : Q) : Qle_bool x y = false <-> y < x.
Proof.
  split; intros H.
  - apply Qnot_le_lt. intros Hle. apply Qle_bool_iff in Hle. congruence.
  - destruct (Qle_bool x y) eqn:E; [|reflexivity].
    apply Qle_bool_iff in E. exfalso. exact (Qlt_not_le _ _ H E).
Qed.

Lemma clamp_bounds (x : Q) : -100 <= clamp x <= 100.
Proof.
  unfold clamp. split.
  - apply Q.le_max_l.
  - apply Q.max_lub; [discriminate | apply Q.le_min_l].
Qed.

Lemma clamp_id (x : Q) : -100 <= x <= 100 -> clamp x == x.
Proof.
  intros [Hl Hu]. unfold clamp.
  rewrite (Q.min_r 100 x) by exact Hu.
  apply Q.max_r. exact Hl.
Qed.

(** The floor of a rational lies within one unit below it. *)
Lemma Qfloor_bounds (q : Q) : inject_Z (Qfloor q) <= q < inject_Z (Qfloor q + 1).
Proof. split; [apply Qfloor_le | apply Qlt_floor]. Qed.

Lemma inject_Z_le_iff (a b : Z) : inject_Z a <= inject_Z b <-> (a <= b)%Z.
Proof. rewrite Zle_Qle. reflexivity. Qed.

Lemma inject_Z_lt_iff (a b : Z) : inject_Z a < inject_Z b <-> (a < b)%Z.
Proof. rewrite Zlt_Qlt. reflexivity. Qed.

(** Rounding never crosses an integer. *)
Lemma round_half_even_bounds (q : Q) (a b : Z) :
  inject_Z a <= q <= inject_Z b ->
  (a <= round_half_even q <= b)%Z.
Proof.
  intros [Ha Hb].
  destruct (Qfloor_bounds q) as [Hf1 Hf2].
  assert (Haf : (a <= Qfloor q)%Z).
  { apply Z.lt_succ_r. apply inject_Z_lt_iff.
    eapply Qle_lt_trans; [exact Ha|]. exact Hf2. }
  assert (Hfb : (Qfloor q <= b)%Z).
  { apply inject_Z_le_iff. eapply Qle_trans; [exact Hf1 | exact Hb]. }
  unfold round_half_even.
  destruct (Z.eq_dec (Qfloor q) b) as [E | NE].
  - assert (Hq : q - inject_Z (Qfloor q) <= 0).
    { rewrite E. lra. }
    assert (Hc : (q - inject_Z (Qfloor q) ?= 1 # 2) = Lt).
    { apply (proj1 (Qlt_alt _ _)). lra. }
    rewrite Hc. lia.
  - destruct (q - inject_Z (Qfloor q) ?= 1 # 2);
      [destruct (Z.even (Qfloor q))|..]; lia.
Qed.

(** An integer is its own rounding. *)
Lemma round_half_even_int (q : Q) (z : Z) :
  q == inject_Z z -> round_half_even q = z.
Proof.
  intros Hq.
  assert (Hf : Qfloor q = z).
  { rewrite Hq. apply Qfloor_Z. }
  unfold round_half_even. rewrite Hf.
  assert (Hc : (q - inject_Z z ?= 1 # 2) = Lt).
  { apply (proj1 (Qlt_alt _ _)). rewrite Hq. lra. }
  rewrite Hc. reflexivity.
Qed.

Lemma py_round_1_bounds (q : Q) :
  -100 <= q <= 100 -> -100 <= py_round q 1 <= 100.
Proof.
  intros [Hl Hu]. unfold py_round.
  change (inject_Z (10 ^ Z.of_nat 1)) with (inject_Z 10).
  assert (H : (-1000 <= round_half_even (q * inject_Z 10) <= 1000)%Z).
  { apply round_half_even_bounds.
    change (inject_Z (-1000)) with (-1000).
    change (inject_Z 1000) with 1000.
    change (inject_Z 10) with 10. lra. }
  destruct H as [H1 H2].
  apply inject_Z_le_iff in H1. apply inject_Z_le_iff in H2.
  change (inject_Z (-1000)) with (-1000) in H1.
  change (inject_Z 1000) with 1000 in H2.
  change (inject_Z 10) with 10 in *.
  set (r := inject_Z (round_half_even (q * 10))) in *.
  split.
  - apply Qle_shift_div_l; [reflexivity | lra].
  - apply Qle_shift_div_r; [reflexivity | lra].
Qed.

(** A multiple of one tenth is its own rounding to one decimal. *)
Lemma py_round_1_tenths (q : Q) (z : Z) :
  q * 10 == inject_Z z -> py_round q 1 == q.
Proof.
  intros Hq. unfold py_round.
  change (inject_Z (10 ^ Z.of_nat 1)) with 10.
  rewrite (round_half_even_int (q * 10) z Hq).
  rewrite <- Hq. field.
Qed.

Lemma round_half_even_nonpos (q : Q) :
  q <= 0 -> (round_half_even q <= 0)%Z.
Proof.
  intros H.
  apply (round_half_even_bounds q (Qfloor q) 0).
  split; [apply Qfloor_le | exact H].
Qed.

Lemma round_half_even_neg (q : Q) :
  q < - (1 # 2) -> (round_half_even q < 0)%Z.
Proof.
  intros H.
  destruct (Qfloor_bounds q) as [Hf1 Hf2].
  assert (Hf : (Qfloor q <= -1)%Z).
  { apply Z.lt_succ_r. apply inject_Z_lt_iff.
    eapply Qle_lt_trans; [exact Hf1|]. change (inject_Z (Z.succ (-1))) with 0.
    lra. }
  unfold round_half_even.
  destruct (Z.eq_dec (Qfloor q) (-1)%Z) as [E | NE].
  - assert (Hc : (q - inject_Z (Qfloor q) ?= 1 # 2) = Lt).
    { apply (proj1 (Qlt_alt _ _)). rewrite E.
      change (inject_Z (-1)) with (-1). lra. }
    rewrite Hc. lia.
  - destruct (q - inject_Z (Qfloor q) ?= 1 # 2);
      [destruct (Z.even (Qfloor q))|..]; lia.
Qed.

End NumberFacts.

(* ===================================================================== *)
(** ** The composite score                                                *)
(* ===================================================================== *)

Section CompositeScoreFacts.
Local Open Scope Q_scope.

Ltac closed_int :=
  match goal with
  | |- Qis_int ?q => exists (Qfloor q); vm_compute; reflexivity
  end.

Lemma score_trend_int (row : Row) : Qis_int (score_trend row).
Proof. unfold score_trend. split_ifs; closed_int. Qed.

Lemma score_momentum_int (row : Row) : Qis_int (score_momentum row).
Proof.
  unfold score_momentum, momentum_rsi, momentum_macd, momentum_stoch.
  split_ifs; closed_int.
Qed.

Lemma score_volume_int (row : Row) : Qis_int (score_volume row).
Proof. unfold score_volume. split_ifs; closed_int. Qed.

Lemma score_volatility_int (row : Row) : Qis_int (score_volatility row).
Proof. unfold score_volatility. split_ifs; closed_int. Qed.

Lemma score_relative_strength_int (row : Row) :
  Qis_int (score_relative_strength row).
Proof.
  unfold score_relative_strength, rs_high, rs_low. split_ifs; closed_int.
Qed.

(** With integer sub-scores the weighted sum is a multiple of 1/10. *)
Lemma weighted_sum_tenths (t m v w r : Q) :
  Qis_int t -> Qis_int m -> Qis_int v -> Qis_int w -> Qis_int r ->
  Qis_int (weighted_sum t m v w r * 10).
Proof.
  intros [zt Ht] [zm Hm] [zv Hv] [zw Hw] [zr Hr].
  exists (3 * zt + 3 * zm + 2 * zv + zw + zr)%Z.
  unfold weighted_sum, TC.weight_trend, TC.weight_momentum, TC.weight_volume,
    TC.weight_volatility, TC.weight_relative_strength.
  rewrite Ht, Hm, Hv, Hw, Hr.
  rewrite !inject_Z_plus, !inject_Z_mult.
  change (inject_Z 3) with 3. change (inject_Z 2) with 2.
  field.
Qed.

Lemma composite_is_weighted_sum (row : Row) :
  composite_score (compute_composite_score row) ==
  weighted_sum (score_trend row) (score_momentum row) (score_volume row)
    (score_volatility row) (score_relative_strength row).
Proof.
  cbn [compute_composite_score composite_score].
  destruct (weighted_sum_tenths _ _ _ _ _
              (score_trend_int row) (score_momentum_int row)
              (score_volume_int row) (score_volatility_int row)
              (score_relative_strength_int row)) as [z Hz].
  exact (py_round_1_tenths _ z Hz).
Qed.

Lemma weighted_sum_bounds (t m v w r : Q) :
  -100 <= t <= 100 -> -100 <= m <= 100 -> -100 <= v <= 100 ->
  -100 <= w <= 100 -> -100 <= r <= 100 ->
  -100 <= weighted_sum t m v w r <= 100.
Proof.
  intros Ht Hm Hv Hw Hr.
  unfold weighted_sum, TC.weight_trend, TC.weight_momentum, TC.weight_volume,
    TC.weight_volatility, TC.weight_relative_strength.
  lra.
Qed.

Lemma signal_of_step (c : Q) : signal_of c = signal_label (spec_signal_step c).
Proof.
  unfold signal_of, spec_signal_step, SIGNAL_THRESHOLDS.STRONG_BUY,
    SIGNAL_THRESHOLDS.BUY, SIGNAL_THRESHOLDS.HOLD_LOWER, SIGNAL_THRESHOLDS.SELL.
  split_ifs; reflexivity.
Qed.

Lemma spec_signal_step_proper (c c' : Q) :
  c == c' -> spec_signal_step c = spec_signal_step c'.
Proof.
  intros H. unfold spec_signal_step.
  assert (E : forall k, Qle_bool k c = Qle_bool k c').
  { intros k. rewrite H. reflexivity. }
  rewrite !E. reflexivity.
Qed.

Ltac order_facts :=
  repeat match goal with
         | H : Qle_bool _ _ = true |- _ => apply Qle_bool_iff in H
         | H : Qle_bool _ _ = false |- _ => apply Qle_bool_false_iff in H
         end.

Lemma spec_signal_step_bands (c : Q) :
  (60 <= c -> spec_signal_step c = STRONG_BUY) /\
  (20 <= c < 60 -> spec_signal_step c = BUY) /\
  (-20 <= c < 20 -> spec_signal_step c = HOLD) /\
  (-60 <= c < -20 -> spec_signal_step c = SELL) /\
  (c < -60 -> spec_signal_step c = STRONG_SELL).
Proof.
  unfold spec_signal_step.
  destruct (Qle_bool 60 c) eqn:E1; destruct (Qle_bool 20 c) eqn:E2;
    destruct (Qle_bool (-20) c) eqn:E3; destruct (Qle_bool (-60) c) eqn:E4;
    order_facts; repeat split; intros; try reflexivity; exfalso; lra.
Qed.

Lemma spec_signal_step_mono (c1 c2 : Q) :
  c1 <= c2 ->
  (signal_rank (spec_signal_step c1) <= signal_rank (spec_signal_step c2))%Z.
Proof.
  intros H. unfold spec_signal_step.
  destruct (Qle_bool 60 c1) eqn:A1; destruct (Qle_bool 20 c1) eqn:A2;
    destruct (Qle_bool (-20) c1) eqn:A3; destruct (Qle_bool (-60) c1) eqn:A4;
    destruct (Qle_bool 60 c2) eqn:B1; destruct (Qle_bool 20 c2) eqn:B2;
    destruct (Qle_bool (-20) c2) eqn:B3; destruct (Qle_bool (-60) c2) eqn:B4;
    cbn; try lia; exfalso; order_facts; lra.
Qed.

(** C1. For every input row, the five sub-scores returned by
    [compute_composite_score] lie in [-100,100], and so does the
    composite score, which is the weighted sum of the clamped sub-scores
    with weights 0.30, 0.30, 0.20, 0.10 and 0.10, summing to 1. *)
Theorem composite_scores_in_range (row : Row) :
  let s := compute_composite_score row in
  (-100 <= trend_score s <= 100) /\
  (-100 <= momentum_score s <= 100) /\
  (-100 <= volume_score s <= 100) /\
  (-100 <= volatility_score s <= 100) /\
  (-100 <= relative_strength_score s <= 100) /\
  (-100 <= composite_score s <= 100) /\
  composite_score s ==
    trend_score s * (30 # 100) + momentum_score s * (30 # 100)
    + volume_score s * (20 # 100) + volatility_score s * (10 # 100)
    + relative_strength_score s * (10 # 100) /\
  TC.weight_trend + TC.weight_momentum + TC.weight_volume
    + TC.weight_volatility + TC.weight_relative_strength == 1.
Proof.
  intros s.
  assert (Ht : -100 <= trend_score s <= 100) by apply clamp_bounds.
  assert (Hm : -100 <= momentum_score s <= 100) by apply clamp_bounds.
  assert (Hv : -100 <= volume_score s <= 100) by apply clamp_bounds.
  assert (Hw : -100 <= volatility_score s <= 100) by apply clamp_bounds.
  assert (Hr : -100 <= relative_strength_score s <= 100) by apply clamp_bounds.
  repeat split; try tauto.
  - apply py_round_1_bounds. apply weighted_sum_bounds; assumption.
  - apply py_round_1_bounds. apply weighted_sum_bounds; assumption.
  - apply composite_is_weighted_sum.
Qed.

(** The four thresholds are reached, and each belongs to the band above. *)
Lemma signal_at_the_thresholds :
  let at_60 := compute_composite_score row_at_60 in
  let at_20 := compute_composite_score row_at_20 in
  let at_minus_20 := compute_composite_score row_at_minus_20 in
  let at_minus_60 := compute_composite_score row_at_minus_60 in
  ((composite_score at_60 == 60) /\ signal at_60 = "STRONG_BUY") /\
  ((composite_score at_20 == 20) /\ signal at_20 = "BUY") /\
  ((composite_score at_minus_20 == -20) /\ signal at_minus_20 = "HOLD") /\
  ((composite_score at_minus_60 == -60) /\ signal at_minus_60 = "SELL").
Proof. repeat split; vm_compute; reflexivity. Qed.

(** C2. For every input row the signal label is the fixed step function
    of the composite score: at least 60 gives STRONG_BUY, at least 20
    BUY, at least -20 HOLD, at least -60 SELL, anything lower
    STRONG_SELL; each band includes its lower boundary, and the label
    never decreases when the composite score grows. *)
Theorem signal_is_step_of_composite :
  (forall row : Row,
      let s := compute_composite_score row in
      signal s = signal_label (spec_signal_step (composite_score s))) /\
  (forall c : Q,
      (60 <= c -> spec_signal_step c = STRONG_BUY) /\
      (20 <= c < 60 -> spec_signal_step c = BUY) /\
      (-20 <= c < 20 -> spec_signal_step c = HOLD) /\
      (-60 <= c < -20 -> spec_signal_step c = SELL) /\
      (c < -60 -> spec_signal_step c = STRONG_SELL)) /\
  (spec_signal_step 60 = STRONG_BUY /\ spec_signal_step 20 = BUY /\
   spec_signal_step (-20) = HOLD /\ spec_signal_step (-60) = SELL) /\
  (forall c1 c2 : Q,
      c1 <= c2 ->
      (signal_rank (spec_signal_step c1) <= signal_rank (spec_signal_step c2))%Z).
Proof.
  split; [|split; [|split]].
  - intros row s. subst s.
    rewrite (spec_signal_step_proper _ _ (composite_is_weighted_sum row)).
    apply signal_of_step.
  - apply spec_signal_step_bands.
  - repeat split; reflexivity.
  - apply spec_signal_step_mono.
Qed.

Lemma nonzero_cell_truthy (cell : option pyfloat) (d : Q) :
  nonzero_cell cell -> ~ d == 0 -> truthy (default (Fin d) cell) = true.
Proof.
  intros H Hd. destruct cell as [[| | |q]|]; cbn; try reflexivity.
  - apply negb_true_iff. destruct (Qeq_bool q 0) eqn:E; [|reflexivity].
    apply Qeq_bool_iff in E. exfalso. exact (H q eq_refl E).
  - apply negb_true_iff. destruct (Qeq_bool d 0) eqn:E; [|reflexivity].
    apply Qeq_bool_iff in E. contradiction.
Qed.

Ltac closed_eq := vm_compute; reflexivity.

(** Away from an RSI or a stochastic RSI of exactly 0 the momentum
    sub-score is the clamped sum the specification describes. *)
Lemma score_momentum_spec (row : Row) :
  nonzero_cell (rsi_14 row) -> nonzero_cell (stoch_rsi row) ->
  score_momentum row == spec_momentum row.
Proof.
  intros Hr Hs.
  assert (H50 : ~ 50 == 0) by discriminate.
  pose proof (nonzero_cell_truthy _ 50 Hr H50) as Tr.
  pose proof (nonzero_cell_truthy _ 50 Hs H50) as Ts.
  unfold score_momentum, spec_momentum, momentum_rsi, momentum_stoch,
    spec_momentum_rsi, spec_momentum_stoch, momentum_macd,
    TC.rsi_oversold, TC.rsi_overbought, TC.stoch_rsi_oversold,
    TC.stoch_rsi_overbought.
  rewrite Tr, Ts. cbn [andb].
  destruct (default (Fin 50) (rsi_14 row)) as [| | |r];
    destruct (default (Fin 50) (stoch_rsi row)) as [| | |st];
    cbn [isnan negb flt fgt]; split_ifs; closed_eq.
Qed.

(** Away from a distance of exactly 0 the relative-strength sub-score is
    the clamped sum the specification describes. *)
Lemma score_relative_strength_spec (row : Row) :
  nonzero_cell (pct_from_52w_high row) ->
  nonzero_cell (pct_from_52w_low row) ->
  score_relative_strength row == spec_relative_strength row.
Proof.
  intros Hh Hl.
  unfold score_relative_strength, spec_relative_strength, rs_high, rs_low,
    spec_rs_high, spec_rs_low, nonzero_cell in *.
  destruct (pct_from_52w_high row) as [[| | |h]|];
    destruct (pct_from_52w_low row) as [[| | |l]|];
    cbn [default from_option id truthy isnan negb andb flt fgt];
    repeat match goal with
           | |- context [Qeq_bool ?q 0] =>
               let E := fresh "E" in
               destruct (Qeq_bool q 0) eqn:E;
               [apply Qeq_bool_iff in E; exfalso;
                first [exact (Hh _ eq_refl E) | exact (Hl _ eq_refl E)] |]
           end;
    cbn [negb andb];
    repeat match goal with
           | |- context [Qlt_bool ?a ?b] =>
               let E := fresh "E" in
               destruct (Qlt_bool a b) eqn:E
           end;
    try closed_eq;
    exfalso;
    repeat match goal with
           | H : Qlt_bool _ _ = true |- _ => apply Qlt_bool_iff in H
           | H : Qlt_bool _ _ = false |- _ => apply Qlt_bool_false_iff in H
           end; lra.
Qed.

(** C8, at an RSI of 0 and at a stochastic RSI of 0.  Both values are
    inside the oversold zone, so the specification adds 40 and 25; the
    guard [if rsi and not np.isnan(rsi)] treats the number 0 as a missing
    value and the source adds nothing. *)
Theorem momentum_ignores_zero_oscillators :
  ((flt (Fin 0) (Fin TC.rsi_oversold) = true) /\
   (momentum_score (compute_composite_score row_rsi_zero) == 0) /\
   (spec_momentum row_rsi_zero == 40)) /\
  ((flt (Fin 0) (Fin TC.stoch_rsi_oversold) = true) /\
   (momentum_score (compute_composite_score row_stoch_zero) == 0) /\
   (spec_momentum row_stoch_zero == 25)).
Proof. repeat split; vm_compute; reflexivity. Qed.

(** C9, at a close exactly at the 52-week high and at a close exactly at
    the 52-week low.  The specification adds 40 at the high and subtracts
    20 at the low; the guard [if pct_52h and not np.isnan(pct_52h)] treats
    the distance 0 as a missing value and the source adds nothing. *)
Theorem relative_strength_ignores_zero_distance :
  ((fgt (Fin 0) (Fin (-5)) = true) /\
   (relative_strength_score (compute_composite_score row_at_52w_high) == 0) /\
   (spec_relative_strength row_at_52w_high == 40)) /\
  ((flt (Fin 0) (Fin 5) = true) /\
   (relative_strength_score (compute_composite_score row_at_52w_low) == -30) /\
   (spec_relative_strength row_at_52w_low == -50)).
Proof. repeat split; vm_compute; reflexivity. Qed.

End CompositeScoreFacts.

(* ===================================================================== *)
(** ** The rational composite against binary64                            *)
(* ===================================================================== *)

Section Binary64Facts.
Local Open Scope Q_scope.

Lemma Qis_int_floor (q : Q) : Qis_int q -> q == inject_Z (Qfloor q).
Proof.
  intros [z Hz]. rewrite Hz at 2. rewrite Qfloor_Z. exact Hz.
Qed.

Ltac closed_member := vm_compute; reflexivity.

Lemma score_trend_value (row : Row) :
  existsb (Z.eqb (Qfloor (score_trend row))) trend_values = true.
Proof. unfold score_trend. split_ifs; closed_member. Qed.

Lemma score_momentum_value (row : Row) :
  existsb (Z.eqb (Qfloor (score_momentum row))) momentum_values = true.
Proof.
  unfold score_momentum, momentum_rsi, momentum_macd, momentum_stoch.
  split_ifs; closed_member.
Qed.

Lemma score_volume_value (row : Row) :
  existsb (Z.eqb (Qfloor (score_volume row))) volume_values = true.
Proof. unfold score_volume. split_ifs; closed_member. Qed.

Lemma score_volatility_value (row : Row) :
  existsb (Z.eqb (Qfloor (score_volatility row))) volatility_values = true.
Proof. unfold score_volatility. split_ifs; closed_member. Qed.

Lemma score_relative_strength_value (row : Row) :
  existsb (Z.eqb (Qfloor (score_relative_strength row)))
    relative_strength_values = true.
Proof.
  unfold score_relative_strength, rs_high, rs_low. split_ifs; closed_member.
Qed.

Lemma member_In (z : Z) (l : list Z) : existsb (Z.eqb z) l = true -> In z l.
Proof.
  intros H. apply existsb_exists in H. destruct H as (x & Hx & E).
  apply Z.eqb_eq in E. subst x. exact Hx.
Qed.

(** Every combination of sub-score values, by evaluation. *)
Lemma binary64_agrees_on_values :
  forallb (fun t =>
  forallb (fun m =>
  forallb (fun v =>
  forallb (fun w =>
  forallb (fun r => binary64_agrees t m v w r)
    relative_strength_values) volatility_values) volume_values)
    momentum_values) trend_values = true.
Proof. vm_compute. reflexivity. Qed.

Lemma binary64_agrees_row (row : Row) :
  binary64_agrees (Qfloor (score_trend row)) (Qfloor (score_momentum row))
    (Qfloor (score_volume row)) (Qfloor (score_volatility row))
    (Qfloor (score_relative_strength row)) = true.
Proof.
  pose proof binary64_agrees_on_values as H.
  rewrite List.forallb_forall in H.
  specialize (H _ (member_In _ _ (score_trend_value row))). cbv beta in H.
  rewrite List.forallb_forall in H.
  specialize (H _ (member_In _ _ (score_momentum_value row))). cbv beta in H.
  rewrite List.forallb_forall in H.
  specialize (H _ (member_In _ _ (score_volume_value row))). cbv beta in H.
  rewrite List.forallb_forall in H.
  specialize (H _ (member_In _ _ (score_volatility_value row))). cbv beta in H.
  rewrite List.forallb_forall in H.
  exact (H _ (member_In _ _ (score_relative_strength_value row))).
Qed.

Lemma weighted_sum_proper (t m v w r t' m' v' w' r' : Q) :
  t == t' -> m == m' -> v == v' -> w == w' -> r == r' ->
  weighted_sum t m v w r == weighted_sum t' m' v' w' r'.
Proof.
  intros Ht Hm Hv Hw Hr. unfold weighted_sum.
  rewrite Ht, Hm, Hv, Hw, Hr. reflexivity.
Qed.

(** What the interpreter computes for a row agrees with the rational
    model: with the sub-scores converted to binary64, the weighted sum of
    lines 428-434 carries no rounding error (its double is the integer
    twice the composite score), and the label of lines 438-448 is the
    label of the model. *)
Theorem composite_in_binary64 (row : Row) :
  let s := compute_composite_score row in
  let b64 q := Binary64.float_of_Z (Qfloor q) in
  let c :=
    Binary64.weighted_sum (b64 (trend_score s)) (b64 (momentum_score s))
      (b64 (volume_score s)) (b64 (volatility_score s))
      (b64 (relative_strength_score s)) in
  Binary64.signal_of c = signal s /\
  PrimFloat.eqb (PrimFloat.mul c (Binary64.float_of_Z 2))
    (Binary64.float_of_Z (Qfloor (2 * composite_score s))) = true.
Proof.
  cbn zeta.
  cbn [compute_composite_score trend_score momentum_score volume_score
       volatility_score relative_strength_score signal].
  pose proof (binary64_agrees_row row) as H.
  unfold binary64_agrees in H. cbv zeta in H.
  apply andb_true_iff in H. destruct H as [H Hlabel].
  apply andb_true_iff in H. destruct H as [_ Hsum].
  assert (E : weighted_sum (score_trend row) (score_momentum row)
                (score_volume row) (score_volatility row)
                (score_relative_strength row)
              == weighted_sum (inject_Z (Qfloor (score_trend row)))
                   (inject_Z (Qfloor (score_momentum row)))
                   (inject_Z (Qfloor (score_volume row)))
                   (inject_Z (Qfloor (score_volatility row)))
                   (inject_Z (Qfloor (score_relative_strength row)))).
  { apply weighted_sum_proper; apply Qis_int_floor.
    - apply score_trend_int.
    - apply score_momentum_int.
    - apply score_volume_int.
    - apply score_volatility_int.
    - apply score_relative_strength_int. }
  split.
  - apply String.eqb_eq in Hlabel. rewrite Hlabel.
    rewrite !signal_of_step. f_equal.
    apply spec_signal_step_proper. symmetry. exact E.
  - assert (F : Qfloor (2 * composite_score (compute_composite_score row))
                = Qfloor (2 * weighted_sum
                                (inject_Z (Qfloor (score_trend row)))
                                (inject_Z (Qfloor (score_momentum row)))
                                (inject_Z (Qfloor (score_volume row)))
                                (inject_Z (Qfloor (score_volatility row)))
                                (inject_Z (Qfloor (score_relative_strength row))))).
    { apply Qfloor_comp. rewrite composite_is_weighted_sum, E. reflexivity. }
    rewrite F. exact Hsum.
Qed.

End Binary64Facts.

(* ===================================================================== *)
(** ** The RSI at its two ends                                            *)
(* ===================================================================== *)

Section RsiFacts.
Local Open Scope Q_scope.

(** The RSI of a bar in terms of its two smoothed averages. *)
Lemma compute_rsi_lookup (series : list Q) (period i : nat) (g l : pyfloat) :
  (rsi_averages series period).1 !! i = Some g ->
  (rsi_averages series period).2 !! i = Some l ->
  _compute_rsi series period !! i = Some (rsi_of_rs (fdiv g l)).
Proof.
  unfold _compute_rsi.
  destruct (rsi_averages series period) as [avg_gain avg_loss]; cbn [fst snd].
  intros Hg Hl.
  rewrite list_lookup_fmap, lookup_zip_with, Hg, Hl. reflexivity.
Qed.

Lemma rsi_of_rs_no_loss (g l : Q) :
  l == 0 -> 0 < g -> rsi_of_rs (fdiv (Fin g) (Fin l)) = Fin 100.
Proof.
  intros Hl Hg. unfold fdiv.
  apply Qeq_bool_iff in Hl. rewrite Hl.
  destruct (Qeq_bool g 0) eqn:E.
  - apply Qeq_bool_iff in E. rewrite E in Hg. discriminate Hg.
  - apply Qlt_bool_iff in Hg. rewrite Hg. reflexivity.
Qed.

Lemma fdiv_fin (g l : Q) : 0 < l -> fdiv (Fin g) (Fin l) = Fin (g / l).
Proof.
  intros Hl. unfold fdiv.
  destruct (Qeq_bool l 0) eqn:E; [|reflexivity].
  apply Qeq_bool_iff in E. rewrite E in Hl. discriminate Hl.
Qed.

Lemma rsi_of_rs_fin (r : Q) :
  0 <= r -> rsi_of_rs (Fin r) = Fin (100 + - (100 / (1 + r))).
Proof.
  intros Hr. unfold rsi_of_rs, fsub, fadd, fdiv, fneg.
  destruct (Qeq_bool (1 + r) 0) eqn:E; [|reflexivity].
  apply Qeq_bool_iff in E. exfalso. lra.
Qed.

Lemma Qdiv_nonneg (g l : Q) : 0 <= g -> 0 < l -> 0 <= g / l.
Proof.
  intros Hg Hl. apply Qle_shift_div_l; [exact Hl|]. lra.
Qed.

(** With a positive average loss the RSI is [100 g / (g + l)]: it grows
    with the gains, falls with the losses and stays between its ends. *)
Lemma rsi_of_rs_ratio (g l : Q) :
  0 <= g -> 0 < l ->
  exists q, rsi_of_rs (fdiv (Fin g) (Fin l)) = Fin q /\ q == 100 * g / (g + l).
Proof.
  intros Hg Hl.
  rewrite (fdiv_fin g l Hl), (rsi_of_rs_fin _ (Qdiv_nonneg g l Hg Hl)).
  eexists. split; [reflexivity|].
  field. split; intros H; lra.
Qed.

Lemma rsi_of_rs_no_gain (g l : Q) :
  g == 0 -> 0 < l ->
  exists q, rsi_of_rs (fdiv (Fin g) (Fin l)) = Fin q /\ q == 0.
Proof.
  intros Hg Hl.
  destruct (rsi_of_rs_ratio g l) as (q & E & Hq); [lra | exact Hl |].
  exists q. split; [exact E|].
  rewrite Hq, Hg. field. lra.
Qed.

(** C7. For a bar whose smoothed average loss is 0 while its average
    gain is positive, [_compute_rsi] returns 100; for a bar whose average
    gain is 0 while its average loss is positive, it returns 0.  Between
    the two ends the RSI is [100 g / (g + l)], which tends to 100 as the
    losses tend to 0 and to 0 as the gains tend to 0. *)
Theorem rsi_at_zero_loss_and_zero_gain
    (series : list Q) (period i : nat) (g l : Q) :
  (rsi_averages series period).1 !! i = Some (Fin g) ->
  (rsi_averages series period).2 !! i = Some (Fin l) ->
  (l == 0 -> 0 < g ->
   exists q, _compute_rsi series period !! i = Some (Fin q) /\ q == 100) /\
  (g == 0 -> 0 < l ->
   exists q, _compute_rsi series period !! i = Some (Fin q) /\ q == 0) /\
  (0 <= g -> 0 < l ->
   exists q, _compute_rsi series period !! i = Some (Fin q)
             /\ q == 100 * g / (g + l)).
Proof.
  intros Hg Hl.
  rewrite (compute_rsi_lookup _ _ _ _ _ Hg Hl).
  split; [|split].
  - intros Hl0 Hg0. exists 100. split; [|reflexivity].
    rewrite (rsi_of_rs_no_loss g l Hl0 Hg0). reflexivity.
  - intros Hg0 Hl0.
    destruct (rsi_of_rs_no_gain g l Hg0 Hl0) as (q & E & Hq).
    exists q. rewrite E. split; [reflexivity | exact Hq].
  - intros Hg0 Hl0.
    destruct (rsi_of_rs_ratio g l Hg0 Hl0) as (q & E & Hq).
    exists q. rewrite E. split; [reflexivity | exact Hq].
Qed.

(** The theorem at the last bar of sixteen rising closes and at the last
    bar of sixteen falling closes, with the window of the configuration. *)
Lemma rsi_at_zero_loss_and_zero_gain_witness :
  (exists q, _compute_rsi rising_closes TC.rsi_period !! 15%nat = Some (Fin q)
             /\ q == 100) /\
  (exists q, _compute_rsi falling_closes TC.rsi_period !! 15%nat = Some (Fin q)
             /\ q == 0).
Proof.
  split.
  - refine (proj1 (rsi_at_zero_loss_and_zero_gain rising_closes TC.rsi_period
                     15 (2575 # 2744) (0 # 2744) _ _) _ _);
      vm_compute; reflexivity.
  - refine (proj1 (proj2 (rsi_at_zero_loss_and_zero_gain falling_closes
                            TC.rsi_period 15 (0 # 2744) (2575 # 2744) _ _))
                   _ _);
      vm_compute; reflexivity.
Defined.

End RsiFacts.

(* ===================================================================== *)
(** ** Short price histories                                              *)
(* ===================================================================== *)

Section PipelineFacts.
Local Open Scope Q_scope.

Lemma compute_all_indicators_short
    (indicator_columns : list PriceBar -> list Row) (df : list PriceBar) :
  (length df < 50)%nat ->
  compute_all_indicators indicator_columns df = row_of_bar <$> df.
Proof.
  intros H. unfold compute_all_indicators.
  apply Nat.ltb_lt in H. rewrite H, orb_true_r. reflexivity.
Qed.

Lemma last_fmap_row_of_bar (df : list PriceBar) :
  last (row_of_bar <$> df) = row_of_bar <$> last df.
Proof. apply fmap_last. Qed.




End PipelineFacts.


(* ===================================================================== *)
(** ** The stable sort                                                    *)
(* ===================================================================== *)

Section SortFacts.
Context {A : Type} (key : A -> Z).

Lemma insert_by_perm (x : A) (l : list A) :
  Permutation (insert_by key x l) (x :: l).
Proof.
  induction l as [|y l IH]; cbn; [reflexivity|].
  destruct (key y <? key x)%Z; [|reflexivity].
  rewrite IH. apply perm_swap.
Qed.

Lemma py_sorted_perm (l : list A) : Permutation (py_sorted key l) l.
Proof.
  induction l as [|x l IH]; cbn; [reflexivity|].
  rewrite insert_by_perm. constructor. exact IH.
Qed.

Lemma py_sorted_In (l : list A) (x : A) : In x (py_sorted key l) <-> In x l.
Proof.
  split; apply Permutation_in;
    [apply py_sorted_perm | symmetry; apply py_sorted_perm].
Qed.

Lemma insert_by_sorted (x : A) (l : list A) :
  StronglySorted (key_le key) l -> StronglySorted (key_le key) (insert_by key x l).
Proof.
  induction 1 as [|y l Hs IH Hy]; cbn.
  - repeat constructor.
  - destruct (key y <? key x)%Z eqn:E.
    + constructor; [exact IH|].
      apply List.Forall_forall. intros z Hz.
      apply (Permutation_in _ (insert_by_perm x l)) in Hz.
      destruct Hz as [<- | Hz].
      * apply Z.ltb_lt in E. unfold key_le. lia.
      * rewrite List.Forall_forall in Hy. apply Hy, Hz.
    + apply Z.ltb_ge in E.
      constructor; [constructor; assumption|].
      constructor; [exact E|].
      apply List.Forall_forall. intros z Hz.
      rewrite List.Forall_forall in Hy. specialize (Hy z Hz).
      unfold key_le in *. lia.
Qed.

Lemma py_sorted_sorted (l : list A) : StronglySorted (key_le key) (py_sorted key l).
Proof.
  induction l as [|x l IH]; cbn; [constructor|].
  apply insert_by_sorted, IH.
Qed.

Lemma insert_by_with_key (k : Z) (x : A) (l : list A) :
  with_key key k (insert_by key x l) = with_key key k (x :: l).
Proof.
  induction l as [|y l IH]; [reflexivity|].
  cbn [insert_by].
  destruct (key y <? key x)%Z eqn:E; [|reflexivity].
  apply Z.ltb_lt in E.
  unfold with_key in *. cbn [List.filter] in *. rewrite IH.
  destruct (key x =? k)%Z eqn:Ex; [|reflexivity].
  apply Z.eqb_eq in Ex.
  assert (Ey : (key y =? k)%Z = false) by (apply Z.eqb_neq; lia).
  rewrite Ey. reflexivity.
Qed.

Lemma py_sorted_stable (k : Z) (l : list A) :
  with_key key k (py_sorted key l) = with_key key k l.
Proof.
  induction l as [|x l IH]; [reflexivity|].
  cbn [py_sorted]. rewrite insert_by_with_key.
  unfold with_key in *. cbn [List.filter]. rewrite IH. reflexivity.
Qed.

End SortFacts.

(* ===================================================================== *)
(** ** The generation loops                                               *)
(* ===================================================================== *)

Section LoopFacts.

Lemma extends_refl (st : GenState) : extends st st.
Proof. exists []. symmetry. apply app_nil_r. Qed.

Lemma extends_trans (a b c : GenState) :
  extends a b -> extends b c -> extends a c.
Proof.
  intros [e1 H1] [e2 H2]. exists (app e1 e2).
  rewrite H2, H1. symmetry. apply app_assoc.
Qed.

Lemma extends_In (st st' : GenState) (r : Recommendation) :
  extends st st' -> In r (fst st) -> In r (fst st').
Proof. intros [e H] Hr. rewrite H. apply in_or_app. left. exact Hr. Qed.

Lemma emit_extends (mk : string -> Recommendation) (st : GenState) :
  extends st (emit mk st).
Proof. eexists. reflexivity. Qed.

Lemma emit_In (mk : string -> Recommendation) (st : GenState) :
  exists id, In (mk id) (fst (emit mk st)).
Proof.
  eexists. unfold emit. cbn [fst]. apply in_or_app. right. left. reflexivity.
Qed.

Lemma emit_In_inv (mk : string -> Recommendation) (st : GenState)
    (r : Recommendation) :
  In r (fst (emit mk st)) -> In r (fst st) \/ exists id, r = mk id.
Proof.
  unfold emit. cbn [fst]. intros H. apply in_app_or in H.
  destruct H as [H | [H | []]]; [left; exact H | right; eauto].
Qed.

Context {X : Type} (step : GenState -> X -> GenState).
Hypothesis step_extends : forall st x, extends st (step st x).

Lemma foldl_extends (l : list X) (st : GenState) :
  extends st (foldl step st l).
Proof.
  revert st. induction l as [|x l IH]; intros st; cbn.
  - apply extends_refl.
  - eapply extends_trans; [apply step_extends | apply IH].
Qed.

(** What one turn is sure to leave in the list is in the final list. *)
Lemma foldl_keeps (P : Recommendation -> Prop) (x : X) (l : list X) :
  In x l ->
  (forall st, exists r, In r (fst (step st x)) /\ P r) ->
  forall st, exists r, In r (fst (foldl step st l)) /\ P r.
Proof.
  intros Hx Hstep. induction l as [|y l IH]; [destruct Hx|].
  intros st. cbn [foldl]. destruct Hx as [-> | Hx].
  - destruct (Hstep st) as (r & Hr & HP).
    exists r. split; [|exact HP].
    eapply extends_In; [apply foldl_extends | exact Hr].
  - apply IH, Hx.
Qed.

(** Whatever is in the final list was there at the start or was added
    by one of the turns. *)
Lemma foldl_origin (Q : X -> Recommendation -> Prop) (l : list X) :
  (forall st x r, In r (fst (step st x)) -> In r (fst st) \/ Q x r) ->
  forall st r,
    In r (fst (foldl step st l)) ->
    In r (fst st) \/ exists x, In x l /\ Q x r.
Proof.
  intros Hstep. induction l as [|y l IH]; intros st r Hr; cbn in Hr.
  - left. exact Hr.
  - destruct (IH _ _ Hr) as [H | (x & Hx & HQ)].
    + destruct (Hstep _ _ _ H) as [H' | H'].
      * left. exact H'.
      * right. exists y. split; [left; reflexivity | exact H'].
    + right. exists x. split; [right; exact Hx | exact HQ].
Qed.

End LoopFacts.

(* ===================================================================== *)
(** ** mock_generate_recommendations                                      *)
(* ===================================================================== *)

Section MockEngineFacts.
Local Open Scope Q_scope.

Variable fm_directives : list Directive.
Variable technical_signals : gmap string TechSignal.
Variable sector_signals : list SectorSignal.
Variable client : Client.
Variable holdings : list Holding.

Local Abbreviation apply_action' :=
  (apply_action technical_signals sector_signals client holdings).
Local Abbreviation process_directive' :=
  (process_directive technical_signals sector_signals client holdings).
Local Abbreviation coverage_step' := (coverage_step technical_signals).
Local Abbreviation directive_pass' :=
  (directive_pass fm_directives technical_signals sector_signals client
     holdings).
Local Abbreviation generated' :=
  (generated fm_directives technical_signals sector_signals client holdings).
Local Abbreviation run :=
  (mock_generate_recommendations fm_directives technical_signals
     sector_signals client holdings).

Lemma emit_loop_extends {X : Type} (mk : X -> string -> Recommendation)
    (l : list X) (st : GenState) :
  extends st (foldl (fun st x => emit (mk x) st) st l).
Proof. apply foldl_extends. intros st' x. apply emit_extends. Qed.

Lemma apply_action_extends (d : Directive) (st : GenState) :
  extends st (apply_action' d st).
Proof.
  unfold apply_action.
  repeat match goal with
         | |- context [if ?b then _ else _] => destruct b
         end;
    first [apply emit_loop_extends | apply emit_extends | apply extends_refl].
Qed.

Lemma process_directive_extends (st : GenState) (d : Directive) :
  extends st (process_directive' st d).
Proof.
  unfold process_directive. destruct (skipped client holdings d).
  - apply extends_refl.
  - apply apply_action_extends.
Qed.

Lemma coverage_step_extends (st : GenState) (h : Holding) :
  extends st (coverage_step' st h).
Proof.
  unfold coverage_step.
  repeat match goal with
         | |- context [if ?b then _ else _] => destruct b
         end;
    first [apply emit_extends | apply extends_refl].
Qed.

Lemma directive_pass_In_generated (r : Recommendation) :
  In r (fst directive_pass') -> In r generated'.
Proof.
  unfold generated. apply extends_In.
  apply foldl_extends. exact coverage_step_extends.
Qed.

Lemma recommendations_In (now : string) (r : Recommendation) :
  In r (recommendations (run now)) <-> In r generated'.
Proof. cbn [mock_generate_recommendations recommendations]. apply py_sorted_In. Qed.

(** What the action of a directive that is not passed over is sure to
    emit is in the list returned. *)
Lemma action_reaches_output (P : Recommendation -> Prop) (d : Directive)
    (now : string) :
  In d fm_directives ->
  skipped client holdings d = false ->
  (forall st, exists r, In r (fst (apply_action' d st)) /\ P r) ->
  exists r, In r (recommendations (run now)) /\ P r.
Proof.
  intros Hd Hs Hact.
  destruct (foldl_keeps process_directive' process_directive_extends P d
              fm_directives Hd) with (st := (@nil Recommendation, 0%nat))
    as (r & Hr & HP).
  - intros st. unfold process_directive. rewrite Hs. apply Hact.
  - exists r. split; [|exact HP].
    apply recommendations_In, directive_pass_In_generated. exact Hr.
Qed.

(** *** REDUCE_EXPOSURE *)

Lemma reduce_action (d : Directive) (h : Holding) (st : GenState) :
  d_action d = Some "REDUCE_EXPOSURE" ->
  In h (matching_holdings holdings d) ->
  exists r, In r (fst (apply_action' d st))
            /\ exists id, r = reduce_rec technical_signals d h id.
Proof.
  intros Ha Hh. unfold apply_action. rewrite Ha. cbn [default from_option id].
  change (String.eqb "REDUCE_EXPOSURE" "REDUCE_EXPOSURE") with true.
  cbn [andb].
  destruct (matching_holdings holdings d) as [|h0 rest] eqn:E;
    [destruct Hh|].
  rewrite <- E in *.
  apply (foldl_keeps
           (fun st h => emit (reduce_rec technical_signals d h) st)
           (fun st' x => emit_extends _ st')
           (fun r => exists id, r = reduce_rec technical_signals d h id)
           h _ Hh).
  intros st'.
  destruct (emit_In (reduce_rec technical_signals d h) st') as [id Hid].
  eexists. split; [exact Hid|]. eauto.
Qed.

Lemma reduce_pct_cases (magnitude : option string) :
  (magnitude = None \/ magnitude = Some "" -> reduce_pct magnitude = 50%Z) /\
  (forall m n, magnitude = Some m -> m <> "" ->
               py_int (str_replace "%" "" m) = Some n ->
               reduce_pct magnitude = n) /\
  (forall m, magnitude = Some m ->
             py_int (str_replace "%" "" m) = None ->
             reduce_pct magnitude = 50%Z).
Proof.
  split; [|split].
  - intros [-> | ->]; reflexivity.
  - intros m n -> Hm Hn. unfold reduce_pct.
    destruct m; [contradiction|]. cbn [str_truthy]. rewrite Hn. reflexivity.
  - intros m -> Hn. unfold reduce_pct.
    destruct (str_truthy m); [rewrite Hn|]; reflexivity.
Qed.


(** *** INCREASE_ALLOCATION on GOLD *)

Lemma gold_action (d : Directive) (st : GenState) :
  d_action d = Some "INCREASE_ALLOCATION" ->
  d_target d = Some "GOLD" ->
  default 0 (sector_alloc holdings !! "GOLD") < 15 ->
  exists r, In r (fst (apply_action' d st))
            /\ exists id, r = gold_rec client holdings d id.
Proof.
  intros Ha Ht Hg. unfold apply_action.
  rewrite Ha, Ht. cbn [default from_option id].
  assert (E1 : String.eqb "INCREASE_ALLOCATION" "REDUCE_EXPOSURE" = false)
    by reflexivity.
  assert (E2 : String.eqb "INCREASE_ALLOCATION" "INCREASE_EXPOSURE" = false)
    by reflexivity.
  assert (E3 : String.eqb "INCREASE_ALLOCATION" "INCREASE_ALLOCATION" = true)
    by reflexivity.
  assert (E4 : String.eqb "GOLD" "GOLD" = true) by reflexivity.
  rewrite E1, E2, E3, E4. cbn [andb].
  apply Qlt_bool_iff in Hg. rewrite Hg, orb_true_r.
  destruct (emit_In (gold_rec client holdings d) st) as [id Hid].
  eexists. split; [exact Hid|]. eauto.
Qed.


(** *** The coverage pass *)

Lemma coverage_step_covers (st : GenState) (h : Holding) :
  extreme_signal
    (default no_tech (technical_signals !! default "" (h_instrument_code h)))
    = true ->
  exists r, In r (fst (coverage_step' st h))
            /\ instrument_code r = default "" (h_instrument_code h).
Proof.
  intros He. unfold coverage_step. rewrite He.
  destruct (covered (default "" (h_instrument_code h)) (fst st)) eqn:E;
    cbn [negb].
  - apply existsb_exists in E. destruct E as (r & Hr & Hc).
    apply String.eqb_eq in Hc. eauto.
  - destruct (emit_In (coverage_rec technical_signals h) st) as [id Hid].
    eexists. split; [exact Hid | reflexivity].
Qed.

Lemma coverage_step_origin (st : GenState) (h : Holding) (r : Recommendation) :
  In r (fst (coverage_step' st h)) ->
  In r (fst st) \/ exists id, r = coverage_rec technical_signals h id.
Proof.
  unfold coverage_step.
  repeat match goal with
         | |- context [if ?b then _ else _] => destruct b
         end; try (intros H; left; exact H).
  apply emit_In_inv.
Qed.

(** C3. Every holding whose technical signal is STRONG_BUY or
    STRONG_SELL has a recommendation with its instrument code in the list
    returned; when no recommendation made for a directive has that code,
    the recommendations with that code are ACCUMULATE for STRONG_BUY and
    REVIEW for STRONG_SELL, with confidence 45, priority MEDIUM and no
    directive reference. *)
Theorem extreme_signals_are_covered (now : string) (h : Holding) :
  In h holdings ->
  let code := default "" (h_instrument_code h) in
  let tech := default no_tech (technical_signals !! code) in
  ts_signal tech = Some "STRONG_BUY" \/ ts_signal tech = Some "STRONG_SELL" ->
  (exists r, In r (recommendations (run now)) /\ instrument_code r = code) /\
  ((forall r, In r (fst directive_pass') -> instrument_code r <> code) ->
   forall r,
     In r (recommendations (run now)) -> instrument_code r = code ->
     (ts_signal tech = Some "STRONG_BUY" -> action r = "ACCUMULATE") /\
     (ts_signal tech = Some "STRONG_SELL" -> action r = "REVIEW") /\
     confidence r = 45%Z /\
     priority r = "MEDIUM" /\
     fm_directive_ref r = None).
Proof.
  intros Hh code tech Hsig.
  assert (He : extreme_signal tech = true).
  { unfold extreme_signal. destruct Hsig as [-> | ->]; reflexivity. }
  split.
  - destruct (foldl_keeps coverage_step' coverage_step_extends
                (fun r => instrument_code r = code) h holdings Hh)
      with (st := directive_pass') as (r & Hr & Hc).
    + intros st. apply coverage_step_covers. exact He.
    + exists r. split; [|exact Hc]. apply recommendations_In. exact Hr.
  - intros Hnone r Hr Hc.
    apply recommendations_In in Hr. unfold generated in Hr.
    apply (foldl_origin coverage_step'
             (fun x r => exists id, r = coverage_rec technical_signals x id))
      in Hr; [|intros st x r'; apply coverage_step_origin].
    destruct Hr as [Hr | (h' & _ & id & ->)].
    + exfalso. exact (Hnone r Hr Hc).
    + cbn [coverage_rec instrument_code] in Hc.
      cbn [coverage_rec action confidence priority fm_directive_ref].
      rewrite Hc. fold tech.
      repeat split.
      * intros ->. reflexivity.
      * intros ->. reflexivity.
Qed.

(** *** Order and identifiers *)

Lemma StronglySorted_weaken {A : Type} (R R' : A -> A -> Prop) (l : list A) :
  (forall a b, R a b -> R' a b) -> StronglySorted R l -> StronglySorted R' l.
Proof.
  intros HR. induction 1 as [|x l Hs IH Hx]; constructor; [exact IH|].
  rewrite List.Forall_forall in *. intros y Hy. apply HR, Hx, Hy.
Qed.

Lemma emit_numbered (mk : string -> Recommendation) (st : GenState) :
  (forall id, rec_id (mk id) = id) -> numbered st -> numbered (emit mk st).
Proof.
  intros Hmk [Hn Hids]. unfold numbered, emit. cbn [fst snd]. split.
  - rewrite length_app. cbn. lia.
  - rewrite List.map_app, seq_S, List.map_app, Hids. cbn [List.map].
    rewrite Hmk. reflexivity.
Qed.

Lemma foldl_numbered {X : Type} (step : GenState -> X -> GenState)
    (l : list X) (st : GenState) :
  (forall st x, numbered st -> numbered (step st x)) ->
  numbered st -> numbered (foldl step st l).
Proof.
  intros Hstep. revert st. induction l as [|x l IH]; intros st Hst; cbn.
  - exact Hst.
  - apply IH, Hstep, Hst.
Qed.

Lemma apply_action_numbered (d : Directive) (st : GenState) :
  numbered st -> numbered (apply_action' d st).
Proof.
  intros Hst. unfold apply_action.
  repeat match goal with
         | |- context [if ?b then _ else _] => destruct b
         end;
    try exact Hst;
    first [ apply foldl_numbered;
            [intros st' x Hst'; apply emit_numbered;
             [reflexivity | exact Hst'] | exact Hst]
          | apply emit_numbered; [reflexivity | exact Hst] ].
Qed.

Lemma coverage_step_numbered (st : GenState) (h : Holding) :
  numbered st -> numbered (coverage_step' st h).
Proof.
  intros Hst. unfold coverage_step.
  repeat match goal with
         | |- context [if ?b then _ else _] => destruct b
         end;
    try exact Hst.
  apply emit_numbered; [reflexivity | exact Hst].
Qed.

Lemma generated_numbered :
  List.map rec_id generated'
    = List.map (fun n => "REC-" ++ format_03d n) (seq 1 (length generated')).
Proof.
  assert (H : numbered (foldl coverage_step' directive_pass' holdings)).
  { apply foldl_numbered; [exact coverage_step_numbered|].
    apply foldl_numbered.
    - intros st d Hst. unfold process_directive.
      destruct (skipped client holdings d);
        [exact Hst | apply apply_action_numbered, Hst].
    - split; reflexivity. }
  destruct H as [Hn Hids]. unfold generated. rewrite <- Hn. exact Hids.
Qed.

Lemma confidence_filter (c : Z) (l : list Recommendation) :
  List.filter (fun r => (confidence r =? c)%Z) l
    = with_key (fun x => (- confidence x)%Z) (- c) l.
Proof.
  unfold with_key. apply List.filter_ext. intros r.
  destruct (Z.eqb_spec (confidence r) c);
    destruct (Z.eqb_spec (- confidence r) (- c)); try reflexivity; lia.
Qed.

(** C5. The list returned is the list of generation sorted by
    non-increasing confidence, recommendations of equal confidence keeping
    their order of generation; it does not depend on the time of the run,
    and the identifiers are the positions in the order of generation. *)
Theorem recommendations_sorted_stable (now : string) :
  let out := recommendations (run now) in
  Permutation out generated' /\
  StronglySorted (fun a b => (confidence b <= confidence a)%Z) out /\
  (forall c : Z,
      List.filter (fun r => (confidence r =? c)%Z) out
        = List.filter (fun r => (confidence r =? c)%Z) generated') /\
  (forall now', recommendations (run now') = out) /\
  List.map rec_id generated'
    = List.map (fun n => "REC-" ++ format_03d n) (seq 1 (length generated')).
Proof.
  cbn zeta. cbn [mock_generate_recommendations recommendations].
  split; [|split; [|split; [|split]]].
  - apply py_sorted_perm.
  - eapply StronglySorted_weaken; [|apply py_sorted_sorted].
    unfold key_le. intros a b H. lia.
  - intros c.
    rewrite !(confidence_filter c).
    apply py_sorted_stable.
  - intros now'. reflexivity.
  - apply generated_numbered.
Qed.

End MockEngineFacts.

(* ===================================================================== *)
(** ** The rules on the example portfolios                                *)
(* ===================================================================== *)

Section Examples.
Local Open Scope Q_scope.





(** Sun Pharma carries a STRONG_BUY signal and no directive names it. *)
Lemma extreme_signals_are_covered_witness :
  (exists r,
      In r (recommendations
              (mock_generate_recommendations [directive_reduce_it]
                 signals_example [] client_moderate
                 [holding_infy; holding_sunpharma] example_now)) /\
      instrument_code r = "NSE:SUNPHARMA") /\
  (forall r,
      In r (recommendations
              (mock_generate_recommendations [directive_reduce_it]
                 signals_example [] client_moderate
                 [holding_infy; holding_sunpharma] example_now)) ->
      instrument_code r = "NSE:SUNPHARMA" ->
      action r = "ACCUMULATE" /\ confidence r = 45%Z /\
      priority r = "MEDIUM" /\ fm_directive_ref r = None).
Proof.
  destruct (extreme_signals_are_covered [directive_reduce_it] signals_example
              [] client_moderate [holding_infy; holding_sunpharma] example_now
              holding_sunpharma) as [Hcov Hstandalone].
  - right. left. reflexivity.
  - left. vm_compute. reflexivity.
  - split; [exact Hcov|].
    intros r Hr Hc.
    destruct (Hstandalone) with (r := r) as (Hbuy & _ & H45 & Hmed & Href).
    + vm_compute. intros r0 [<- | []]. discriminate.
    + exact Hr.
    + exact Hc.
    + repeat split; try assumption. apply Hbuy. vm_compute. reflexivity.
Defined.

End Examples.

(* ===================================================================== *)
(** * Further properties of the code                                      *)
(* ===================================================================== *)

(* ===================================================================== *)
(** ** The origin of the recommendations                                  *)
(* ===================================================================== *)

Section OriginFacts.
Local Open Scope Q_scope.

Variable fm_directives : list Directive.
Variable technical_signals : gmap string TechSignal.
Variable sector_signals : list SectorSignal.
Variable client : Client.
Variable holdings : list Holding.

Local Abbreviation apply_action' :=
  (apply_action technical_signals sector_signals client holdings).
Local Abbreviation process_directive' :=
  (process_directive technical_signals sector_signals client holdings).
Local Abbreviation coverage_step' := (coverage_step technical_signals).
Local Abbreviation directive_pass' :=
  (directive_pass fm_directives technical_signals sector_signals client
     holdings).
Local Abbreviation generated' :=
  (generated fm_directives technical_signals sector_signals client holdings).
Local Abbreviation run :=
  (mock_generate_recommendations fm_directives technical_signals
     sector_signals client holdings).
Local Abbreviation fired_by' :=
  (fired_by technical_signals sector_signals client holdings).
Local Abbreviation rec_origin' :=
  (rec_origin technical_signals sector_signals client holdings).

Lemma emit_loop_origin {X : Type} (mk : X -> string -> Recommendation)
    (l : list X) (st : GenState) (r : Recommendation) :
  In r (fst (foldl (fun st x => emit (mk x) st) st l)) ->
  In r (fst st) \/ exists x, In x l /\ exists id, r = mk x id.
Proof.
  apply (foldl_origin (fun st x => emit (mk x) st)
           (fun x r => exists id, r = mk x id)).
  intros st' x r'. apply emit_In_inv.
Qed.

Lemma gold_test_below :
  negb (has_sector holdings "GOLD")
  || Qlt_bool (default 0 (sector_alloc holdings !! "GOLD")) 15 = true ->
  default 0 (sector_alloc holdings !! "GOLD") < 15.
Proof.
  unfold has_sector. destruct (sector_alloc holdings !! "GOLD") as [q|];
    cbn [negb orb default from_option id].
  - apply Qlt_bool_iff.
  - intros _. reflexivity.
Qed.

Lemma apply_action_origin (d : Directive) (st : GenState) (r : Recommendation) :
  In r (fst (apply_action' d st)) -> In r (fst st) \/ fired_by' d r.
Proof.
  unfold apply_action.
  destruct (String.eqb (default "" (d_action d)) "REDUCE_EXPOSURE"
            && match matching_holdings holdings d with
               | [] => false
               | _ => true
               end) eqn:E1.
  { apply andb_true_iff in E1. destruct E1 as [Ea _].
    apply String.eqb_eq in Ea. intros H.
    apply emit_loop_origin in H.
    destruct H as [H | (h & Hh & id & ->)]; [left; exact H | right].
    eapply fired_reduce; eauto. }
  destruct (String.eqb (default "" (d_action d)) "INCREASE_EXPOSURE"
            && String.eqb (default "" (d_target_type d)) "SECTOR") eqn:E2.
  { apply andb_true_iff in E2. destruct E2 as [Ea Et].
    apply String.eqb_eq in Ea. apply String.eqb_eq in Et.
    destruct (Qlt_bool _ 15) eqn:E3; [|intros H; left; exact H].
    apply Qlt_bool_iff in E3. intros H. apply emit_In_inv in H.
    destruct H as [H | [id ->]]; [left; exact H | right].
    eapply fired_increase; eauto. }
  destruct (String.eqb (default "" (d_action d)) "INCREASE_ALLOCATION"
            && String.eqb (default "" (d_target d)) "GOLD") eqn:E3.
  { apply andb_true_iff in E3. destruct E3 as [Ea Et].
    apply String.eqb_eq in Ea. apply String.eqb_eq in Et.
    destruct (negb (has_sector holdings "GOLD") || _) eqn:E4;
      [|intros H; left; exact H].
    apply gold_test_below in E4. intros H. apply emit_In_inv in H.
    destruct H as [H | [id ->]]; [left; exact H | right].
    eapply fired_gold; eauto. }
  destruct (String.eqb (default "" (d_action d)) "HOLD") eqn:E4.
  { apply String.eqb_eq in E4. intros H.
    apply emit_loop_origin in H.
    destruct H as [H | (h & Hh & id & ->)]; [left; exact H | right].
    eapply fired_hold; eauto. }
  intros H. left. exact H.
Qed.

Lemma directive_pass_origin (r : Recommendation) :
  In r (fst directive_pass') ->
  exists d, In d fm_directives /\ skipped client holdings d = false
            /\ fired_by' d r.
Proof.
  intros H. unfold directive_pass in H.
  apply (foldl_origin process_directive'
           (fun d r => skipped client holdings d = false /\ fired_by' d r))
    in H.
  - destruct H as [[] | (d & Hd & Hs & Hf)]. eauto.
  - intros st d r' Hr'. unfold process_directive in Hr'.
    destruct (skipped client holdings d) eqn:Hs; [left; exact Hr'|].
    apply apply_action_origin in Hr'.
    destruct Hr' as [Hr' | Hr']; [left; exact Hr' | right; split; auto].
Qed.

Lemma generated_origin (r : Recommendation) :
  In r generated' -> rec_origin' fm_directives r.
Proof.
  intros H. unfold generated in H.
  apply (foldl_origin coverage_step'
           (fun h r =>
              extreme_signal
                (default no_tech
                   (technical_signals !! default "" (h_instrument_code h)))
                = true
              /\ exists id, r = coverage_rec technical_signals h id)) in H.
  - destruct H as [H | (h & Hh & He & id & ->)].
    + left. apply directive_pass_origin, H.
    + right. exists h, id. auto.
  - intros st h r' Hr'. unfold coverage_step in Hr'.
    destruct (extreme_signal _) eqn:He; [|left; exact Hr'].
    destruct (negb _); [|left; exact Hr'].
    apply emit_In_inv in Hr'. destruct Hr' as [Hr' | Hr']; [left|right]; auto.
Qed.

(** X1. Every recommendation returned was emitted by one of the four
    rules for a directive of the input that applies to the client and whose
    own tests hold, or by the coverage pass for a holding of the input with
    an extreme signal.  Nothing else is ever returned. *)
Theorem every_recommendation_has_an_origin (now : string) :
  Forall (rec_origin technical_signals sector_signals client holdings
            fm_directives)
    (recommendations
       (mock_generate_recommendations fm_directives technical_signals
          sector_signals client holdings now)).
Proof.
  apply List.Forall_forall. intros r Hr.
  apply generated_origin. apply (recommendations_In _ _ _ _ _ now). exact Hr.
Qed.

Lemma reduce_rec_confidence (d : Directive) (h : Holding) (id : string) :
  let r := reduce_rec technical_signals d h id in
  (confidence r = 85%Z /\ priority r = "HIGH") \/
  (confidence r = 70%Z /\ priority r = "MEDIUM") \/
  (confidence r = 50%Z /\ priority r = "MEDIUM").
Proof.
  cbn [reduce_rec confidence priority].
  destruct (Qlt_bool _ (-20)); [left; split; reflexivity|].
  destruct (Qlt_bool _ 0); right; [left | right]; split; reflexivity.
Qed.

Lemma increase_exposure_rec_confidence (d : Directive) (id : string) :
  let r := increase_exposure_rec sector_signals client holdings d id in
  (confidence r = 75%Z /\ priority r = "HIGH") \/
  (confidence r = 55%Z /\ priority r = "MEDIUM").
Proof.
  cbn [increase_exposure_rec confidence priority].
  destruct (Qlt_bool 20 _); [left | right]; split; reflexivity.
Qed.

(** X2. Every recommendation returned carries one of seven confidence
    values, between 45 and 85, and one of three priorities: HIGH only with
    a confidence of 70 or more, MEDIUM only with 70 or less, LOW only with
    60. *)
Theorem confidence_and_priority_values (now : string) :
  Forall
    (fun r =>
       In (confidence r) [45; 50; 55; 60; 70; 75; 85]%Z /\
       ((priority r = "HIGH" /\ (70 <= confidence r)%Z) \/
        (priority r = "MEDIUM" /\ (confidence r <= 70)%Z) \/
        (priority r = "LOW" /\ confidence r = 60%Z)))
    (recommendations
       (mock_generate_recommendations fm_directives technical_signals
          sector_signals client holdings now)).
Proof.
  apply List.Forall_forall. intros r Hr.
  apply (recommendations_In _ _ _ _ _ now), generated_origin in Hr.
  destruct Hr as [(d & _ & _ & Hf) | (h & id & _ & _ & ->)].
  - destruct Hf as [h id _ _ -> | id _ _ _ -> | id _ _ _ -> | h id _ _ ->].
    + destruct (reduce_rec_confidence d h id)
        as [[-> ->] | [[-> ->] | [-> ->]]];
        cbn; split; try tauto; [left | right; left | right; left];
        split; try reflexivity; lia.
    + destruct (increase_exposure_rec_confidence d id)
        as [[-> ->] | [-> ->]];
        cbn; split; try tauto; [left | right; left]; split;
        try reflexivity; lia.
    + cbn. split; [tauto|]. left. split; [reflexivity | lia].
    + cbn. split; [tauto|]. right. right. split; reflexivity.
  - cbn. split; [tauto|]. right. left. split; [reflexivity | lia].
Qed.

(** X3. The instrument code of every recommendation returned is the code
    of one of the client's holdings, or the fixed code of the gold fund, or
    empty (a sector-level investment). *)
Theorem instrument_codes_of_recommendations (now : string) :
  Forall
    (fun r =>
       (exists h, In h holdings
                  /\ instrument_code r = default "" (h_instrument_code h)) \/
       (instrument_code r = "NSE:GOLDBEES" /\ action r = "INVEST") \/
       (instrument_code r = "" /\ action r = "INVEST"))
    (recommendations
       (mock_generate_recommendations fm_directives technical_signals
          sector_signals client holdings now)).
Proof.
  apply List.Forall_forall. intros r Hr.
  apply (recommendations_In _ _ _ _ _ now), generated_origin in Hr.
  destruct Hr as [(d & _ & _ & Hf) | (h & id & Hh & _ & ->)].
  - destruct Hf as [h id _ Hh -> | id _ _ _ -> | id _ _ _ -> | h id _ Hh ->].
    + left. exists h. split; [|reflexivity].
      unfold matching_holdings in Hh. apply List.filter_In in Hh. tauto.
    + right. right. split; reflexivity.
    + right. left. split; reflexivity.
    + left. exists h. split; [|reflexivity].
      unfold matching_holdings in Hh. apply List.filter_In in Hh. tauto.
  - left. exists h. split; [exact Hh | reflexivity].
Qed.

End OriginFacts.

Section SkippedFacts.

Variable technical_signals : gmap string TechSignal.
Variable sector_signals : list SectorSignal.
Variable client : Client.
Variable holdings : list Holding.

Lemma directive_loop_without_skipped (directives : list Directive)
    (st : GenState) :
  foldl (process_directive technical_signals sector_signals client holdings)
    st directives
  = foldl (process_directive technical_signals sector_signals client holdings)
      st (List.filter (fun d => negb (skipped client holdings d)) directives).
Proof.
  revert st. induction directives as [|d ds IH]; intros st; [reflexivity|].
  cbn [foldl List.filter].
  destruct (skipped client holdings d) eqn:Hs; cbn [negb].
  - unfold process_directive at 2. rewrite Hs. apply IH.
  - cbn [foldl]. apply IH.
Qed.

(** X4. Directives that do not apply to the client have no effect at all:
    the result is the one obtained after deleting them from the input. *)
Theorem skipped_directives_have_no_effect (directives : list Directive)
    (now : string) :
  mock_generate_recommendations directives technical_signals sector_signals
    client holdings now
  = mock_generate_recommendations
      (List.filter (fun d => negb (skipped client holdings d)) directives)
      technical_signals sector_signals client holdings now.
Proof.
  unfold mock_generate_recommendations, generated, directive_pass.
  rewrite <- directive_loop_without_skipped. reflexivity.
Qed.

End SkippedFacts.

(* ===================================================================== *)
(** ** The identifiers                                                    *)
(* ===================================================================== *)

Section IdentifierFacts.

Lemma read_decimal_format_nat (n : nat) : read_decimal (format_nat n) = n.
Proof.
  unfold read_decimal, format_nat. rewrite NilEmpty.usu.
  apply DecimalNat.Unsigned.of_to.
Qed.

(** The padding of [{n:03d}] does not change the number written. *)
Lemma read_decimal_format_03d (n : nat) : read_decimal (format_03d n) = n.
Proof.
  unfold format_03d.
  pose proof (read_decimal_format_nat n) as H. unfold format_nat in H.
  set (digits := NilEmpty.string_of_uint (Nat.to_uint n)) in *.
  assert (E : NilEmpty.uint_of_string digits = Some (Nat.to_uint n))
    by apply NilEmpty.usu.
  destruct (String.length digits) as [|[|[|k]]]; try exact H.
  - unfold read_decimal.
    change ("00" ++ digits) with (String "0" (String "0" digits)).
    cbn [NilEmpty.uint_of_string]. rewrite E.
    exact (DecimalNat.Unsigned.of_to n).
  - unfold read_decimal.
    change ("0" ++ digits) with (String "0" digits).
    cbn [NilEmpty.uint_of_string]. rewrite E.
    exact (DecimalNat.Unsigned.of_to n).
Qed.

Lemma format_03d_inj (a b : nat) : format_03d a = format_03d b -> a = b.
Proof.
  intros H. rewrite <- (read_decimal_format_03d a), H.
  apply read_decimal_format_03d.
Qed.

Lemma NoDup_map_injective {A B : Type} (f : A -> B) (l : list A) :
  (forall x y, f x = f y -> x = y) -> List.NoDup l -> List.NoDup (List.map f l).
Proof.
  intros Hf. induction 1 as [|x l Hx Hl IH]; cbn; constructor; [|exact IH].
  intros Hin. apply List.in_map_iff in Hin. destruct Hin as (y & E & Hy).
  apply Hf in E. subst y. exact (Hx Hy).
Qed.

(** X5. No two recommendations of a result carry the same identifier. *)
Theorem recommendation_ids_are_distinct
    (fm_directives : list Directive)
    (technical_signals : gmap string TechSignal)
    (sector_signals : list SectorSignal) (client : Client)
    (holdings : list Holding) (now : string) :
  List.NoDup (List.map rec_id
           (recommendations
              (mock_generate_recommendations fm_directives technical_signals
                 sector_signals client holdings now))).
Proof.
  cbn [mock_generate_recommendations recommendations].
  eapply Permutation_NoDup.
  - symmetry. apply Permutation_map. apply py_sorted_perm.
  - rewrite generated_numbered.
    apply NoDup_map_injective; [|apply List.seq_NoDup].
    intros a b H. injection H as H. apply format_03d_inj, H.
Qed.

End IdentifierFacts.

(* ===================================================================== *)
(** ** The other rules                                                    *)
(* ===================================================================== *)

Section RuleFacts.
Local Open Scope Q_scope.

Variable fm_directives : list Directive.
Variable technical_signals : gmap string TechSignal.
Variable sector_signals : list SectorSignal.
Variable client : Client.
Variable holdings : list Holding.

Local Abbreviation apply_action' :=
  (apply_action technical_signals sector_signals client holdings).
Local Abbreviation run :=
  (mock_generate_recommendations fm_directives technical_signals
     sector_signals client holdings).

Lemma increase_exposure_action (d : Directive) (st : GenState) :
  d_action d = Some "INCREASE_EXPOSURE" ->
  d_target_type d = Some "SECTOR" ->
  default 0 (sector_alloc holdings !! upper (default "" (d_target d))) < 15 ->
  exists r, In r (fst (apply_action' d st))
            /\ exists id,
                r = increase_exposure_rec sector_signals client holdings d id.
Proof.
  intros Ha Ht Hc. unfold apply_action.
  rewrite Ha, Ht. cbn [default from_option id].
  assert (E1 : String.eqb "INCREASE_EXPOSURE" "REDUCE_EXPOSURE" = false)
    by reflexivity.
  assert (E2 : String.eqb "INCREASE_EXPOSURE" "INCREASE_EXPOSURE" = true)
    by reflexivity.
  assert (E3 : String.eqb "SECTOR" "SECTOR" = true) by reflexivity.
  rewrite E1, E2, E3. cbn [andb].
  apply Qlt_bool_iff in Hc. rewrite Hc.
  destruct (emit_In (increase_exposure_rec sector_signals client holdings d) st)
    as [id Hid].
  eexists. split; [exact Hid|]. eauto.
Qed.


Lemma hold_action (d : Directive) (h : Holding) (st : GenState) :
  d_action d = Some "HOLD" ->
  In h (matching_holdings holdings d) ->
  exists r, In r (fst (apply_action' d st))
            /\ exists id, r = hold_rec technical_signals d h id.
Proof.
  intros Ha Hh. unfold apply_action. rewrite Ha. cbn [default from_option id].
  assert (E1 : String.eqb "HOLD" "REDUCE_EXPOSURE" = false) by reflexivity.
  assert (E2 : String.eqb "HOLD" "INCREASE_EXPOSURE" = false) by reflexivity.
  assert (E3 : String.eqb "HOLD" "INCREASE_ALLOCATION" = false) by reflexivity.
  assert (E4 : String.eqb "HOLD" "HOLD" = true) by reflexivity.
  rewrite E1, E2, E3, E4. cbn [andb].
  apply (foldl_keeps
           (fun st h => emit (hold_rec technical_signals d h) st)
           (fun st' x => emit_extends _ st')
           (fun r => exists id, r = hold_rec technical_signals d h id)
           h _ Hh).
  intros st'.
  destruct (emit_In (hold_rec technical_signals d h) st') as [id Hid].
  eexists. split; [exact Hid|]. eauto.
Qed.

(** X7. A HOLD directive that applies to the client yields, for every
    holding it matches, a recommendation to hold: amount 0, confidence 60,
    priority LOW, the allocation after equal to the allocation before, and
    the holding's technical score and signal ("N/A" and 0 when the
    instrument has none). *)
Theorem hold_rule (now : string) (d : Directive) (h : Holding) :
  In d fm_directives ->
  skipped client holdings d = false ->
  d_action d = Some "HOLD" ->
  In h (matching_holdings holdings d) ->
  exists r,
    In r (recommendations (run now)) /\
    action r = "HOLD" /\
    instrument_code r = default "" (h_instrument_code h) /\
    fm_directive_ref r = d_id d /\
    amount r = 0%Z /\
    confidence r = 60%Z /\
    priority r = "LOW" /\
    allocation_before_pct r = default 0 (h_allocation_pct h) /\
    allocation_after_pct r = allocation_before_pct r /\
    technical_score r
      = default 0 (ts_composite_score (tech_of technical_signals h)) /\
    technical_signal r
      = default "N/A" (ts_signal (tech_of technical_signals h)).
Proof.
  intros Hd Hs Ha Hh.
  destruct (action_reaches_output fm_directives technical_signals
              sector_signals client holdings
              (fun r => exists id, r = hold_rec technical_signals d h id)
              d now Hd Hs) as (r & Hr & id & ->).
  { intros st. apply hold_action; assumption. }
  exists (hold_rec technical_signals d h id).
  split; [exact Hr|]. repeat split.
Qed.

(** X8. A directive whose action is none of REDUCE_EXPOSURE,
    INCREASE_EXPOSURE, INCREASE_ALLOCATION and HOLD (the parser also
    produces SWITCH, BOOK_PROFITS, AVOID and REVIEW) is passed over in
    silence: its turn of the loop leaves the list and the counter as they
    were. *)
Theorem other_actions_emit_nothing (d : Directive) (st : GenState) :
  let action := default "" (d_action d) in
  action <> "REDUCE_EXPOSURE" -> action <> "INCREASE_EXPOSURE" ->
  action <> "INCREASE_ALLOCATION" -> action <> "HOLD" ->
  apply_action' d st = st.
Proof.
  intros action H1 H2 H3 H4. unfold apply_action. fold action.
  apply String.eqb_neq in H1, H2, H3, H4.
  rewrite H1, H2, H3, H4. reflexivity.
Qed.

Lemma unknown_target_type_matches_nothing (d : Directive) :
  let target_type := default "" (d_target_type d) in
  target_type <> "SECTOR" -> target_type <> "STOCK" ->
  target_type <> "ASSET_CLASS" ->
  matching_holdings holdings d = [].
Proof.
  intros target_type H1 H2 H3. unfold matching_holdings.
  apply String.eqb_neq in H1, H2, H3.
  induction holdings as [|h hs IH]; [reflexivity|].
  cbn [List.filter]. unfold matches at 1. fold target_type.
  rewrite H1, H2, H3. cbn [andb]. exact IH.
Qed.

(** X9. A directive whose target type is none of SECTOR, STOCK and
    ASSET_CLASS matches no holding, and unless it is an INCREASE_ALLOCATION
    (which does not look at the target type) its turn of the loop leaves
    the list and the counter as they were. *)
Theorem unknown_target_type_emits_nothing (d : Directive) (st : GenState) :
  let target_type := default "" (d_target_type d) in
  target_type <> "SECTOR" -> target_type <> "STOCK" ->
  target_type <> "ASSET_CLASS" ->
  matching_holdings holdings d = [] /\
  (default "" (d_action d) <> "INCREASE_ALLOCATION" ->
   apply_action' d st = st).
Proof.
  intros target_type H1 H2 H3.
  pose proof (unknown_target_type_matches_nothing d H1 H2 H3) as Hm.
  split; [exact Hm|]. intros Ha.
  unfold apply_action. rewrite Hm. fold target_type.
  apply String.eqb_neq in H1, Ha. rewrite H1, Ha.
  rewrite !andb_false_r. cbn [foldl].
  destruct (String.eqb (default "" (d_action d)) "HOLD"); reflexivity.
Qed.


(** X11. A STOCK directive without a target (the key absent, or the empty
    string) matches every holding of the client, since the empty string is
    a substring of every instrument code. *)
Theorem stock_directive_without_target_matches_all (d : Directive) :
  d_target_type d = Some "STOCK" ->
  default "" (d_target d) = "" ->
  matching_holdings holdings d = holdings.
Proof.
  intros Ht Hg. unfold matching_holdings.
  induction holdings as [|h hs IH]; [reflexivity|].
  cbn [List.filter]. unfold matches at 1. rewrite Ht, Hg.
  cbn [default from_option id upper].
  assert (E1 : String.eqb "STOCK" "SECTOR" = false) by reflexivity.
  assert (E2 : String.eqb "STOCK" "STOCK" = true) by reflexivity.
  rewrite E1, E2. cbn [andb].
  assert (E3 : forall s, contains "" s = true) by (intros []; reflexivity).
  rewrite E3. rewrite IH. reflexivity.
Qed.

End RuleFacts.

(* ===================================================================== *)
(** ** The sector allocation map                                          *)
(* ===================================================================== *)

Section SectorAllocFacts.
Local Open Scope Q_scope.

(** One turn of the loop of lines 157-159. *)
Local Abbreviation alloc_step :=
  (fun (m : gmap string Q) (h : Holding) =>
     <[default "OTHER" (h_sector_tag h) :=
         default 0 (m !! default "OTHER" (h_sector_tag h))
         + default 0 (h_allocation_pct h)]> m).

Lemma alloc_loop_total (sector : string) (holdings : list Holding)
    (m : gmap string Q) :
  default 0 (foldl alloc_step m holdings !! sector)
  == default 0 (m !! sector) + sector_total sector holdings.
Proof.
  revert m. induction holdings as [|h hs IH]; intros m;
    cbn [foldl sector_total].
  - ring.
  - rewrite IH. rewrite lookup_insert.
    destruct (String.eqb_spec (default "OTHER" (h_sector_tag h)) sector)
      as [E | NE].
    + rewrite decide_True by exact E. subst sector.
      cbn [default from_option id]. ring.
    + rewrite decide_False by exact NE. ring.
Qed.

Lemma alloc_loop_keys (sector : string) (holdings : list Holding)
    (m : gmap string Q) :
  foldl alloc_step m holdings !! sector = None <->
  m !! sector = None /\
  Forall (fun h => default "OTHER" (h_sector_tag h) <> sector) holdings.
Proof.
  revert m. induction holdings as [|h hs IH]; intros m; cbn [foldl].
  - split; [intros H; split; [exact H | constructor] | tauto].
  - rewrite IH, lookup_insert_None. split.
    + intros [[Hm Hne] Hall]. split; [exact Hm|]. constructor; assumption.
    + intros [Hm Hall]. inversion Hall; subst. tauto.
Qed.


End SectorAllocFacts.

(* ===================================================================== *)
(** ** Coverage recommendations stand alone                               *)
(* ===================================================================== *)

Section CoverageFacts.

Variable fm_directives : list Directive.
Variable technical_signals : gmap string TechSignal.
Variable sector_signals : list SectorSignal.
Variable client : Client.
Variable holdings : list Holding.

Local Abbreviation coverage_step' := (coverage_step technical_signals).
Local Abbreviation directive_pass' :=
  (directive_pass fm_directives technical_signals sector_signals client
     holdings).
Local Abbreviation generated' :=
  (generated fm_directives technical_signals sector_signals client holdings).
Local Abbreviation run :=
  (mock_generate_recommendations fm_directives technical_signals
     sector_signals client holdings).

Lemma NoDup_map_In_eq {A B : Type} (f : A -> B) (l : list A) (a b : A) :
  List.NoDup (List.map f l) -> In a l -> In b l -> f a = f b -> a = b.
Proof.
  induction l as [|x l IH]; cbn; [tauto|].
  intros Hn Ha Hb E. apply List.NoDup_cons_iff in Hn. destruct Hn as [Hx Hn].
  destruct Ha as [-> | Ha], Hb as [-> | Hb].
  - reflexivity.
  - exfalso. apply Hx. rewrite E. apply List.in_map, Hb.
  - exfalso. apply Hx. rewrite <- E. apply List.in_map, Ha.
  - apply IH; assumption.
Qed.

Lemma covered_false (code : string) (recs : list Recommendation) :
  covered code recs = false ->
  Forall (fun r => instrument_code r <> code) recs.
Proof.
  unfold covered. intros H. apply List.Forall_forall. intros r Hr E.
  assert (T : existsb (fun r => String.eqb (instrument_code r) code) recs
              = true).
  { apply existsb_exists. exists r. split; [exact Hr|].
    apply String.eqb_eq, E. }
  congruence.
Qed.

Lemma coverage_step_tail (pre : list Recommendation) (st : GenState)
    (h : Holding) :
  coverage_tail pre st -> coverage_tail pre (coverage_step' st h).
Proof.
  intros (cov & Est & Hnd & Hcov). unfold coverage_step.
  destruct (extreme_signal _); [|exists cov; auto].
  destruct (covered _ (fst st)) eqn:Ec; cbn [negb]; [exists cov; auto|].
  apply covered_false in Ec. rewrite Est in Ec.
  apply List.Forall_app in Ec. destruct Ec as [Hpre Hc].
  exists (app cov [coverage_rec technical_signals h
                     ("REC-" ++ format_03d (S (snd st)))]).
  unfold emit. cbn [fst]. split; [|split].
  - rewrite Est. symmetry. apply app_assoc.
  - rewrite List.map_app. cbn [List.map coverage_rec instrument_code].
    apply List.NoDup_app; [exact Hnd | repeat constructor; intros [] |].
    intros c Hc1 [<- | []]. apply List.in_map_iff in Hc1.
    destruct Hc1 as (x & Ex & Hx).
    rewrite List.Forall_forall in Hc. exact (Hc x Hx Ex).
  - apply List.Forall_app. split; [exact Hcov|].
    constructor; [|constructor]. split.
    + cbn [coverage_rec action]. destruct (get_is _ _); auto.
    + cbn [coverage_rec instrument_code].
      eapply List.Forall_impl; [|exact Hpre]. intros p Hp E. auto.
Qed.

Lemma coverage_loop_tail (pre : list Recommendation) (hs : list Holding)
    (st : GenState) :
  coverage_tail pre st -> coverage_tail pre (foldl coverage_step' st hs).
Proof.
  revert st. induction hs as [|h hs IH]; intros st H0; cbn [foldl].
  - exact H0.
  - apply IH. apply coverage_step_tail, H0.
Qed.

Lemma generated_tail :
  coverage_tail (fst directive_pass')
    (foldl coverage_step' directive_pass' holdings).
Proof.
  apply coverage_loop_tail.
  exists []. split; [symmetry; apply app_nil_r|].
  split; constructor.
Qed.

Lemma directive_pass_actions (r : Recommendation) :
  In r (fst directive_pass') ->
  action r = "REDEEM" \/ action r = "INVEST" \/ action r = "HOLD".
Proof.
  intros H. apply directive_pass_origin in H.
  destruct H as (d & _ & _ & Hf).
  destruct Hf as [h id _ _ -> | id _ _ _ -> | id _ _ _ -> | h id _ _ ->];
    cbn; auto.
Qed.

(** X13. A recommendation of the coverage pass (the only ones whose
    action is REVIEW or ACCUMULATE) is the only recommendation of the
    result for its instrument: no directive produced one for that code,
    and the pass never covers the same code twice. *)
Theorem coverage_recommendation_stands_alone (now : string)
    (r r' : Recommendation) :
  In r (recommendations (run now)) ->
  In r' (recommendations (run now)) ->
  action r = "REVIEW" \/ action r = "ACCUMULATE" ->
  instrument_code r' = instrument_code r ->
  r' = r.
Proof.
  intros Hr Hr' Ha Ec.
  apply recommendations_In in Hr, Hr'. unfold generated in Hr, Hr'.
  destruct generated_tail as (cov & Est & Hnd & Hcov).
  rewrite Est in Hr, Hr'. rewrite List.Forall_forall in Hcov.
  apply in_app_or in Hr. destruct Hr as [Hr | Hr].
  { exfalso. apply directive_pass_actions in Hr.
    destruct Ha as [Ha | Ha]; rewrite Ha in Hr;
      destruct Hr as [Hr | [Hr | Hr]]; discriminate Hr. }
  apply in_app_or in Hr'. destruct Hr' as [Hr' | Hr'].
  { exfalso. destruct (Hcov r Hr) as [_ Hd].
    rewrite List.Forall_forall in Hd. exact (Hd r' Hr' (eq_sym Ec)). }
  exact (NoDup_map_In_eq instrument_code cov r' r Hnd Hr' Hr Ec).
Qed.

End CoverageFacts.

(* ===================================================================== *)
(** ** The reach of the composite score                                   *)
(* ===================================================================== *)

Section CompositeReach.
Local Open Scope Q_scope.

Ltac closed_bounds := split; vm_compute; discriminate.

Lemma score_trend_reach (row : Row) : -90 <= score_trend row <= 90.
Proof. unfold score_trend. split_ifs; closed_bounds. Qed.

Lemma score_volume_reach (row : Row) : -40 <= score_volume row <= 60.
Proof. unfold score_volume. split_ifs; closed_bounds. Qed.

Lemma score_volatility_reach (row : Row) : -40 <= score_volatility row <= 40.
Proof. unfold score_volatility. split_ifs; closed_bounds. Qed.

Lemma score_relative_strength_reach (row : Row) :
  -50 <= score_relative_strength row <= 40.
Proof.
  unfold score_relative_strength, rs_high, rs_low. split_ifs; closed_bounds.
Qed.

(** X14. The composite score of a row never leaves [-74, 77]: the trend
    sub-score stays within 90 of zero, the volume sub-score within
    [-40, 60], the volatility sub-score within 40 and the
    relative-strength sub-score within [-50, 40].  Both ends are reached. *)
Theorem composite_score_reach :
  (forall row : Row,
      let s := compute_composite_score row in
      (-90 <= trend_score s <= 90) /\
      (-40 <= volume_score s <= 60) /\
      (-40 <= volatility_score s <= 40) /\
      (-50 <= relative_strength_score s <= 40) /\
      (-74 <= composite_score s <= 77)) /\
  (composite_score (compute_composite_score row_most_bullish) == 77) /\
  (composite_score (compute_composite_score row_most_bearish) == -74).
Proof.
  split; [|split; vm_compute; reflexivity].
  intros row s. subst s.
  cbn [compute_composite_score trend_score volume_score volatility_score
       relative_strength_score].
  pose proof (score_trend_reach row) as Ht.
  pose proof (clamp_bounds
                (0 + momentum_rsi row + momentum_macd row + momentum_stoch row))
    as Hm.
  fold (score_momentum row) in Hm.
  pose proof (score_volume_reach row) as Hv.
  pose proof (score_volatility_reach row) as Hw.
  pose proof (score_relative_strength_reach row) as Hr.
  pose proof (composite_is_weighted_sum row) as Hc.
  unfold weighted_sum, TC.weight_trend, TC.weight_momentum, TC.weight_volume,
    TC.weight_volatility, TC.weight_relative_strength in Hc.
  cbn [compute_composite_score composite_score] in Hc |- *.
  repeat split; try tauto; lra.
Qed.

End CompositeReach.

(* ===================================================================== *)
(** ** The range of the RSI                                               *)
(* ===================================================================== *)

Section RsiInvariant.
Local Open Scope Q_scope.

(** A set of rationals that holds 0 and is closed under sums, products by
    a non-negative factor and quotients by a positive divisor. *)
Variable P : Q -> Prop.
Hypothesis P_zero : P 0.
Hypothesis P_add : forall a b, P a -> P b -> P (a + b).
Hypothesis P_mul : forall a k, 0 <= k -> P a -> P (a * k).
Hypothesis P_div : forall a k, 0 < k -> P a -> P (a / k).

Lemma sum_finite_in (w : list pyfloat) (acc : pyfloat) :
  Forall (finite_in P) w -> finite_in P acc ->
  finite_in P (foldl fadd acc w).
Proof.
  intros Hw. revert acc. induction Hw as [|x w Hx Hw IH]; intros acc Hacc.
  - exact Hacc.
  - cbn [foldl]. apply IH.
    destruct Hacc as (a & -> & Pa), Hx as (b & -> & Pb).
    exists (a + b). split; [reflexivity | apply P_add; assumption].
Qed.

Lemma finite_not_nan (w : list pyfloat) :
  Forall (finite_in P) w -> existsb isnan w = false.
Proof.
  induction 1 as [|x w (q & -> & _) _ IH]; [reflexivity|]. exact IH.
Qed.

Lemma period_positive (period : nat) :
  (1 <= period)%nat -> 0 < inject_Z (Z.of_nat period).
Proof.
  intros H. change 0 with (inject_Z 0). rewrite <- Zlt_Qlt. lia.
Qed.

Lemma period_pred_nonneg (period : nat) :
  (1 <= period)%nat -> 0 <= inject_Z (Z.of_nat period - 1).
Proof.
  intros H. change 0 with (inject_Z 0). rewrite <- Zle_Qle. lia.
Qed.

Lemma fdiv_by_period (a : Q) (period : nat) :
  (1 <= period)%nat ->
  fdiv (Fin a) (Fin (inject_Z (Z.of_nat period)))
  = Fin (a / inject_Z (Z.of_nat period)).
Proof.
  intros H. apply fdiv_fin, period_positive, H.
Qed.

Lemma rolling_mean_in (period : nat) (xs : list pyfloat) :
  (1 <= period)%nat -> Forall (finite_in P) xs ->
  Forall (nan_or_in P) (rolling_mean period xs).
Proof.
  intros Hp Hxs. unfold rolling_mean. apply Forall_fmap.
  apply Forall_forall. intros i _. unfold compose. cbv beta.
  destruct (S i <? period)%nat; [left; reflexivity|].
  assert (Hw : Forall (finite_in P) (window period xs i)).
  { unfold window. apply Forall_take, Forall_drop, Hxs. }
  rewrite (finite_not_nan _ Hw).
  destruct (sum_finite_in (window period xs i) (Fin 0) Hw) as (s & -> & Ps).
  { exists 0. split; [reflexivity | exact P_zero]. }
  right. rewrite (fdiv_by_period _ _ Hp). eexists. split; [reflexivity|].
  apply P_div; [apply period_positive, Hp | exact Ps].
Qed.

Lemma smooth_in (period : nat) (prev x : pyfloat) :
  (1 <= period)%nat -> nan_or_in P prev -> nan_or_in P x ->
  nan_or_in P
    (fdiv (fadd (fmul prev (Fin (inject_Z (Z.of_nat period - 1)))) x)
          (Fin (inject_Z (Z.of_nat period)))).
Proof.
  intros Hp [-> | (a & -> & Pa)] Hx; [left; reflexivity|].
  destruct Hx as [-> | (b & -> & Pb)]; [left; reflexivity|].
  right. cbn [fmul fadd]. rewrite (fdiv_by_period _ _ Hp).
  eexists. split; [reflexivity|].
  apply P_div; [apply period_positive, Hp|].
  apply P_add; [|exact Pb].
  apply P_mul; [apply period_pred_nonneg, Hp | exact Pa].
Qed.

Lemma default_lookup_in (l : list pyfloat) (i : nat) :
  Forall (nan_or_in P) l -> nan_or_in P (default NaN (l !! i)).
Proof.
  intros Hl. destruct (l !! i) as [x|] eqn:E; [|left; reflexivity].
  exact (proj1 (Forall_lookup _ _) Hl i x E).
Qed.

Lemma finite_is_nan_or_in (l : list pyfloat) :
  Forall (finite_in P) l -> Forall (nan_or_in P) l.
Proof.
  intros H. eapply Forall_impl; [exact H|]. intros x Hx. right. exact Hx.
Qed.

Lemma wilder_step_in (period : nat) (gain loss : list pyfloat)
    (avgs : list pyfloat * list pyfloat) (i : nat) :
  (1 <= period)%nat ->
  Forall (finite_in P) gain -> Forall (finite_in P) loss ->
  Forall (nan_or_in P) (fst avgs) /\ Forall (nan_or_in P) (snd avgs) ->
  Forall (nan_or_in P) (fst (wilder_step period gain loss avgs i)) /\
  Forall (nan_or_in P) (snd (wilder_step period gain loss avgs i)).
Proof.
  intros Hp Hg Hl [Ha Hb]. destruct avgs as [avg_gain avg_loss].
  cbn [fst snd wilder_step] in *.
  split; apply Forall_insert; try assumption;
    apply smooth_in; try assumption;
    apply default_lookup_in; try assumption;
    apply finite_is_nan_or_in; assumption.
Qed.

Lemma wilder_loop_in (period : nat) (gain loss : list pyfloat)
    (idx : list nat) (avgs : list pyfloat * list pyfloat) :
  (1 <= period)%nat ->
  Forall (finite_in P) gain -> Forall (finite_in P) loss ->
  Forall (nan_or_in P) (fst avgs) /\ Forall (nan_or_in P) (snd avgs) ->
  Forall (nan_or_in P) (fst (foldl (wilder_step period gain loss) avgs idx)) /\
  Forall (nan_or_in P) (snd (foldl (wilder_step period gain loss) avgs idx)).
Proof.
  intros Hp Hg Hl. revert avgs.
  induction idx as [|i idx IH]; intros avgs H; cbn [foldl]; [exact H|].
  apply IH. apply wilder_step_in; assumption.
Qed.

(** When the gains and the losses of a series are in [P], so are its
    smoothed averages, where they are numbers. *)
Lemma rsi_averages_in (series : list Q) (period : nat) :
  (1 <= period)%nat ->
  Forall (finite_in P) (gains (diff series)) ->
  Forall (finite_in P) (losses (diff series)) ->
  Forall (nan_or_in P) (fst (rsi_averages series period)) /\
  Forall (nan_or_in P) (snd (rsi_averages series period)).
Proof.
  intros Hp Hg Hl. unfold rsi_averages.
  apply wilder_loop_in; try assumption.
  cbn [fst snd]. split; apply rolling_mean_in; assumption.
Qed.

End RsiInvariant.

Section RsiRange.
Local Open Scope Q_scope.

Lemma diff_values (series : list Q) :
  Forall (fun d => d = NaN \/ exists q, d = Fin q) (diff series).
Proof.
  unfold diff. destruct series as [|x rest]; constructor; [left; reflexivity|].
  apply Forall_lookup. intros i d Hd. rewrite lookup_zip_with in Hd.
  destruct ((x :: rest) !! i) as [a|]; [|discriminate Hd].
  destruct (rest !! i) as [b|]; [|discriminate Hd].
  cbn in Hd. injection Hd as <-. right. eauto.
Qed.

Lemma gains_nonneg (series : list Q) :
  Forall (finite_in (Qle 0)) (gains (diff series)).
Proof.
  unfold gains. apply Forall_fmap.
  eapply Forall_impl; [apply diff_values|].
  intros d [-> | [q ->]]; cbn.
  - exists 0. split; [reflexivity | apply Qle_refl].
  - unfold fgt, flt. destruct (Qlt_bool 0 q) eqn:E.
    + apply Qlt_bool_iff in E. exists q. split; [reflexivity|].
      apply Qlt_le_weak, E.
    + exists 0. split; [reflexivity | apply Qle_refl].
Qed.

Lemma losses_nonneg (series : list Q) :
  Forall (finite_in (Qle 0)) (losses (diff series)).
Proof.
  unfold losses. apply Forall_fmap.
  eapply Forall_impl; [apply diff_values|].
  intros d [-> | [q ->]]; cbn.
  - exists 0. split; [reflexivity | apply Qle_refl].
  - unfold flt. destruct (Qlt_bool q 0) eqn:E.
    + apply Qlt_bool_iff in E. exists (- q). split; [reflexivity|]. lra.
    + exists 0. split; [reflexivity | apply Qle_refl].
Qed.

Lemma averages_nonneg (series : list Q) (period : nat) :
  (1 <= period)%nat ->
  Forall (nan_or_in (Qle 0)) (fst (rsi_averages series period)) /\
  Forall (nan_or_in (Qle 0)) (snd (rsi_averages series period)).
Proof.
  intros Hp. apply rsi_averages_in; try assumption.
  - apply Qle_refl.
  - intros a b Ha Hb. lra.
  - intros a k Hk Ha. apply Qmult_le_0_compat; assumption.
  - intros a k Hk Ha. apply Qdiv_nonneg; assumption.
  - apply gains_nonneg.
  - apply losses_nonneg.
Qed.

Lemma rsi_of_nonneg (g l : pyfloat) :
  nan_or_in (Qle 0) g -> nan_or_in (Qle 0) l ->
  nan_or_in (fun q => 0 <= q <= 100) (rsi_of_rs (fdiv g l)).
Proof.
  intros [-> | (a & -> & Ha)] Hl; [left; reflexivity|].
  destruct Hl as [-> | (b & -> & Hb)]; [left; reflexivity|].
  destruct (Qeq_bool b 0) eqn:E.
  - apply Qeq_bool_iff in E. destruct (Qeq_bool a 0) eqn:Ea.
    + left. unfold fdiv.
      apply Qeq_bool_iff in E. rewrite E, Ea. reflexivity.
    + right. assert (Hpos : 0 < a).
      { apply Qle_lt_or_eq in Ha. destruct Ha as [Ha | Ha]; [exact Ha|].
        exfalso. symmetry in Ha. apply Qeq_bool_iff in Ha. congruence. }
      rewrite (rsi_of_rs_no_loss a b E Hpos).
      exists 100. split; [reflexivity|]. split; discriminate.
  - assert (Hpos : 0 < b).
    { apply Qle_lt_or_eq in Hb. destruct Hb as [Hb | Hb]; [exact Hb|].
      exfalso. symmetry in Hb. apply Qeq_bool_iff in Hb. congruence. }
    destruct (rsi_of_rs_ratio a b Ha Hpos) as (q & -> & Hq).
    right. exists q. split; [reflexivity|]. rewrite Hq. split.
    + apply Qle_shift_div_l; lra.
    + apply Qle_shift_div_r; lra.
Qed.

Lemma rolling_mean_length (period : nat) (xs : list pyfloat) :
  length (rolling_mean period xs) = length xs.
Proof. unfold rolling_mean. rewrite length_fmap. apply length_seq. Qed.

Lemma diff_length (series : list Q) : length (diff series) = length series.
Proof.
  unfold diff. destruct series as [|x rest]; [reflexivity|].
  cbn [length]. rewrite length_zip_with. cbn [length]. lia.
Qed.

Lemma wilder_loop_length (period : nat) (gain loss : list pyfloat)
    (idx : list nat) (avgs : list pyfloat * list pyfloat) :
  length (fst (foldl (wilder_step period gain loss) avgs idx))
    = length (fst avgs) /\
  length (snd (foldl (wilder_step period gain loss) avgs idx))
    = length (snd avgs).
Proof.
  revert avgs. induction idx as [|i idx IH]; intros avgs; cbn [foldl];
    [split; reflexivity|].
  destruct (IH (wilder_step period gain loss avgs i)) as [-> ->].
  destruct avgs as [a b]. cbn [fst snd wilder_step].
  rewrite !length_insert. split; reflexivity.
Qed.

Lemma rsi_averages_length (series : list Q) (period : nat) :
  length (fst (rsi_averages series period)) = length series /\
  length (snd (rsi_averages series period)) = length series.
Proof.
  unfold rsi_averages.
  destruct (wilder_loop_length period (gains (diff series))
              (losses (diff series)) (seq period (length series - period))
              (rolling_mean period (gains (diff series)),
               rolling_mean period (losses (diff series)))) as [-> ->].
  cbn [fst snd]. rewrite !rolling_mean_length.
  unfold gains, losses. rewrite !length_fmap, diff_length. split; reflexivity.
Qed.

Lemma compute_rsi_length (series : list Q) (period : nat) :
  length (_compute_rsi series period) = length series.
Proof.
  unfold _compute_rsi.
  destruct (rsi_averages_length series period) as [Ha Hb].
  destruct (rsi_averages series period) as [a b]. cbn [fst snd] in *.
  rewrite length_fmap, length_zip_with. lia.
Qed.

(** The loop writes no index below its first one. *)
Lemma wilder_loop_below (period : nat) (gain loss : list pyfloat)
    (start len i : nat) (avgs : list pyfloat * list pyfloat) :
  (i < start)%nat ->
  fst (foldl (wilder_step period gain loss) avgs (seq start len)) !! i
    = fst avgs !! i /\
  snd (foldl (wilder_step period gain loss) avgs (seq start len)) !! i
    = snd avgs !! i.
Proof.
  revert start avgs. induction len as [|len IH]; intros start avgs Hi;
    cbn [seq foldl]; [split; reflexivity|].
  destruct (IH (S start) (wilder_step period gain loss avgs start))
    as [-> ->]; [lia|].
  destruct avgs as [a b]. cbn [fst snd wilder_step].
  rewrite !list_lookup_insert_ne by lia. split; reflexivity.
Qed.

Lemma rolling_mean_warmup (period : nat) (xs : list pyfloat) (i : nat) :
  (S i < period)%nat -> (i < length xs)%nat ->
  rolling_mean period xs !! i = Some NaN.
Proof.
  intros Hi Hlen. unfold rolling_mean. rewrite list_lookup_fmap.
  rewrite lookup_seq_lt by exact Hlen.
  cbn [fmap option_fmap option_map Nat.add].
  apply Nat.ltb_lt in Hi. rewrite Hi. reflexivity.
Qed.

(** X15. For a window of at least one bar, [_compute_rsi] returns one
    value per close; each value is NaN or a number between 0 and 100; and
    the values of the bars before the window is full are NaN. *)
Theorem rsi_is_between_0_and_100 (series : list Q) (period : nat) :
  (1 <= period)%nat ->
  length (_compute_rsi series period) = length series /\
  Forall (nan_or_in (fun q => 0 <= q <= 100)) (_compute_rsi series period) /\
  (forall i, (S i < period)%nat -> (i < length series)%nat ->
             _compute_rsi series period !! i = Some NaN).
Proof.
  intros Hp. split; [apply compute_rsi_length|]. split.
  - destruct (averages_nonneg series period Hp) as [Ha Hb].
    unfold _compute_rsi.
    destruct (rsi_averages series period) as [a b]. cbn [fst snd] in *.
    apply Forall_lookup. intros i x Hx.
    rewrite list_lookup_fmap, lookup_zip_with in Hx.
    destruct (a !! i) as [g|] eqn:Eg; [|discriminate Hx].
    destruct (b !! i) as [l|] eqn:El; [|discriminate Hx].
    cbn in Hx. injection Hx as <-.
    apply rsi_of_nonneg.
    + exact (proj1 (Forall_lookup _ _) Ha i g Eg).
    + exact (proj1 (Forall_lookup _ _) Hb i l El).
  - intros i Hi Hlen.
    assert (Hg : fst (rsi_averages series period) !! i = Some NaN).
    { assert (Hlt : (i < period)%nat) by lia.
      unfold rsi_averages.
      rewrite (proj1 (wilder_loop_below period _ _ period _ i _ Hlt)).
      cbn [fst]. apply rolling_mean_warmup; [exact Hi|].
      unfold gains. rewrite length_fmap, diff_length. exact Hlen. }
    destruct (rsi_averages_length series period) as [_ Hb].
    destruct (lookup_lt_is_Some_2 (snd (rsi_averages series period)) i)
      as [l Hl]; [lia|].
    rewrite (compute_rsi_lookup _ _ _ _ _ Hg Hl). reflexivity.
Qed.

Lemma diff_of_constant (n : nat) (c : Q) :
  Forall (fun d => d = NaN \/ exists q, d = Fin q /\ q == 0)
    (diff (replicate n c)).
Proof.
  unfold diff. destruct n as [|n]; cbn [replicate]; constructor;
    [left; reflexivity|].
  apply Forall_lookup. intros i d Hd. rewrite lookup_zip_with in Hd.
  destruct ((c :: replicate n c) !! i) as [a|] eqn:Ea; [|discriminate Hd].
  destruct (replicate n c !! i) as [b|] eqn:Eb; [|discriminate Hd].
  cbn in Hd. injection Hd as <-.
  apply lookup_replicate in Eb. destruct Eb as [-> _].
  change (c :: replicate n c) with (replicate (S n) c) in Ea.
  apply lookup_replicate in Ea. destruct Ea as [-> _].
  right. eexists. split; [reflexivity|]. ring.
Qed.

Lemma averages_of_constant (n : nat) (c : Q) (period : nat) :
  (1 <= period)%nat ->
  Forall (nan_or_in (fun q => q == 0))
    (fst (rsi_averages (replicate n c) period)) /\
  Forall (nan_or_in (fun q => q == 0))
    (snd (rsi_averages (replicate n c) period)).
Proof.
  intros Hp. apply rsi_averages_in; try assumption.
  - reflexivity.
  - intros a b Ha Hb. rewrite Ha, Hb. reflexivity.
  - intros a k _ Ha. rewrite Ha. ring.
  - intros a k Hk Ha. rewrite Ha. field. lra.
  - unfold gains. apply Forall_fmap.
    eapply Forall_impl; [apply diff_of_constant|].
    intros d [-> | (q & -> & Hq)]; cbn.
    + exists 0. split; reflexivity.
    + unfold fgt, flt.
      assert (E : Qlt_bool 0 q = false) by (apply Qlt_bool_false_iff; lra).
      rewrite E. exists 0. split; reflexivity.
  - unfold losses. apply Forall_fmap.
    eapply Forall_impl; [apply diff_of_constant|].
    intros d [-> | (q & -> & Hq)]; cbn.
    + exists 0. split; reflexivity.
    + unfold flt.
      assert (E : Qlt_bool q 0 = false) by (apply Qlt_bool_false_iff; lra).
      rewrite E. exists 0. split; reflexivity.
Qed.

(** X16. On a series whose closes are all equal the gains and the losses
    are all zero, every ratio is 0/0, and [_compute_rsi] returns NaN at
    every bar. *)
Theorem rsi_of_constant_series_is_nan (n : nat) (c : Q) (period : nat) :
  (1 <= period)%nat ->
  _compute_rsi (replicate n c) period = replicate n NaN.
Proof.
  intros Hp.
  assert (Hall : Forall (fun x => x = NaN)
                   (_compute_rsi (replicate n c) period)).
  { destruct (averages_of_constant n c period Hp) as [Ha Hb].
    unfold _compute_rsi.
    destruct (rsi_averages (replicate n c) period) as [a b]. cbn [fst snd] in *.
    apply Forall_lookup. intros i x Hx.
    rewrite list_lookup_fmap, lookup_zip_with in Hx.
    destruct (a !! i) as [g|] eqn:Eg; [|discriminate Hx].
    destruct (b !! i) as [l|] eqn:El; [|discriminate Hx].
    cbn in Hx. injection Hx as <-.
    pose proof (proj1 (Forall_lookup _ _) Ha i g Eg) as Hg.
    pose proof (proj1 (Forall_lookup _ _) Hb i l El) as Hl.
    destruct Hg as [-> | (p & -> & Hp0)]; [reflexivity|].
    destruct Hl as [-> | (q & -> & Hq0)]; [reflexivity|].
    unfold fdiv. apply Qeq_bool_iff in Hp0, Hq0. rewrite Hq0, Hp0.
    reflexivity. }
  pose proof (compute_rsi_length (replicate n c) period) as Hlen.
  rewrite length_replicate in Hlen.
  apply list_eq. intros i.
  destruct (_compute_rsi (replicate n c) period !! i) as [x|] eqn:E.
  - pose proof (proj1 (Forall_lookup _ _) Hall i x E) as Hx.
    cbv beta in Hx. subst x.
    symmetry. apply lookup_replicate. split; [reflexivity|].
    apply lookup_lt_Some in E. lia.
  - symmetry. apply lookup_replicate_None. apply lookup_ge_None in E. lia.
Qed.

End RsiRange.

(* ===================================================================== *)
(** ** Crossovers                                                         *)
(* ===================================================================== *)

Section CrossingFacts.
Local Open Scope Q_scope.

Lemma shift1_length (xs : list pyfloat) : length (shift1 xs) = length xs.
Proof.
  unfold shift1. destruct xs as [|x xs]; [reflexivity|].
  cbn [length]. rewrite length_take. cbn [length]. lia.
Qed.

Lemma shift1_lookup_0 (xs : list pyfloat) :
  xs <> [] -> shift1 xs !! 0%nat = Some NaN.
Proof. destruct xs; [contradiction | reflexivity]. Qed.

Lemma shift1_lookup_S (xs : list pyfloat) (i : nat) :
  (S i < length xs)%nat -> shift1 xs !! S i = xs !! i.
Proof.
  intros H. unfold shift1. destruct xs as [|x xs]; [cbn in H; lia|].
  cbn [lookup list_lookup]. change (take (length (x :: xs) - 1) (x :: xs) !! i
                                    = (x :: xs) !! i).
  apply lookup_take_lt. cbn [length] in *. lia.
Qed.

Lemma flt_fgt_exclusive (c : pyfloat) :
  fgt c (Fin 0) = true -> flt c (Fin 0) = true -> False.
Proof.
  unfold fgt. destruct c as [| | |q]; cbn; try discriminate.
  intros H1 H2. apply Qlt_bool_iff in H1, H2. lra.
Qed.

Variables none up down : string.

(** The label of a bar in terms of the two differences. *)
Lemma crossings_lookup (fast slow : list pyfloat) (i : nat) (p c : pyfloat) :
  length fast = length slow ->
  shift1 (zip_with fsub fast slow) !! i = Some p ->
  zip_with fsub fast slow !! i = Some c ->
  crossings none up down fast slow !! i
    = Some (crossing_label none up down p c).
Proof.
  intros Hlen Hp Hc. unfold crossings, assign_where, crossing_label.
  assert (Hi : (i < length fast)%nat).
  { apply lookup_lt_Some in Hc. rewrite length_zip_with in Hc. lia. }
  set (curr := zip_with fsub fast slow) in *.
  set (prev := shift1 curr) in *.
  rewrite !lookup_zip_with, Hp, Hc. cbn [mbind option_bind].
  rewrite lookup_replicate_2 by exact Hi. cbn [mbind option_bind].
  destruct (fgt p (Fin 0) && flt c (Fin 0));
    destruct (flt p (Fin 0) && fgt c (Fin 0)); reflexivity.
Qed.

Lemma crossings_length (fast slow : list pyfloat) :
  length fast = length slow ->
  length (crossings none up down fast slow) = length fast.
Proof.
  intros Hlen. unfold crossings, assign_where.
  rewrite !length_zip_with, shift1_length, !length_zip_with, length_replicate.
  lia.
Qed.

Lemma crossings_differences (fast slow : list pyfloat) (i : nat) :
  length fast = length slow -> (i < length fast)%nat ->
  exists p c,
    shift1 (zip_with fsub fast slow) !! i = Some p /\
    zip_with fsub fast slow !! i = Some c.
Proof.
  intros Hlen Hi.
  destruct (lookup_lt_is_Some_2 (zip_with fsub fast slow) i) as [c Hc].
  { rewrite length_zip_with. lia. }
  destruct (lookup_lt_is_Some_2 (shift1 (zip_with fsub fast slow)) i)
    as [p Hp].
  { rewrite shift1_length, length_zip_with. lia. }
  eauto.
Qed.

Hypothesis none_up : none <> up.
Hypothesis none_down : none <> down.
Hypothesis up_down : up <> down.

Lemma crossing_label_up (p c : pyfloat) :
  crossing_label none up down p c = up ->
  flt p (Fin 0) = true /\ fgt c (Fin 0) = true.
Proof.
  unfold crossing_label.
  destruct (fgt p (Fin 0) && flt c (Fin 0)); [congruence|].
  destruct (flt p (Fin 0) && fgt c (Fin 0)) eqn:E; [|congruence].
  intros _. apply andb_true_iff. exact E.
Qed.

Lemma crossing_label_down (p c : pyfloat) :
  crossing_label none up down p c = down ->
  fgt p (Fin 0) = true /\ flt c (Fin 0) = true.
Proof.
  unfold crossing_label.
  destruct (fgt p (Fin 0) && flt c (Fin 0)) eqn:E.
  - intros _. apply andb_true_iff. exact E.
  - destruct (flt p (Fin 0) && fgt c (Fin 0)); congruence.
Qed.

(** What [crossings] does, whatever its labels. *)
Lemma crossings_facts (fast slow : list pyfloat) :
  length fast = length slow ->
  let r := crossings none up down fast slow in
  length r = length fast /\
  (fast <> [] -> r !! 0%nat = Some none) /\
  (forall i, r !! i = Some up -> r !! S i <> Some up) /\
  (forall i, r !! i = Some down -> r !! S i <> Some down) /\
  (forall i c, zip_with fsub fast slow !! i = Some c ->
               flt c (Fin 0) = false -> fgt c (Fin 0) = false ->
               r !! i = Some none /\
               ((S i < length fast)%nat -> r !! S i = Some none)).
Proof.
  intros Hlen r. subst r. split; [apply crossings_length, Hlen|].
  split; [|split; [|split]].
  - intros Hne.
    assert (Hi : (0 < length fast)%nat).
    { destruct fast; [contradiction | cbn; lia]. }
    destruct (crossings_differences fast slow 0 Hlen Hi) as (p & c & Hp & Hc).
    rewrite (crossings_lookup _ _ _ _ _ Hlen Hp Hc).
    rewrite shift1_lookup_0 in Hp.
    + injection Hp as <-. reflexivity.
    + intros E. rewrite E in Hc. discriminate Hc.
  - intros i Hup Hup'.
    assert (Hi : (S i < length fast)%nat).
    { apply lookup_lt_Some in Hup'. rewrite crossings_length in Hup'; lia. }
    destruct (crossings_differences fast slow i Hlen ltac:(lia))
      as (p & c & Hp & Hc).
    destruct (crossings_differences fast slow (S i) Hlen Hi)
      as (p' & c' & Hp' & Hc').
    rewrite (crossings_lookup _ _ _ _ _ Hlen Hp Hc) in Hup.
    rewrite (crossings_lookup _ _ _ _ _ Hlen Hp' Hc') in Hup'.
    injection Hup as Hup. injection Hup' as Hup'.
    apply crossing_label_up in Hup, Hup'.
    rewrite shift1_lookup_S in Hp' by (rewrite length_zip_with; lia).
    rewrite Hc in Hp'. injection Hp' as <-.
    exact (flt_fgt_exclusive c (proj2 Hup) (proj1 Hup')).
  - intros i Hdn Hdn'.
    assert (Hi : (S i < length fast)%nat).
    { apply lookup_lt_Some in Hdn'. rewrite crossings_length in Hdn'; lia. }
    destruct (crossings_differences fast slow i Hlen ltac:(lia))
      as (p & c & Hp & Hc).
    destruct (crossings_differences fast slow (S i) Hlen Hi)
      as (p' & c' & Hp' & Hc').
    rewrite (crossings_lookup _ _ _ _ _ Hlen Hp Hc) in Hdn.
    rewrite (crossings_lookup _ _ _ _ _ Hlen Hp' Hc') in Hdn'.
    injection Hdn as Hdn. injection Hdn' as Hdn'.
    apply crossing_label_down in Hdn, Hdn'.
    rewrite shift1_lookup_S in Hp' by (rewrite length_zip_with; lia).
    rewrite Hc in Hp'. injection Hp' as <-.
    exact (flt_fgt_exclusive c (proj1 Hdn') (proj2 Hdn)).
  - intros i c Hc Hlt Hgt.
    assert (Hi : (i < length fast)%nat).
    { apply lookup_lt_Some in Hc. rewrite length_zip_with in Hc. lia. }
    split.
    + destruct (crossings_differences fast slow i Hlen Hi)
        as (p & c0 & Hp & Hc0).
      rewrite Hc in Hc0. injection Hc0 as <-.
      rewrite (crossings_lookup _ _ _ _ _ Hlen Hp Hc).
      unfold crossing_label. rewrite Hlt, Hgt, !andb_false_r. reflexivity.
    + intros HS.
      destruct (crossings_differences fast slow (S i) Hlen HS)
        as (p' & c' & Hp' & Hc').
      rewrite (crossings_lookup _ _ _ _ _ Hlen Hp' Hc').
      rewrite shift1_lookup_S in Hp' by (rewrite length_zip_with; lia).
      rewrite Hc in Hp'. injection Hp' as <-.
      unfold crossing_label. rewrite Hlt, Hgt. reflexivity.
Qed.

End CrossingFacts.

(** X17. [_macd_crossover] and [_dma_cross] label every bar; the first bar
    is never a crossover; a BULLISH bar is never followed by a BULLISH bar
    nor a BEARISH bar by a BEARISH bar (likewise GOLDEN_CROSS and
    DEATH_CROSS); and a bar on which the two lines are equal, or their
    difference is NaN, is not a crossover and neither is the bar after it:
    a crossing that passes through an exact tie is never reported. *)
Theorem crossovers_never_repeat (fast slow : list pyfloat) :
  length fast = length slow ->
  (let r := _macd_crossover fast slow in
   length r = length fast /\
   (fast <> [] -> r !! 0%nat = Some "NEUTRAL") /\
   (forall i, r !! i = Some "BULLISH" -> r !! S i <> Some "BULLISH") /\
   (forall i, r !! i = Some "BEARISH" -> r !! S i <> Some "BEARISH") /\
   (forall i c, zip_with fsub fast slow !! i = Some c ->
                flt c (Fin 0) = false -> fgt c (Fin 0) = false ->
                r !! i = Some "NEUTRAL" /\
                ((S i < length fast)%nat -> r !! S i = Some "NEUTRAL"))) /\
  (let r := _dma_cross fast slow in
   length r = length fast /\
   (fast <> [] -> r !! 0%nat = Some "NONE") /\
   (forall i, r !! i = Some "GOLDEN_CROSS" ->
              r !! S i <> Some "GOLDEN_CROSS") /\
   (forall i, r !! i = Some "DEATH_CROSS" -> r !! S i <> Some "DEATH_CROSS") /\
   (forall i c, zip_with fsub fast slow !! i = Some c ->
                flt c (Fin 0) = false -> fgt c (Fin 0) = false ->
                r !! i = Some "NONE" /\
                ((S i < length fast)%nat -> r !! S i = Some "NONE"))).
Proof.
  intros Hlen. split.
  - apply (crossings_facts "NEUTRAL" "BULLISH" "BEARISH"); try discriminate.
    exact Hlen.
  - apply (crossings_facts "NONE" "GOLDEN_CROSS" "DEATH_CROSS");
      try discriminate.
    exact Hlen.
Qed.

(* ===================================================================== *)
(** ** Bollinger position, moving averages, on-balance volume             *)
(* ===================================================================== *)

Section BandFacts.

(** X18. In [_bb_position] the assignment of LOWER comes last and wins: a
    bar whose close is at or below the lower band is LOWER even when the
    close is also at or above the upper band (a window without any
    movement, where both bands equal the close); otherwise a close at or
    above the upper band is UPPER; every other bar is MIDDLE, among them
    the bars whose bands are still NaN. *)
Theorem bb_position_lower_wins (close upper lower : list pyfloat) (i : nat)
    (c u l : pyfloat) :
  close !! i = Some c -> upper !! i = Some u -> lower !! i = Some l ->
  let label := _bb_position close upper lower !! i in
  (fle c l = true -> label = Some "LOWER") /\
  (fle c l = false -> fge c u = true -> label = Some "UPPER") /\
  (fle c l = false -> fge c u = false -> label = Some "MIDDLE") /\
  (u = NaN -> l = NaN -> label = Some "MIDDLE") /\
  (forall q, c = Fin q -> u = Fin q -> l = Fin q -> label = Some "LOWER").
Proof.
  intros Hc Hu Hl label.
  assert (E : label = Some (if fle c l then "LOWER"
                            else if fge c u then "UPPER" else "MIDDLE")).
  { subst label. unfold _bb_position, assign_where.
    rewrite !lookup_zip_with, Hc, Hu, Hl. cbn [mbind option_bind].
    rewrite lookup_replicate_2 by (apply lookup_lt_Some in Hc; exact Hc).
    cbn [mbind option_bind]. destruct (fle c l), (fge c u); reflexivity. }
  rewrite E. repeat split.
  - intros ->. reflexivity.
  - intros -> ->. reflexivity.
  - intros -> ->. reflexivity.
  - intros -> ->. unfold fge. destruct c; reflexivity.
  - intros q -> -> ->. cbn [fle].
    assert (T : Qle_bool q q = true) by (apply Qle_bool_iff, Qle_refl).
    rewrite T. reflexivity.
Qed.

End BandFacts.

Section AverageFacts.
Local Open Scope Q_scope.

Lemma ewm_from_within (alpha prev lo hi : Q) (rest : list Q) :
  0 <= alpha <= 1 -> within lo hi prev -> Forall (within lo hi) rest ->
  Forall (within lo hi) (ewm_from alpha prev rest).
Proof.
  intros Ha Hp Hr. revert prev Hp.
  induction Hr as [|x rest Hx Hr IH]; intros prev Hp; cbn [ewm_from];
    constructor.
  - unfold within in *. split; nra.
  - apply IH. unfold within in *. split; nra.
Qed.

Lemma ewm_from_length (alpha prev : Q) (rest : list Q) :
  length (ewm_from alpha prev rest) = length rest.
Proof.
  revert prev. induction rest as [|x rest IH]; intros prev; cbn;
    [reflexivity | rewrite IH; reflexivity].
Qed.

Lemma ewm_mean_length (span : nat) (series : list Q) :
  length (ewm_mean span series) = length series.
Proof.
  unfold ewm_mean. destruct series; cbn [length];
    [reflexivity | rewrite ewm_from_length; reflexivity].
Qed.

Lemma alpha_range (span : nat) :
  (1 <= span)%nat -> 0 <= 2 / (inject_Z (Z.of_nat span) + 1) <= 1.
Proof.
  intros H.
  assert (Hs : 1 <= inject_Z (Z.of_nat span)).
  { change 1 with (inject_Z 1). rewrite <- Zle_Qle. lia. }
  split.
  - apply Qle_shift_div_l; lra.
  - apply Qle_shift_div_r; lra.
Qed.

Lemma ewm_mean_within (span : nat) (lo hi : Q) (series : list Q) :
  (1 <= span)%nat -> Forall (within lo hi) series ->
  Forall (within lo hi) (ewm_mean span series).
Proof.
  intros Hs Hall. unfold ewm_mean. destruct Hall as [|x rest Hx Hr];
    constructor; [exact Hx|].
  apply ewm_from_within; [apply alpha_range, Hs | exact Hx | exact Hr].
Qed.

Lemma zip_minus_within (lo hi lo' hi' : Q) (xs ys : list Q) :
  Forall (within lo hi) xs -> Forall (within lo' hi') ys ->
  Forall (within (lo - hi') (hi - lo')) (zip_with Qminus xs ys).
Proof.
  intros Hx. revert ys. induction Hx as [|x xs Hx Hxs IH]; intros ys Hy;
    [constructor|].
  destruct Hy as [|y ys Hy Hys]; cbn [zip_with]; constructor.
  - unfold within in *. lra.
  - apply IH, Hys.
Qed.

Lemma macd_bounds (series : list Q) (fast slow signal : nat) (lo hi : Q) :
  (1 <= fast)%nat -> (1 <= slow)%nat -> (1 <= signal)%nat ->
  Forall (within lo hi) series ->
  let '(macd_line, signal_line, histogram) :=
    _compute_macd series fast slow signal in
  (length macd_line = length series /\
   length signal_line = length series /\
   length histogram = length series) /\
  Forall (within (lo - hi) (hi - lo)) macd_line /\
  Forall (within (lo - hi) (hi - lo)) signal_line /\
  Forall (within (2 * (lo - hi)) (2 * (hi - lo))) histogram.
Proof.
  intros Hf Hs Hg Hall. unfold _compute_macd.
  assert (Hm : Forall (within (lo - hi) (hi - lo))
                 (zip_with Qminus (ewm_mean fast series)
                    (ewm_mean slow series))).
  { apply zip_minus_within; apply ewm_mean_within; assumption. }
  assert (Hsig : Forall (within (lo - hi) (hi - lo))
                   (ewm_mean signal
                      (zip_with Qminus (ewm_mean fast series)
                         (ewm_mean slow series)))).
  { apply ewm_mean_within; assumption. }
  split; [|split; [exact Hm | split; [exact Hsig|]]].
  - rewrite !length_zip_with, !ewm_mean_length, !length_zip_with,
      !ewm_mean_length.
    repeat split; lia.
  - eapply Forall_impl; [exact (zip_minus_within _ _ _ _ _ _ Hm Hsig)|].
    intros x [H1 H2]. unfold within in *. split; lra.
Qed.

(** X19. An exponential average of a window of at least one bar stays
    within the lowest and the highest value it has seen.  For a series of
    closes between [lo] and [hi], the MACD line and the signal line of
    [_compute_macd] therefore stay within [hi - lo] of zero and the
    histogram within twice that, each with one value per close. *)
Theorem macd_is_bounded_by_the_price_range
    (series : list Q) (fast slow signal : nat) (lo hi : Q) :
  (1 <= fast)%nat -> (1 <= slow)%nat -> (1 <= signal)%nat ->
  Forall (within lo hi) series ->
  Forall (within lo hi) (ewm_mean fast series) /\
  Forall (within lo hi) (ewm_mean slow series) /\
  let '(macd_line, signal_line, histogram) :=
    _compute_macd series fast slow signal in
  (length macd_line = length series /\
   length signal_line = length series /\
   length histogram = length series) /\
  Forall (within (lo - hi) (hi - lo)) macd_line /\
  Forall (within (lo - hi) (hi - lo)) signal_line /\
  Forall (within (2 * (lo - hi)) (2 * (hi - lo))) histogram.
Proof.
  intros Hf Hs Hg Hall.
  split; [apply ewm_mean_within; assumption|].
  split; [apply ewm_mean_within; assumption|].
  apply macd_bounds; assumption.
Qed.

End AverageFacts.

Section FlatPrices.
Local Open Scope Q_scope.

Lemma crossings_of_ties (none up down : string) (fast slow : list pyfloat) :
  none <> up -> none <> down -> up <> down ->
  length fast = length slow ->
  Forall (fun c => flt c (Fin 0) = false /\ fgt c (Fin 0) = false)
    (zip_with fsub fast slow) ->
  crossings none up down fast slow = replicate (length fast) none.
Proof.
  intros H1 H2 H3 Hlen Hall.
  destruct (crossings_facts none up down H1 H2 H3 fast slow Hlen)
    as (Hl & _ & _ & _ & Hties).
  apply list_eq. intros i.
  destruct (decide (i < length fast)%nat) as [Hi | Hi].
  - rewrite lookup_replicate_2 by exact Hi.
    destruct (lookup_lt_is_Some_2 (zip_with fsub fast slow) i) as [c Hc].
    { rewrite length_zip_with. lia. }
    destruct (proj1 (Forall_lookup _ _) Hall i c Hc) as [Hlt Hgt].
    exact (proj1 (Hties i c Hc Hlt Hgt)).
  - rewrite lookup_ge_None_2 by (rewrite Hl; lia).
    symmetry. apply lookup_replicate_None. lia.
Qed.

(** X20. On a series whose closes are all equal, the MACD line, the
    signal line and the histogram of [_compute_macd] are zero at every bar,
    and [_macd_crossover] labels every bar NEUTRAL. *)
Theorem flat_prices_give_no_macd_signal (n : nat) (c : Q)
    (fast slow signal : nat) :
  (1 <= fast)%nat -> (1 <= slow)%nat -> (1 <= signal)%nat ->
  let '(macd_line, signal_line, histogram) :=
    _compute_macd (replicate n c) fast slow signal in
  Forall (fun x => x == 0) macd_line /\
  Forall (fun x => x == 0) signal_line /\
  Forall (fun x => x == 0) histogram /\
  _macd_crossover (Fin <$> macd_line) (Fin <$> signal_line)
    = replicate n "NEUTRAL".
Proof.
  intros Hf Hs Hg.
  assert (Hall : Forall (within c c) (replicate n c)).
  { apply Forall_replicate. split; apply Qle_refl. }
  pose proof (macd_bounds (replicate n c) fast slow signal c c Hf Hs Hg Hall)
    as H.
  destruct (_compute_macd (replicate n c) fast slow signal)
    as [[macd_line signal_line] histogram].
  destruct H as ((Lm & Ls & Lh) & Hm & Hsig & Hh).
  rewrite length_replicate in Lm, Ls, Lh.
  assert (Z1 : Forall (fun x => x == 0) macd_line).
  { eapply Forall_impl; [exact Hm|]. intros x [A B]. lra. }
  assert (Z2 : Forall (fun x => x == 0) signal_line).
  { eapply Forall_impl; [exact Hsig|]. intros x [A B]. lra. }
  split; [exact Z1|]. split; [exact Z2|]. split.
  { eapply Forall_impl; [exact Hh|]. intros x [A B]. lra. }
  unfold _macd_crossover.
  rewrite crossings_of_ties; try discriminate.
  - rewrite length_fmap, Lm. reflexivity.
  - rewrite !length_fmap. lia.
  - apply Forall_lookup. intros i d Hd.
    rewrite lookup_zip_with, !list_lookup_fmap in Hd.
    destruct (macd_line !! i) as [m|] eqn:Em; [|discriminate Hd].
    destruct (signal_line !! i) as [s|] eqn:Es; [|discriminate Hd].
    cbn in Hd. injection Hd as <-.
    pose proof (proj1 (Forall_lookup _ _) Z1 i m Em) as Hm0.
    pose proof (proj1 (Forall_lookup _ _) Z2 i s Es) as Hs0.
    cbv beta in Hm0, Hs0. unfold fgt, flt.
    split; apply Qlt_bool_false_iff; lra.
Qed.

End FlatPrices.

Section ObvFacts.
Local Open Scope Q_scope.

Variables close volume : list Q.

(** One turn of the loop of lines 284-290. *)
Local Abbreviation obv_step :=
  (fun (obv : list Q) (i : nat) =>
     let c := default 0 (close !! i) in
     let p := default 0 (close !! (i - 1)%nat) in
     let before := default 0 (obv !! (i - 1)%nat) in
     let v := default 0 (volume !! i) in
     if Qlt_bool p c then <[i := before + v]> obv
     else if Qlt_bool c p then <[i := before - v]> obv
     else <[i := before]> obv).

Lemma obv_step_insert (obv : list Q) (i : nat) :
  obv_step obv i
  = <[i := obv_next close volume (default 0 (obv !! (i - 1)%nat)) i]> obv.
Proof.
  unfold obv_next. cbv zeta.
  destruct (Qlt_bool _ _); [reflexivity|].
  destruct (Qlt_bool _ _); reflexivity.
Qed.

Lemma obv_loop_length (obv : list Q) (idx : list nat) :
  length (foldl obv_step obv idx) = length obv.
Proof.
  revert obv. induction idx as [|i idx IH]; intros obv; [reflexivity|].
  cbn [foldl]. rewrite IH, obv_step_insert, length_insert. reflexivity.
Qed.

(** After the turns [start .. start + len - 1]: the indices outside that
    range are untouched and each index inside holds what its turn wrote
    from the final value of the index before. *)
Lemma obv_loop_invariant (obv : list Q) (start len : nat) :
  (1 <= start)%nat -> (start + len <= length obv)%nat ->
  let r := foldl obv_step obv (seq start len) in
  (forall j, (j < start \/ start + len <= j)%nat -> r !! j = obv !! j) /\
  (forall j, (start <= j < start + len)%nat ->
             r !! j
             = Some (obv_next close volume
                       (default 0 (r !! (j - 1)%nat)) j)).
Proof.
  intros Hstart. induction len as [|len IH]; intros Hlen r; subst r.
  - cbn [seq foldl]. split; [reflexivity | intros j Hj; lia].
  - rewrite seq_S, foldl_app. cbn [foldl].
    destruct IH as [Hout Hin]; [lia|].
    set (r := foldl obv_step obv (seq start len)) in *.
    rewrite obv_step_insert.
    assert (Hr : length r = length obv) by apply obv_loop_length.
    split.
    + intros j Hj. rewrite list_lookup_insert_ne by lia. apply Hout. lia.
    + intros j Hj. destruct (decide (j = start + len)%nat) as [-> | Hne].
      * rewrite list_lookup_insert_eq by lia.
        destruct (start + len)%nat as [|k] eqn:Ek; [lia|].
        cbn [Nat.sub]. rewrite Nat.sub_0_r.
        rewrite list_lookup_insert_ne by lia. reflexivity.
      * rewrite list_lookup_insert_ne by lia. rewrite Hin by lia.
        destruct j as [|k]; [lia|].
        cbn [Nat.sub]. rewrite Nat.sub_0_r.
        rewrite list_lookup_insert_ne by lia. reflexivity.
Qed.

End ObvFacts.

(** X21. [_compute_obv] returns one value per bar, starting at 0; each
    later bar adds the volume of the day to the value of the bar before
    when the close rose, subtracts it when the close fell, and repeats the
    value when the close did not move. *)
Theorem obv_is_a_running_signed_volume (close volume : list Q) :
  let obv := _compute_obv close volume in
  length obv = length close /\
  (close <> [] -> obv !! 0%nat = Some 0%Q) /\
  (forall i c p v before,
      close !! S i = Some c -> close !! i = Some p ->
      volume !! S i = Some v -> obv !! i = Some before ->
      obv !! S i
        = Some (if Qlt_bool p c then (before + v)%Q
                else if Qlt_bool c p then (before - v)%Q
                else before)).
Proof.
  cbv zeta. unfold _compute_obv.
  set (init := replicate (length close) 0%Q).
  assert (Hinit : length init = length close) by apply length_replicate.
  destruct (decide (length close = 0%nat)) as [Hempty | Hfull].
  { replace (seq 1 (length close - 1)) with (@nil nat)
      by (rewrite Hempty; reflexivity).
    cbn [foldl]. split; [exact Hinit|].
    split; [intros Hne; destruct close; [contradiction | discriminate]|].
    intros i c p v before Hc. apply lookup_lt_Some in Hc. lia. }
  destruct (obv_loop_invariant close volume init 1 (length close - 1))
    as [Hout Hin]; [lia | lia |].
  split; [rewrite obv_loop_length; exact Hinit|]. split.
  - intros Hne. rewrite Hout by lia. subst init.
    apply lookup_replicate_2. destruct close; [contradiction | cbn; lia].
  - intros i c p v before Hc Hp Hv Hb.
    assert (Hi : (S i < length close)%nat) by (apply lookup_lt_Some in Hc; lia).
    rewrite Hin by lia. cbn [Nat.sub]. rewrite Nat.sub_0_r, Hb.
    unfold obv_next. cbn [Nat.sub]. rewrite Nat.sub_0_r, Hc, Hp, Hv.
    reflexivity.
Qed.

Section SortDescFacts.
Local Open Scope Q_scope.
Context {A : Type} (key : A -> Q).

Lemma insert_desc_perm (x : A) (l : list A) :
  Permutation (insert_desc key x l) (x :: l).
Proof.
  induction l as [|y l IH]; cbn; [reflexivity|].
  destruct (Qlt_bool (key x) (key y)); [|reflexivity].
  rewrite IH. apply perm_swap.
Qed.

Lemma sort_desc_perm (l : list A) : Permutation (sort_desc key l) l.
Proof.
  induction l as [|x l IH]; cbn; [reflexivity|].
  rewrite insert_desc_perm. constructor. exact IH.
Qed.

Lemma insert_desc_sorted (x : A) (l : list A) :
  StronglySorted (fun a b => key b <= key a) l ->
  StronglySorted (fun a b => key b <= key a) (insert_desc key x l).
Proof.
  induction 1 as [|y l Hs IH Hall]; cbn.
  - constructor; [constructor | constructor].
  - destruct (Qlt_bool (key x) (key y)) eqn:E.
    + apply Qlt_bool_iff in E. constructor; [exact IH|].
      apply List.Forall_forall. intros z Hz.
      apply (Permutation_in _ (insert_desc_perm x l)) in Hz.
      destruct Hz as [<- | Hz]; [lra|].
      exact (proj1 (List.Forall_forall _ _) Hall z Hz).
    + apply Qlt_bool_false_iff in E.
      constructor; [constructor; assumption|].
      constructor; [exact E|].
      eapply List.Forall_impl; [|exact Hall]. cbv beta. intros z Hz. lra.
Qed.

Lemma sort_desc_sorted (l : list A) :
  StronglySorted (fun a b => key b <= key a) (sort_desc key l).
Proof.
  induction l as [|x l IH]; cbn; [constructor|].
  apply insert_desc_sorted. exact IH.
Qed.

End SortDescFacts.

Section SectorFacts.
Local Open Scope Q_scope.

Variable fetch_price_data : string -> list PriceBar.
Variable indicator_columns : list PriceBar -> list Row.

Local Abbreviation ranking :=
  (analyze_sector_indices fetch_price_data indicator_columns).
Local Abbreviation turn :=
  (analyze_sector fetch_price_data indicator_columns).
Local Abbreviation score := (fun x => composite_score (sr_scores x)).

Lemma sector_loop_omap (nifty_data : list PriceBar)
    (entries : list (string * string)) (acc : list SectorResult) :
  foldl (fun results entry =>
           match turn nifty_data entry with
           | Some r => app results [r]
           | None => results
           end) acc entries
  = app acc (omap (turn nifty_data) entries).
Proof.
  revert acc. induction entries as [|e entries IH]; intros acc;
    cbn [foldl omap list_omap].
  - rewrite app_nil_r. reflexivity.
  - rewrite IH. destruct (turn nifty_data e); [|reflexivity].
    rewrite <- app_assoc. reflexivity.
Qed.

Lemma ranking_unfold :
  ranking
  = if (length (fetch_price_data "^NSEI") =? 0)%nat then []
    else sort_desc score
           (omap (turn (fetch_price_data "^NSEI")) (tail SECTOR_INDICES)).
Proof.
  unfold analyze_sector_indices. cbv zeta.
  destruct (length (fetch_price_data "^NSEI") =? 0)%nat; [reflexivity|].
  rewrite sector_loop_omap. reflexivity.
Qed.

Lemma turn_Some (nifty_data : list PriceBar) (sector symbol : string)
    (r : SectorResult) :
  turn nifty_data (sector, symbol) = Some r ->
  sector <> "NIFTY_50" /\
  fetch_price_data symbol <> [] /\
  sr_sector r = str_replace "NIFTY_" "" sector /\
  sr_symbol r = symbol /\
  exists latest,
    last (compute_all_indicators indicator_columns (fetch_price_data symbol))
      = Some latest /\
    sr_scores r = compute_composite_score latest.
Proof.
  unfold analyze_sector.
  destruct (String.eqb sector "NIFTY_50") eqn:E; [discriminate|].
  apply String.eqb_neq in E.
  destruct (length (fetch_price_data symbol) =? 0)%nat eqn:El; [discriminate|].
  destruct (last _) as [latest|] eqn:Hl; [|discriminate].
  intros [= <-]. cbn. repeat split; try assumption.
  - intros Hnil. rewrite Hnil in El. discriminate El.
  - exists latest. split; reflexivity.
Qed.

Lemma omap_names (nifty_data : list PriceBar)
    (entries : list (string * string)) :
  sublist (sr_sector <$> omap (turn nifty_data) entries)
          ((fun entry => str_replace "NIFTY_" "" (fst entry)) <$> entries).
Proof.
  induction entries as [|[sector symbol] entries IH];
    cbn [omap list_omap fmap list_fmap].
  - constructor.
  - destruct (turn nifty_data (sector, symbol)) as [r|] eqn:E.
    + apply turn_Some in E. destruct E as (_ & _ & E & _).
      cbn [fmap list_fmap fst]. rewrite E. apply sublist_skip. exact IH.
    + apply sublist_cons. exact IH.
Qed.

Lemma ranking_perm :
  fetch_price_data "^NSEI" <> [] ->
  Permutation ranking
    (omap (turn (fetch_price_data "^NSEI")) (tail SECTOR_INDICES)).
Proof.
  intros Hn. rewrite ranking_unfold.
  destruct (fetch_price_data "^NSEI"); [contradiction|]. cbn [length Nat.eqb].
  apply sort_desc_perm.
Qed.

Lemma sector_entries_checked :
  List.NoDup (((fun entry => str_replace "NIFTY_" "" (fst entry))
                 <$> tail SECTOR_INDICES))
  /\ List.NoDup (snd <$> tail SECTOR_INDICES)
  /\ length (tail SECTOR_INDICES) = 15%nat.
Proof.
  split; [|split; [|reflexivity]].
  - vm_compute. repeat (constructor; [cbn; intuition discriminate|]).
    constructor.
  - vm_compute. repeat (constructor; [cbn; intuition discriminate|]).
    constructor.
Qed.

Lemma snd_unique {A B : Type} (l : list (A * B)) (a a' : A) (b : B) :
  List.NoDup (snd <$> l) -> In (a, b) l -> In (a', b) l -> a = a'.
Proof.
  induction l as [|[x y] l IH]; [intros _ []|].
  cbn [fmap list_fmap snd]. intros Hnd H1 H2.
  apply List.NoDup_cons_iff in Hnd. destruct Hnd as [Hnot Hnd].
  destruct H1 as [H1 | H1], H2 as [H2 | H2].
  - congruence.
  - exfalso. apply Hnot. apply (List.in_map snd) in H2.
    replace y with b by congruence. exact H2.
  - exfalso. apply Hnot. apply (List.in_map snd) in H1.
    replace y with b by congruence. exact H1.
  - exact (IH Hnd H1 H2).
Qed.

Lemma omap_length_le {A B : Type} (f : A -> option B) (l : list A) :
  (length (omap f l) <= length l)%nat.
Proof.
  unfold omap. induction l as [|x l IH]; simpl; [lia|].
  destruct (f x); simpl; lia.
Qed.

Lemma ranking_In (r : SectorResult) :
  In r ranking ->
  fetch_price_data "^NSEI" <> [] /\
  exists sector symbol,
    In (sector, symbol) (tail SECTOR_INDICES) /\
    turn (fetch_price_data "^NSEI") (sector, symbol) = Some r.
Proof.
  rewrite ranking_unfold.
  destruct (fetch_price_data "^NSEI") as [|b0 nifty] eqn:En;
    cbn [length Nat.eqb]; [intros []|].
  intros Hr. split; [discriminate|].
  apply (Permutation_in _ (sort_desc_perm _ _)) in Hr.
  apply list_elem_of_In, list_elem_of_omap in Hr.
  destruct Hr as ([sector symbol] & Hin & Ht).
  exists sector, symbol. split; [apply list_elem_of_In; exact Hin | exact Ht].
Qed.

(** X22. The list [analyze_sector_indices] returns is in descending order
    of composite score, has at most fifteen entries, names no sector
    twice, and every entry belongs to an index of [SECTOR_INDICES] other
    than the benchmark NIFTY_50, named without the prefix [NIFTY_]. *)
Theorem sector_ranking_is_sorted :
  StronglySorted (fun a b => score b <= score a) ranking /\
  (length ranking <= 15)%nat /\
  List.NoDup (sr_sector <$> ranking) /\
  Forall (fun r =>
            exists sector,
              In (sector, sr_symbol r) SECTOR_INDICES /\
              sector <> "NIFTY_50" /\
              sr_sector r = str_replace "NIFTY_" "" sector)
         ranking.
Proof.
  destruct sector_entries_checked as (Hnames & _ & Hlen).
  split; [|split; [|split]].
  - rewrite ranking_unfold.
    destruct (length (fetch_price_data "^NSEI") =? 0)%nat; [constructor|].
    apply sort_desc_sorted.
  - rewrite ranking_unfold.
    destruct (length (fetch_price_data "^NSEI") =? 0)%nat; [cbn; lia|].
    rewrite (Permutation_length (sort_desc_perm _ _)), <- Hlen.
    apply omap_length_le.
  - rewrite ranking_unfold.
    destruct (length (fetch_price_data "^NSEI") =? 0)%nat; [constructor|].
    apply NoDup_ListNoDup.
    rewrite (sort_desc_perm score _).
    eapply sublist_NoDup; [|apply omap_names].
    apply NoDup_ListNoDup. exact Hnames.
  - apply List.Forall_forall. intros r Hr.
    destruct (ranking_In r Hr) as (_ & sector & symbol & Hin & Ht).
    apply turn_Some in Ht. destruct Ht as (Hne & _ & Hs & Hy & _).
    exists sector. rewrite Hy. repeat split; try assumption.
    right. exact Hin.
Qed.

(** X23. When the benchmark has data, an index of [SECTOR_INDICES] other
    than the benchmark is in the ranking exactly when its own price
    history is not empty (and the indicator pass leaves it a last row);
    its entry is then scored on that last row.  When the benchmark has no
    data the ranking is empty whatever the sectors have. *)
Theorem sector_with_data_is_ranked (sector symbol : string) :
  In (sector, symbol) SECTOR_INDICES -> sector <> "NIFTY_50" ->
  let rows :=
    compute_all_indicators indicator_columns (fetch_price_data symbol) in
  (fetch_price_data "^NSEI" = [] -> ranking = []) /\
  (fetch_price_data "^NSEI" <> [] ->
   ((exists r, In r ranking /\ sr_symbol r = symbol) <->
    (fetch_price_data symbol <> [] /\ rows <> [])) /\
   (forall r, In r ranking -> sr_symbol r = symbol ->
              sr_sector r = str_replace "NIFTY_" "" sector /\
              exists latest, last rows = Some latest /\
                             sr_scores r = compute_composite_score latest)).
Proof.
  intros Hin Hne rows. split.
  { intros Hn. rewrite ranking_unfold, Hn. reflexivity. }
  intros Hn.
  assert (Htail : In (sector, symbol) (tail SECTOR_INDICES)).
  { destruct Hin as [[= <- _] | Hin]; [contradiction | exact Hin]. }
  assert (Hsym : forall sector',
             In (sector', symbol) (tail SECTOR_INDICES) -> sector' = sector).
  { intros sector' Hin'.
    destruct sector_entries_checked as (_ & Hsyms & _).
    exact (snd_unique _ _ _ _ Hsyms Hin' Htail). }
  split.
  - split.
    + intros (r & Hr & Hs).
      destruct (ranking_In r Hr) as (_ & sector' & symbol' & Hin' & Ht).
      apply turn_Some in Ht.
      destruct Ht as (_ & Hdata & _ & Hy & latest & Hl & _).
      rewrite Hy in Hs. subst symbol'. split; [exact Hdata|].
      subst rows. intros E. rewrite E in Hl. discriminate Hl.
    + intros [Hdata Hrows].
      destruct (last rows) as [latest|] eqn:Hl.
      2: { apply last_None in Hl. contradiction. }
      assert (Ht : exists r,
                 turn (fetch_price_data "^NSEI") (sector, symbol) = Some r
                 /\ sr_symbol r = symbol).
      { unfold analyze_sector.
        apply String.eqb_neq in Hne. rewrite Hne.
        destruct (fetch_price_data symbol) as [|b df] eqn:Ed;
          [contradiction|].
        cbn [length Nat.eqb]. subst rows. rewrite Hl.
        eexists. split; reflexivity. }
      destruct Ht as (r & Ht & Hs). exists r. split; [|exact Hs].
      apply (Permutation_in _ (Permutation_sym (ranking_perm Hn))).
      apply list_elem_of_In, list_elem_of_omap.
      exists (sector, symbol). split; [apply list_elem_of_In; exact Htail|].
      exact Ht.
  - intros r Hr Hs.
    destruct (ranking_In r Hr) as (_ & sector' & symbol' & Hin' & Ht).
    apply turn_Some in Ht.
    destruct Ht as (_ & _ & Hsec & Hy & latest & Hl & Hsc).
    rewrite Hy in Hs. subst symbol'.
    rewrite (Hsym sector' Hin') in Hsec. split; [exact Hsec|].
    exists latest. split; assumption.
Qed.

Lemma turn_rs (nifty_data : list PriceBar) (sector symbol : string)
    (r : SectorResult) :
  turn nifty_data (sector, symbol) = Some r ->
  let rs (periods : nat) :=
    fround (fsub (_period_return (fetch_price_data symbol) periods)
                 (_period_return nifty_data periods)) 2 in
  rs_1w r = rs 5%nat /\ rs_1m r = rs 22%nat /\ rs_3m r = rs 66%nat.
Proof.
  unfold analyze_sector.
  destruct (String.eqb sector "NIFTY_50"); [discriminate|].
  destruct (length (fetch_price_data symbol) =? 0)%nat; [discriminate|].
  destruct (last _) as [latest|]; [|discriminate].
  intros [= <-]. cbn. repeat split.
Qed.

End SectorFacts.

Section PeriodReturnFacts.
Local Open Scope Q_scope.

Lemma period_return_value (df : list PriceBar) (periods : nat)
    (b_now b_then : PriceBar) (current past : Q) :
  (periods < length df)%nat ->
  last df = Some b_now ->
  df !! (length df - periods - 1)%nat = Some b_then ->
  bar_close b_now = Fin current -> bar_close b_then = Fin past ->
  ~ past == 0 ->
  _period_return df periods = Fin ((current - past) / past * 100).
Proof.
  intros Hlen Hnow Hthen Hc Hp Hne. unfold _period_return.
  assert (E : (length df <? periods + 1)%nat = false)
    by (apply Nat.ltb_ge; lia).
  rewrite E, Hnow, Hthen. cbn [fmap option_fmap option_map default id].
  rewrite Hc, Hp. cbn [fsub fneg fadd fdiv].
  destruct (Qeq_bool past 0) eqn:E0.
  - apply Qeq_bool_iff in E0. contradiction.
  - cbn [fmul]. reflexivity.
Qed.

Lemma period_return_finite (df : list PriceBar) (periods : nat) :
  positive_closes df -> exists r, _period_return df periods = Fin r.
Proof.
  intros Hpos.
  destruct (decide (periods < length df)%nat) as [Hlen | Hlen].
  - destruct (last df) as [b_now|] eqn:Hnow.
    2: { apply last_None in Hnow. subst df. cbn in Hlen. lia. }
    destruct (lookup_lt_is_Some_2 df (length df - periods - 1)%nat)
      as [b_then Hthen]; [lia|].
    assert (Hin : b_now ∈ df).
    { rewrite last_lookup in Hnow. eapply list_elem_of_lookup_2. exact Hnow. }
    destruct (proj1 (Forall_forall _ _) Hpos b_now Hin) as (c & Hc & _).
    destruct (proj1 (Forall_lookup _ _) Hpos _ _ Hthen) as (p & Hp & Hp0).
    eexists. eapply period_return_value; eauto. lra.
  - exists 0. unfold _period_return.
    assert (E : (length df <? periods + 1)%nat = true)
      by (apply Nat.ltb_lt; lia).
    rewrite E. reflexivity.
Qed.

(** X24. On a frame whose closes are positive, [_period_return] is a
    finite number above -100.  It is 0 when the frame has no bar
    [periods] bars before the last; otherwise it is the change from that
    bar to the last one in percent of that bar, positive exactly when the
    close rose. *)
Theorem period_return_of_positive_prices (df : list PriceBar)
    (periods : nat) :
  positive_closes df ->
  exists r,
    _period_return df periods = Fin r /\ -100 < r /\
    ((length df <= periods)%nat -> r == 0) /\
    (forall b_now b_then current past,
        (periods < length df)%nat ->
        last df = Some b_now ->
        df !! (length df - periods - 1)%nat = Some b_then ->
        bar_close b_now = Fin current -> bar_close b_then = Fin past ->
        r == (current - past) / past * 100 /\ (0 < r <-> past < current)).
Proof.
  intros Hpos.
  destruct (decide (periods < length df)%nat) as [Hlen | Hlen].
  - destruct (last df) as [b_now|] eqn:Hnow.
    2: { apply last_None in Hnow. subst df. cbn in Hlen. lia. }
    destruct (lookup_lt_is_Some_2 df (length df - periods - 1)%nat)
      as [b_then Hthen]; [lia|].
    assert (Hin : b_now ∈ df).
    { rewrite last_lookup in Hnow. eapply list_elem_of_lookup_2. exact Hnow. }
    destruct (proj1 (Forall_forall _ _) Hpos b_now Hin) as (c & Hc & Hc0).
    destruct (proj1 (Forall_lookup _ _) Hpos _ _ Hthen) as (p & Hp & Hp0).
    exists ((c - p) / p * 100).
    assert (Hq : (c - p) / p == c / p - 1) by (field; lra).
    assert (Hcp : 0 < c / p).
    { apply Qlt_shift_div_l; [exact Hp0 | lra]. }
    split; [eapply period_return_value; eauto; lra|].
    split; [rewrite Hq; lra|]. split; [intros; lia|].
    intros b_now' b_then' current past _ [= <-] Hthen' Hc' Hp'.
    rewrite Hthen in Hthen'. injection Hthen' as <-.
    rewrite Hc in Hc'. rewrite Hp in Hp'.
    injection Hc' as <-. injection Hp' as <-.
    split; [reflexivity|]. rewrite Hq. split; intros H.
    + assert (1 < c / p) by lra.
      apply (Qmult_lt_compat_r _ _ p Hp0) in H0.
      assert (c / p * p == c) by (field; lra). lra.
    + assert (1 < c / p); [|lra].
      apply Qlt_shift_div_l; [exact Hp0 | lra].
  - exists 0. unfold _period_return.
    assert (E : (length df <? periods + 1)%nat = true)
      by (apply Nat.ltb_lt; lia).
    rewrite E. split; [reflexivity|]. split; [lra|].
    split; [reflexivity | intros; lia].
Qed.

Lemma py_round_zero (q : Q) (ndigits : nat) : q == 0 -> py_round q ndigits == 0.
Proof.
  intros Hq. unfold py_round.
  rewrite (round_half_even_int _ 0%Z).
  - unfold Qdiv. apply Qmult_0_l.
  - rewrite Hq. apply Qmult_0_l.
Qed.


End PeriodReturnFacts.

Section SectorLookupFacts.
Local Open Scope Q_scope.

Lemma find_none_when_all_fail {A : Type} (f : A -> bool) (l : list A) :
  (forall x, In x l -> f x = false) -> List.find f l = None.
Proof.
  induction l as [|x l IH]; intros H; [reflexivity|].
  cbn [List.find]. rewrite (H x (or_introl eq_refl)).
  apply IH. intros y Hy. apply H. right. exact Hy.
Qed.

Lemma sector_names_are_upper_case :
  Forall (fun name => upper name = name) sector_names.
Proof. vm_compute. repeat constructor. Qed.

(** X26. [mock_generate_recommendations] looks a directive's target up
    among the sector names of the ranking.  A target that is none of the
    fifteen names of [analyze_sector_indices], whatever its case, finds no
    sector signal, and the recommendation to increase the exposure to it
    is made with technical score 0, signal N/A, confidence 55 and priority
    MEDIUM. *)
Theorem unlisted_sector_finds_no_signal
    (fetch_price_data : string -> list PriceBar)
    (indicator_columns : list PriceBar -> list Row) (target : string) :
  ~ In (upper target) sector_names ->
  let sector_signals :=
    as_sector_signal
      <$> analyze_sector_indices fetch_price_data indicator_columns in
  sector_tech_of sector_signals target = no_sector_tech /\
  forall client holdings directive number,
    d_target directive = Some target ->
    let r :=
      increase_exposure_rec sector_signals client holdings directive number
    in
    technical_score r == 0 /\ technical_signal r = "N/A" /\
    confidence r = 55%Z /\ priority r = "MEDIUM".
Proof.
  intros Hnot sector_signals.
  assert (Hnone : sector_tech_of sector_signals target = no_sector_tech).
  { unfold sector_tech_of. rewrite find_none_when_all_fail; [reflexivity|].
    intros s Hs. subst sector_signals.
    apply list_elem_of_In, list_elem_of_fmap in Hs.
    destruct Hs as (r & -> & Hr). apply list_elem_of_In in Hr.
    destruct (ranking_In _ _ r Hr) as (_ & sector & symbol & Hin & Ht).
    apply turn_Some in Ht. destruct Ht as (_ & _ & Hs & _).
    assert (Hname : In (sr_sector r) sector_names).
    { rewrite Hs. unfold sector_names.
      apply (List.in_map (fun entry => str_replace "NIFTY_" "" (fst entry))
               _ _ Hin). }
    cbn [as_sector_signal ss_sector default id].
    pose proof (proj1 (List.Forall_forall _ _) sector_names_are_upper_case
                  _ Hname) as Hup.
    cbv beta in Hup. rewrite Hup.
    apply String.eqb_neq. intros E. apply Hnot. rewrite <- E. exact Hname. }
  split; [exact Hnone|].
  intros client holdings directive number Ht.
  unfold increase_exposure_rec.
  cbn [technical_score technical_signal confidence priority].
  rewrite Ht. cbn [default id]. rewrite Hnone.
  cbn [no_sector_tech ss_composite_score ss_signal default id].
  repeat split; reflexivity.
Qed.

End SectorLookupFacts.

Section InstrumentKeyFacts.

Lemma replace_absent (old new s : string) :
  contains old s = false -> replace_from old new 0 s = s.
Proof.
  induction s as [|c s IH]; [reflexivity|].
  cbn [contains replace_from]. intros H.
  apply orb_false_iff in H. destruct H as [Hp Hc].
  rewrite Hp, (IH Hc). reflexivity.
Qed.

Lemma replace_leading_marker (rest : string) :
  str_replace "NSE:" "" ("NSE:" ++ rest) = str_replace "NSE:" "" rest.
Proof.
  change ("NSE:" ++ rest)
    with (String "N" (String "S" (String "E" (String ":" rest)))).
  unfold str_replace. cbn [replace_from].
  assert (E : String.prefix "NSE:"
                (String "N" (String "S" (String "E" (String ":" rest))))
              = true) by (destruct rest; reflexivity).
  rewrite E. reflexivity.
Qed.

Lemma marker_not_across_the_end (s : string) :
  s <> "" -> String.prefix ".NS" (s ++ ".NS") = String.prefix ".NS" s.
Proof.
  intros Hs.
  destruct s as [|c1 [|c2 [|c3 s]]]; [contradiction| | |].
  1: change (String c1 "" ++ ".NS") with (String c1 ".NS").
  2: change (String c1 (String c2 "") ++ ".NS")
       with (String c1 (String c2 ".NS")).
  3: change (String c1 (String c2 (String c3 s)) ++ ".NS")
       with (String c1 (String c2 (String c3 (s ++ ".NS")))).
  all: cbn [String.prefix];
    repeat match goal with
           | |- context [ascii_dec ?a ?b] =>
               destruct (ascii_dec a b) as [?|?]; try congruence; subst
           end;
    try reflexivity; try (destruct s; reflexivity).
Qed.

Lemma replace_trailing_marker (rest : string) :
  contains ".NS" rest = false -> str_replace ".NS" "" (rest ++ ".NS") = rest.
Proof.
  unfold str_replace. induction rest as [|c rest IH]; [reflexivity|].
  intros H. cbn [contains] in H.
  apply orb_false_iff in H. destruct H as [Hp Hc].
  change (String c rest ++ ".NS") with (String c (rest ++ ".NS")).
  cbn [replace_from].
  change (String c (rest ++ ".NS")) with (String c rest ++ ".NS").
  rewrite marker_not_across_the_end by discriminate.
  rewrite Hp, (IH Hc). reflexivity.
Qed.

Lemma unique_instruments_elem (holdings : list Holding) (symbol : string) :
  symbol ∈ get_unique_instruments holdings <->
  exists h, In h holdings /\
            String.prefix "NSE:" (default "" (h_instrument_code h)) = true /\
            symbol = symbol_of_code (default "" (h_instrument_code h)).
Proof.
  unfold get_unique_instruments.
  assert (G : forall (acc : gset string),
             symbol ∈ foldl
               (fun (instruments : gset string) h =>
                  let code := default "" (h_instrument_code h) in
                  if String.prefix "NSE:" code
                  then instruments ∪ {[ symbol_of_code code ]}
                  else instruments) acc holdings <->
             symbol ∈ acc \/
             exists h, In h holdings /\
               String.prefix "NSE:" (default "" (h_instrument_code h)) = true
               /\ symbol = symbol_of_code (default "" (h_instrument_code h))).
  { induction holdings as [|h holdings IH]; intros acc; cbn [foldl].
    - split; [tauto | intros [H | (h & [] & _)]; exact H].
    - rewrite IH. cbv zeta.
      destruct (String.prefix "NSE:" (default "" (h_instrument_code h)))
        eqn:E.
      + rewrite elem_of_union, elem_of_singleton. split.
        * intros [[H | H] | (h' & Hin & Hp & Hs)]; [tauto | |].
          -- right. exists h. split; [left; reflexivity | tauto].
          -- right. exists h'. split; [right; exact Hin | tauto].
        * intros [H | (h' & [<- | Hin] & Hp & Hs)]; [tauto | tauto |].
          right. exists h'. tauto.
      + split.
        * intros [H | (h' & Hin & Hp & Hs)]; [tauto|].
          right. exists h'. split; [right; exact Hin | tauto].
        * intros [H | (h' & [<- | Hin] & Hp & Hs)]; [tauto | congruence |].
          right. exists h'. tauto. }
  rewrite G. split; [intros [H | H]; [set_solver | exact H] | tauto].
Qed.

(** X27. A holding whose instrument code is [NSE:] followed by a ticker
    that holds neither [NSE:] nor [.NS] is analysed under the market
    symbol ticker[.NS], and the code [run_pipeline] files its signal under
    is the holding's own code again, the key under which
    [mock_generate_recommendations] looks it up.  A holding whose code
    does not start with [NSE:] adds no symbol. *)
Theorem signal_is_filed_under_the_holding_code
    (holdings : list Holding) (h : Holding) (ticker : string) :
  In h holdings ->
  h_instrument_code h = Some ("NSE:" ++ ticker) ->
  contains "NSE:" ticker = false -> contains ".NS" ticker = false ->
  ticker ++ ".NS" ∈ get_unique_instruments holdings /\
  code_of_symbol (ticker ++ ".NS") = "NSE:" ++ ticker /\
  forall symbol,
    symbol ∈ get_unique_instruments holdings ->
    exists h', In h' holdings /\
               String.prefix "NSE:" (default "" (h_instrument_code h')) = true.
Proof.
  intros Hin Hcode Hn Hs.
  assert (Hsym : symbol_of_code ("NSE:" ++ ticker) = ticker ++ ".NS").
  { unfold symbol_of_code. rewrite replace_leading_marker.
    unfold str_replace. rewrite replace_absent by exact Hn. reflexivity. }
  split; [|split].
  - apply unique_instruments_elem. exists h. rewrite Hcode.
    cbn [default id]. split; [exact Hin|].
    split; [destruct ticker; reflexivity|].
    symmetry. exact Hsym.
  - unfold code_of_symbol. rewrite replace_trailing_marker by exact Hs.
    reflexivity.
  - intros symbol H. apply unique_instruments_elem in H.
    destruct H as (h' & Hh' & Hp & _). exists h'. tauto.
Qed.

End InstrumentKeyFacts.

(* ===================================================================== *)
(** ** The further properties on the examples                             *)
(* ===================================================================== *)

Section FurtherExamples.
Local Open Scope Q_scope.


(** Sun Pharma is held on a HOLD directive for pharma. *)
Lemma hold_rule_witness :
  exists r,
    In r (recommendations
            (mock_generate_recommendations [directive_hold_pharma]
               signals_example [] client_moderate
               [holding_infy; holding_sunpharma] example_now)) /\
    action r = "HOLD" /\
    instrument_code r = "NSE:SUNPHARMA" /\
    confidence r = 60%Z /\
    technical_signal r = "STRONG_BUY".
Proof.
  destruct (hold_rule [directive_hold_pharma] signals_example []
              client_moderate [holding_infy; holding_sunpharma] example_now
              directive_hold_pharma holding_sunpharma)
    as (r & Hr & Hact & Hcode & _ & _ & Hconf & _ & _ & _ & _ & Hsig).
  - left. reflexivity.
  - vm_compute. reflexivity.
  - reflexivity.
  - vm_compute. left. reflexivity.
  - exists r. repeat split; assumption.
Defined.

(** A SWITCH directive. *)
Lemma other_actions_emit_nothing_witness :
  apply_action signals_example [] client_moderate
    [holding_infy; holding_sunpharma] directive_switch ([], 0%nat)
  = ([], 0%nat).
Proof.
  apply (other_actions_emit_nothing signals_example [] client_moderate
           [holding_infy; holding_sunpharma] directive_switch ([], 0%nat));
    discriminate.
Defined.

(** The stop-loss directive has the target type PORTFOLIO. *)
Lemma unknown_target_type_emits_nothing_witness :
  matching_holdings [holding_infy; holding_sunpharma] directive_stop_loss = []
  /\ apply_action signals_example [] client_moderate
       [holding_infy; holding_sunpharma] directive_stop_loss ([], 0%nat)
     = ([], 0%nat).
Proof.
  destruct (unknown_target_type_emits_nothing signals_example []
              client_moderate [holding_infy; holding_sunpharma]
              directive_stop_loss ([], 0%nat)) as [Hnone Hsame];
    try discriminate.
  split; [exact Hnone | apply Hsame; discriminate].
Defined.


Lemma stock_directive_without_target_matches_all_witness :
  matching_holdings [holding_infy; holding_sunpharma] directive_book_profits
  = [holding_infy; holding_sunpharma].
Proof.
  apply (stock_directive_without_target_matches_all
           [holding_infy; holding_sunpharma] directive_book_profits);
    reflexivity.
Defined.

(** The coverage recommendation for Sun Pharma is the only one for that
    code. *)
Lemma coverage_recommendation_stands_alone_witness :
  In (coverage_rec signals_example holding_sunpharma "REC-002")
     (recommendations
        (mock_generate_recommendations [directive_reduce_it]
           signals_example [] client_moderate
           [holding_infy; holding_sunpharma] example_now)) /\
  (forall r',
      In r' (recommendations
               (mock_generate_recommendations [directive_reduce_it]
                  signals_example [] client_moderate
                  [holding_infy; holding_sunpharma] example_now)) ->
      instrument_code r' = "NSE:SUNPHARMA" ->
      r' = coverage_rec signals_example holding_sunpharma "REC-002").
Proof.
  split; [vm_compute; right; left; reflexivity|].
  intros r' Hr' Hcode.
  apply (coverage_recommendation_stands_alone [directive_reduce_it]
           signals_example [] client_moderate
           [holding_infy; holding_sunpharma] example_now
           (coverage_rec signals_example holding_sunpharma "REC-002") r').
  - vm_compute. right. left. reflexivity.
  - exact Hr'.
  - right. vm_compute. reflexivity.
  - exact Hcode.
Defined.

Lemma rsi_is_between_0_and_100_witness :
  length (_compute_rsi rising_closes 14) = 16%nat /\
  Forall (nan_or_in (fun q => 0 <= q <= 100)) (_compute_rsi rising_closes 14)
  /\ _compute_rsi rising_closes 14 !! 12%nat = Some NaN.
Proof.
  destruct (rsi_is_between_0_and_100 rising_closes 14) as (Hlen & Hall & Hnan);
    [lia|].
  split; [exact Hlen|]. split; [exact Hall|].
  apply Hnan; [lia | vm_compute; lia].
Defined.

Lemma rsi_of_constant_series_is_nan_witness :
  _compute_rsi (replicate 20 100) 14 = replicate 20 NaN.
Proof. apply (rsi_of_constant_series_is_nan 20 100 14). lia. Defined.

(** The fast line starts below the slow one, crosses it, and touches it
    on the way back down. *)
Lemma crossovers_never_repeat_witness :
  _macd_crossover [Fin 1; Fin 3; Fin 2; Fin 1] [Fin 2; Fin 2; Fin 2; Fin 2]
    !! 0%nat = Some "NEUTRAL" /\
  _macd_crossover [Fin 1; Fin 3; Fin 2; Fin 1] [Fin 2; Fin 2; Fin 2; Fin 2]
    !! 2%nat = Some "NEUTRAL" /\
  _macd_crossover [Fin 1; Fin 3; Fin 2; Fin 1] [Fin 2; Fin 2; Fin 2; Fin 2]
    !! 3%nat = Some "NEUTRAL".
Proof.
  destruct (crossovers_never_repeat
              [Fin 1; Fin 3; Fin 2; Fin 1] [Fin 2; Fin 2; Fin 2; Fin 2])
    as [(_ & Hfirst & _ & _ & Htie) _]; [reflexivity|].
  split; [apply Hfirst; discriminate|].
  destruct (Htie 2%nat (Fin (2 + - 2))) as [Hhere Hnext];
    [reflexivity | reflexivity | reflexivity|].
  split; [exact Hhere | apply Hnext; cbn; lia].
Defined.

(** A window without movement: both bands equal the close. *)
Lemma bb_position_lower_wins_witness :
  _bb_position [Fin 100] [Fin 100] [Fin 100] !! 0%nat = Some "LOWER".
Proof.
  destruct (bb_position_lower_wins [Fin 100] [Fin 100] [Fin 100] 0
              (Fin 100) (Fin 100) (Fin 100))
    as (_ & _ & _ & _ & Hflat); [reflexivity | reflexivity | reflexivity|].
  apply (Hflat 100); reflexivity.
Defined.

Lemma macd_is_bounded_by_the_price_range_witness :
  Forall (within 100 110) (ewm_mean 12 [100; 104; 110]) /\
  Forall (within 100 110) (ewm_mean 26 [100; 104; 110]) /\
  let '(macd_line, signal_line, histogram) :=
    _compute_macd [100; 104; 110] 12 26 9 in
  (length macd_line = 3%nat /\ length signal_line = 3%nat /\
   length histogram = 3%nat) /\
  Forall (within (100 - 110) (110 - 100)) macd_line /\
  Forall (within (100 - 110) (110 - 100)) signal_line /\
  Forall (within (2 * (100 - 110)) (2 * (110 - 100))) histogram.
Proof.
  apply (macd_is_bounded_by_the_price_range [100; 104; 110] 12 26 9 100 110);
    try lia.
  repeat constructor; cbn; discriminate.
Defined.

Lemma flat_prices_give_no_macd_signal_witness :
  let '(macd_line, signal_line, histogram) :=
    _compute_macd (replicate 30 100) 12 26 9 in
  Forall (fun x => x == 0) macd_line /\
  Forall (fun x => x == 0) signal_line /\
  Forall (fun x => x == 0) histogram /\
  _macd_crossover (Fin <$> macd_line) (Fin <$> signal_line)
    = replicate 30 "NEUTRAL".
Proof. apply (flat_prices_give_no_macd_signal 30 100 12 26 9); lia. Defined.

(** Every index has a history of one bar: all fifteen sectors are ranked. *)
Lemma sector_with_data_is_ranked_witness :
  exists r,
    In r (analyze_sector_indices one_bar_history no_indicator_columns) /\
    sr_symbol r = "^CNXIT" /\ sr_sector r = "IT".
Proof.
  destruct (sector_with_data_is_ranked one_bar_history no_indicator_columns
              "NIFTY_IT" "^CNXIT") as [_ Hranked].
  - right. right. left. reflexivity.
  - discriminate.
  - destruct Hranked as [[_ Hin] Hname]; [discriminate|].
    destruct Hin as (r & Hr & Hs); [split; discriminate|].
    exists r. split; [exact Hr|]. split; [exact Hs|].
    destruct (Hname r Hr Hs) as [Hsec _]. rewrite Hsec. reflexivity.
Defined.

(** From 104 to 110 in one period. *)
Lemma period_return_of_positive_prices_witness :
  exists r,
    _period_return three_bar_history 1 = Fin r /\ -100 < r /\
    r == (110 - 104) / 104 * 100.
Proof.
  destruct (period_return_of_positive_prices three_bar_history 1)
    as (r & Hr & Hlow & _ & Hvalue).
  - repeat constructor; eexists; (split; [reflexivity|]); reflexivity.
  - exists r. split; [exact Hr|]. split; [exact Hlow|].
    destruct (Hvalue (bar_closing 110) (bar_closing 104) 110 104)
      as [Heq _]; try reflexivity; [cbn; lia | exact Heq].
Defined.


(** The parser writes BANKING; the ranking files the index under BANK. *)
Lemma unlisted_sector_finds_no_signal_witness :
  sector_tech_of
    (as_sector_signal
       <$> analyze_sector_indices one_bar_history no_indicator_columns)
    "BANKING"
  = no_sector_tech.
Proof.
  destruct (unlisted_sector_finds_no_signal one_bar_history
              no_indicator_columns "BANKING") as [Hnone _];
    [|exact Hnone].
  vm_compute. intuition discriminate.
Defined.

Lemma signal_is_filed_under_the_holding_code_witness :
  "INFY.NS" ∈ get_unique_instruments [holding_infy; holding_sunpharma] /\
  code_of_symbol "INFY.NS" = "NSE:INFY".
Proof.
  destruct (signal_is_filed_under_the_holding_code
              [holding_infy; holding_sunpharma] holding_infy "INFY")
    as (Hin & Hcode & _).
  - left. reflexivity.
  - reflexivity.
  - reflexivity.
  - reflexivity.
  - split; [exact Hin | exact Hcode].
Defined.

End FurtherExamples.
